(** * On-demand tool loading: skills registry, router, agent and orchestrator

    A shallow embedding of the TypeScript sources

      - [src/skills/registry.ts]      ([SkillsRegistry])
      - [src/agent/main-agent.ts]     ([MainAgent])
      - [src/agent/tool-agent.ts]     ([ToolAgent])
      - [src/orchestrator/orchestrator.ts] ([Orchestrator])

    together with the properties of the skill lifecycle and of the tool-set
    management protocol.

    Conventions of the embedding.

      - A JavaScript string is a Rocq [string] holding its UTF-16 code units
        one after the other, each written as the group of one to three bytes
        that UTF-8 gives to that number.  The bytes of ASCII characters never
        occur inside a longer group, so searching for braces, quotes and
        white space byte by byte agrees with searching code unit by code
        unit.
      - A JavaScript [Map<string, V>] is an association list in insertion
        order with unique keys, a [Set<string>] a duplicate-free list in
        insertion order: [keys()], [values()] and [Array.from] expose that
        order.
      - A method is a function from the state of its object to a completion
        (normal return or thrown error) and the state the object is left in.
        State written before a [throw] stays written.
      - The language model, the executable agent built by [createAgent] and
        the [initialize] hooks of skills are external collaborators: they
        enter as oracles, quantified over in every theorem.  Logging is
        omitted. *)

From Stdlib Require Import List String Ascii Bool Arith ZArith NArith Lia.
Import ListNotations.

Set Implicit Arguments.
Set Warnings "-register-all".

Open Scope string_scope.
Open Scope list_scope.

(* ===================================================================== *)
(** * JavaScript values and built-ins *)
(* ===================================================================== *)

Module Js.

(** ** Completions and the state-and-exception monad *)

Inductive Error : Type :=
| ErrAgentNotInitialized         (* 'Agent not initialized. Call initialize() first.' *)
| ErrOrchestratorNotInitialized  (* 'Orchestrator not initialized. Call initialize() first.' *)
| ErrSkillNotFound (name : string)  (* `Skill "${name}" not found` *)
| ErrNoSkillsRegistered          (* 'No skills registered.' *)
| ErrSyntax                      (* SyntaxError raised by JSON.parse *)
| ErrType                        (* TypeError raised by the runtime *)
| ErrExternal (what : string).   (* rejection coming from a collaborator *)

Inductive Completion (A : Type) : Type :=
| Return (a : A)
| Throw (e : Error).

Arguments Return {A} a.
Arguments Throw {A} e.

Definition Eff (S A : Type) : Type := S -> Completion A * S.

Definition ret {S A} (a : A) : Eff S A := fun s => (Return a, s).

Definition throw {S A} (e : Error) : Eff S A := fun s => (Throw e, s).

Definition bind {S A B} (m : Eff S A) (k : A -> Eff S B) : Eff S B :=
  fun s =>
    match m s with
    | (Return a, s') => k a s'
    | (Throw e, s') => (Throw e, s')
    end.

Definition get_state {S} : Eff S S := fun s => (Return s, s).

Definition modify {S} (f : S -> S) : Eff S unit := fun s => (Return tt, f s).

(** [await c], for the completion [c] of a call to a collaborator *)
Definition await {S A} (c : Completion A) : Eff S A := fun s => (c, s).

(** [try { m } catch (e) { h e }] *)
Definition try_catch {S A} (m : Eff S A) (h : Error -> Eff S A) : Eff S A :=
  fun s =>
    match m s with
    | (Return a, s') => (Return a, s')
    | (Throw e, s') => h e s'
    end.

(** Runs a method of a sub-object stored in a field of the enclosing
    object. *)
Definition zoom {S T A} (proj : S -> T) (upd : T -> S -> S)
                (m : Eff T A) : Eff S A :=
  fun s => let (c, t') := m (proj s) in (c, upd t' s).

(** [for (const x of xs) { body x }] *)
Fixpoint for_of {S A} (xs : list A) (body : A -> Eff S unit) : Eff S unit :=
  match xs with
  | [] => ret tt
  | x :: xs' => bind (body x) (fun _ => for_of xs' body)
  end.

(** ** Arrays of strings *)

(** [xs.includes(x)] *)
Definition includes (xs : list string) (x : string) : bool :=
  existsb (String.eqb x) xs.

(** [xs[i]], [undefined] outside the array *)
Definition at_index {A} (xs : list A) (i : Z) : option A :=
  if (i <? 0)%Z then None else nth_error xs (Z.to_nat i).

(** ** [Map<string, V>] *)

Definition Map (V : Type) : Type := list (string * V).

Fixpoint map_get {V} (m : Map V) (k : string) : option V :=
  match m with
  | [] => None
  | (k', v) :: m' => if String.eqb k k' then Some v else map_get m' k
  end.

(** [m.set(k, v)]: an existing key keeps its position, a new key goes
    last. *)
Fixpoint map_set {V} (m : Map V) (k : string) (v : V) : Map V :=
  match m with
  | [] => [(k, v)]
  | (k', v') :: m' =>
      if String.eqb k k' then (k', v) :: m' else (k', v') :: map_set m' k v
  end.

Definition map_keys {V} (m : Map V) : list string := List.map fst m.

Definition map_values {V} (m : Map V) : list V := List.map snd m.

(** ** [Set<string>] *)

Definition StrSet : Type := list string.

Definition set_has (s : StrSet) (x : string) : bool := includes s x.

Definition set_add (s : StrSet) (x : string) : StrSet :=
  if set_has s x then s else s ++ [x].

Definition set_clear (s : StrSet) : StrSet := [].

End Js.

Import Js.

Declare Scope eff_scope.
Delimit Scope eff_scope with eff.
Notation "x <- m ;; k" := (bind m (fun x => k))
(at level 61, m at next level, right associativity) : eff_scope.
Notation "m ;;; k" := (bind m (fun _ => k))
(at level 61, right associativity) : eff_scope.

(* ===================================================================== *)
(** * Tools and skills ([src/skills/types.ts]) *)
(* ===================================================================== *)

(** A [DynamicStructuredTool].  The core only ever reads [name]; the schema
    and the body of a tool are never inspected and are left out. *)
Module DynamicStructuredTool.
Record t : Type := mk { name : string; description : string }.
End DynamicStructuredTool.
Definition Tool : Type := DynamicStructuredTool.t.

Module SkillMetadata.
Record t : Type := mk {
  name : string;
  description : string;
  version : option string;
  author : option string;
  tags : option (list string)
}.
End SkillMetadata.

Module Skill.
(** [initialize] is the optional hook; running it either resolves or
    rejects.  [cleanup] is never called by the core and is left out. *)
Record t : Type := mk {
  metadata : SkillMetadata.t;
  tools : list Tool;
  initialize : option (unit -> Completion unit)
}.
End Skill.

(* ===================================================================== *)
(** * Plain data values and [JSON.parse] *)
(* ===================================================================== *)

Module JSON.

(** The values [JSON.parse] produces.  A number keeps its exact decimal
    reading [(-1)^neg * mant * 10^exp10]; the members of an object are kept
    as written, duplicates included. *)
Inductive value : Type :=
| JNull
| JBool (b : bool)
| JNumber (neg : bool) (mant : N) (exp10 : Z)
| JString (s : string)
| JArray (elems : list value)
| JObject (members : list (string * value)).

(** ** Tokens *)

Inductive token : Type :=
| TLBrace | TRBrace | TLBracket | TRBracket | TComma | TColon
| TTrue | TFalse | TNull
| TString (s : string)
| TNumber (neg : bool) (mant : N) (exp10 : Z).

Definition dquote : ascii := ascii_of_nat 34.

Definition is_ws (c : ascii) : bool :=
  match c with
  | " " | "009" | "010" | "013" => true
  | _ => false
  end%char.

Definition digit (c : ascii) : option N :=
  let n := N_of_ascii c in
  if ((48 <=? n) && (n <=? 57))%N then Some (n - 48)%N else None.

Definition hex_digit (c : ascii) : option N :=
  let n := N_of_ascii c in
  if ((48 <=? n) && (n <=? 57))%N then Some (n - 48)%N
  else if ((65 <=? n) && (n <=? 70))%N then Some (n - 55)%N
  else if ((97 <=? n) && (n <=? 102))%N then Some (n - 87)%N
  else None.

(** The bytes standing for the code unit [u]. *)
Definition unit_bytes (u : N) : list ascii :=
  if (u <? 128)%N then [ascii_of_N u]
  else if (u <? 2048)%N then
    [ascii_of_N (192 + u / 64); ascii_of_N (128 + u mod 64)]
  else
    [ascii_of_N (224 + u / 4096); ascii_of_N (128 + (u / 64) mod 64);
     ascii_of_N (128 + u mod 64)].

(** States of the number grammar [-? int frac? exp?]. *)
Inductive num_state : Type :=
| NMinus | NZero | NInt | NDot | NFrac | NExpMark | NExpSign | NExp.

Record num_acc : Type := mk_num {
  neg : bool;        (* a leading minus sign was read *)
  mant : N;          (* the digits of the integer and fraction parts *)
  scale : Z;         (* how many of them belong to the fraction *)
  eneg : bool;       (* the exponent is negative *)
  eabs : N           (* absolute value of the exponent *)
}.

Definition num_start (n : bool) (d : N) : num_acc :=
  {| neg := n; mant := d; scale := 0; eneg := false; eabs := 0 |}.

Definition num_accepting (st : num_state) : bool :=
  match st with
  | NZero | NInt | NFrac | NExp => true
  | NMinus | NDot | NExpMark | NExpSign => false
  end.

Definition num_token (a : num_acc) : token :=
  TNumber (neg a) (mant a)
          ((if eneg a then - Z.of_N (eabs a) else Z.of_N (eabs a)) - scale a)%Z.

Definition push_int (a : num_acc) (d : N) : num_acc :=
  {| neg := neg a; mant := mant a * 10 + d; scale := scale a;
     eneg := eneg a; eabs := eabs a |}.

Definition push_frac (a : num_acc) (d : N) : num_acc :=
  {| neg := neg a; mant := mant a * 10 + d; scale := scale a + 1;
     eneg := eneg a; eabs := eabs a |}.

Definition push_exp (a : num_acc) (d : N) : num_acc :=
  {| neg := neg a; mant := mant a; scale := scale a;
     eneg := eneg a; eabs := eabs a * 10 + d |}.

Definition set_eneg (a : num_acc) : num_acc :=
  {| neg := neg a; mant := mant a; scale := scale a;
     eneg := true; eabs := eabs a |}.

(** One more character of a number, or [None] when [c] cannot continue
    it. *)
Definition lex_number (st : num_state) (a : num_acc) (c : ascii)
  : option (num_state * num_acc) :=
  match digit c with
  | Some d =>
      match st with
      | NMinus => Some (if (d =? 0)%N then NZero else NInt, push_int a d)
      | NZero => None
      | NInt => Some (NInt, push_int a d)
      | NDot | NFrac => Some (NFrac, push_frac a d)
      | NExpMark | NExpSign | NExp => Some (NExp, push_exp a d)
      end
  | None =>
      match st, c with
      | (NZero | NInt), "."%char => Some (NDot, a)
      | (NZero | NInt | NFrac), ("e" | "E")%char => Some (NExpMark, a)
      | NExpMark, "+"%char => Some (NExpSign, a)
      | NExpMark, "-"%char => Some (NExpSign, set_eneg a)
      | _, _ => None
      end
  end.

Inductive mode : Type :=
| MDefault
| MString (acc : list ascii)                       (* characters so far, last first *)
| MEscape (acc : list ascii)                       (* just after a backslash *)
| MUnicode (acc : list ascii) (todo : nat) (code : N)   (* inside \uXXXX *)
| MNumber (st : num_state) (a : num_acc)
| MLiteral (expected : list ascii) (tok : token).  (* inside true, false, null *)

Definition lex_default (c : ascii) (out : list token)
  : option (mode * list token) :=
  if is_ws c then Some (MDefault, out)
  else if Ascii.eqb c dquote then Some (MString [], out)
  else
    match c with
    | "{" => Some (MDefault, TLBrace :: out)
    | "}" => Some (MDefault, TRBrace :: out)
    | "[" => Some (MDefault, TLBracket :: out)
    | "]" => Some (MDefault, TRBracket :: out)
    | "," => Some (MDefault, TComma :: out)
    | ":" => Some (MDefault, TColon :: out)
    | "-" => Some (MNumber NMinus (num_start true 0), out)
    | "t" => Some (MLiteral ["r"; "u"; "e"] TTrue, out)
    | "f" => Some (MLiteral ["a"; "l"; "s"; "e"] TFalse, out)
    | "n" => Some (MLiteral ["u"; "l"; "l"] TNull, out)
    | _ =>
        match digit c with
        | Some d =>
            Some (MNumber (if (d =? 0)%N then NZero else NInt)
                          (num_start false d), out)
        | None => None
        end
    end%char.

Definition lex_escape (c : ascii) (acc : list ascii) : option mode :=
  if Ascii.eqb c dquote then Some (MString (dquote :: acc))
  else
    match c with
    | "\" => Some (MString ("\" :: acc))
    | "/" => Some (MString ("/" :: acc))
    | "b" => Some (MString ("008" :: acc))
    | "f" => Some (MString ("012" :: acc))
    | "n" => Some (MString ("010" :: acc))
    | "r" => Some (MString ("013" :: acc))
    | "t" => Some (MString ("009" :: acc))
    | "u" => Some (MUnicode acc 4 0)
    | _ => None
    end%char.

Definition lex_step (m : mode) (c : ascii) (out : list token)
  : option (mode * list token) :=
  match m with
  | MDefault => lex_default c out
  | MString acc =>
      if Ascii.eqb c dquote then
        Some (MDefault, TString (string_of_list_ascii (rev acc)) :: out)
      else if Ascii.eqb c "\"%char then Some (MEscape acc, out)
      else if (N_of_ascii c <? 32)%N then None
      else Some (MString (c :: acc), out)
  | MEscape acc =>
      match lex_escape c acc with
      | Some m' => Some (m', out)
      | None => None
      end
  | MUnicode acc todo code =>
      match hex_digit c with
      | Some h =>
          let code' := (code * 16 + h)%N in
          match todo with
          | 0 => None
          | 1 => Some (MString (rev (unit_bytes code') ++ acc), out)
          | S todo' => Some (MUnicode acc todo' code', out)
          end
      | None => None
      end
  | MNumber st a =>
      match lex_number st a c with
      | Some (st', a') => Some (MNumber st' a', out)
      | None =>
          if num_accepting st then lex_default c (num_token a :: out)
          else None
      end
  | MLiteral expected tok =>
      match expected with
      | [] => None
      | e :: rest =>
          if Ascii.eqb c e then
            match rest with
            | [] => Some (MDefault, tok :: out)
            | _ :: _ => Some (MLiteral rest tok, out)
            end
          else None
      end
  end.

Fixpoint lex (cs : list ascii) (m : mode) (out : list token)
  : option (list token) :=
  match cs with
  | [] =>
      match m with
      | MDefault => Some (rev out)
      | MNumber st a =>
          if num_accepting st then Some (rev (num_token a :: out)) else None
      | _ => None
      end
  | c :: cs' =>
      match lex_step m c out with
      | Some (m', out') => lex cs' m' out'
      | None => None
      end
  end.

(** ** The grammar, as a machine with a stack of open containers *)

Inductive frame : Type :=
| FArray (done : list value)                       (* elements so far, last first *)
| FObject (done : list (string * value)) (key : string).

Inductive pmode : Type :=
| PValue                                           (* a value must start *)
| PArrayStart                                      (* after '[' *)
| PAfterElement (done : list value)                (* after an element *)
| PObjectStart                                     (* after '{' *)
| PKey (done : list (string * value))              (* after ',' in an object *)
| PColon (done : list (string * value)) (key : string)
| PAfterMember (done : list (string * value))      (* after a member *)
| PDone (v : value).

Definition pstate : Type := (list frame * pmode)%type.

(** A value is complete: hand it to the innermost open container. *)
Definition complete (v : value) (stack : list frame) : pstate :=
  match stack with
  | [] => ([], PDone v)
  | FArray done :: stack' => (stack', PAfterElement (v :: done))
  | FObject done key :: stack' => (stack', PAfterMember ((key, v) :: done))
  end.

Definition start_value (t : token) (stack : list frame) : option pstate :=
  match t with
  | TNull => Some (complete JNull stack)
  | TTrue => Some (complete (JBool true) stack)
  | TFalse => Some (complete (JBool false) stack)
  | TString s => Some (complete (JString s) stack)
  | TNumber n m e => Some (complete (JNumber n m e) stack)
  | TLBracket => Some (stack, PArrayStart)
  | TLBrace => Some (stack, PObjectStart)
  | TRBrace | TRBracket | TComma | TColon => None
  end.

Definition pstep (st : pstate) (t : token) : option pstate :=
  let (stack, m) := st in
  match m, t with
  | PValue, _ => start_value t stack
  | PArrayStart, TRBracket => Some (complete (JArray []) stack)
  | PArrayStart, _ => start_value t (FArray [] :: stack)
  | PAfterElement done, TComma => Some (FArray done :: stack, PValue)
  | PAfterElement done, TRBracket => Some (complete (JArray (rev done)) stack)
  | PObjectStart, TRBrace => Some (complete (JObject []) stack)
  | PObjectStart, TString k => Some (stack, PColon [] k)
  | PKey done, TString k => Some (stack, PColon done k)
  | PColon done k, TColon => Some (FObject done k :: stack, PValue)
  | PAfterMember done, TComma => Some (stack, PKey done)
  | PAfterMember done, TRBrace => Some (complete (JObject (rev done)) stack)
  | _, _ => None
  end.

Fixpoint pmachine (ts : list token) (st : pstate) : option value :=
  match ts with
  | [] => match st with
          | (_, PDone v) => Some v
          | _ => None
          end
  | t :: ts' =>
      match pstep st t with
      | Some st' => pmachine ts' st'
      | None => None
      end
  end.

(** [JSON.parse(text)]; [None] stands for the SyntaxError it throws. *)
Definition parse (text : string) : option value :=
  match lex (list_ascii_of_string text) MDefault [] with
  | Some ts => pmachine ts ([], PValue)
  | None => None
  end.

(** ** Reading values the way the sources do *)

(** Whether the number [mant * 10^exp10] rounds to the double zero: it is
    zero or at most half the least positive double, [2^-1075]. *)
Definition number_is_zero (mant : N) (exp10 : Z) : bool :=
  if (0 <=? exp10)%Z then (mant =? 0)%N
  else (Z.of_N mant * 2 ^ 1075 <=? 10 ^ (- exp10))%Z.

(** [ToBoolean] *)
Definition truthy (v : value) : bool :=
  match v with
  | JNull => false
  | JBool b => b
  | JNumber _ m e => negb (number_is_zero m e)
  | JString s => negb (s =? "")
  | JArray _ | JObject _ => true
  end.

(** [members.k]: the last member written under [k] wins. *)
Definition member (members : list (string * value)) (k : string)
  : option value :=
  map_get (rev members) k.

(** [v.k] for a property [k] other than the built-in ones of arrays and
    strings: [None] is [undefined]; reading a property of [null] throws. *)
Definition property (v : value) (k : string) : Completion (option value) :=
  match v with
  | JNull => Throw ErrType
  | JObject members => Return (member members k)
  | _ => Return None
  end.

(** [a || b] where [a] may be [undefined]. *)
Definition or_else (a : option value) (b : value) : value :=
  match a with
  | Some v => if truthy v then v else b
  | None => b
  end.

End JSON.

(* ===================================================================== *)
(** * Strings: [match] with [/\{[\s\S]*\}/], [replace], iteration *)
(* ===================================================================== *)

Module Str.

Definition newline : string := String "010"%char "".

Definition quoted (s : string) : string :=
  (String JSON.dquote s ++ String JSON.dquote "")%string.

(** The rest of the pattern after its opening brace, [[\s\S]*\}], matched
    at the start of [cs]: the star takes as much as it can and gives back
    until a closing brace follows, so the match is the longest prefix of
    [cs] that ends in a closing brace. *)
Fixpoint match_tail (cs : list ascii) : option (list ascii) :=
  match cs with
  | [] => None
  | c :: cs' =>
      match match_tail cs' with
      | Some m => Some (c :: m)
      | None => if Ascii.eqb c "}"%char then Some [c] else None
      end
  end.

(** The pattern tried at every start position from the left. *)
Fixpoint match_from (cs : list ascii) : option (list ascii) :=
  match cs with
  | [] => None
  | c :: cs' =>
      if Ascii.eqb c "{"%char then
        match match_tail cs' with
        | Some m => Some (c :: m)
        | None => match_from cs'
        end
      else match_from cs'
  end.

(** [content.match(/\{[\s\S]*\}/)]: [None] is [null], [Some m] a match
    whose element [0] is [m]. *)
Definition match_braces (content : string) : option string :=
  option_map string_of_list_ascii (match_from (list_ascii_of_string content)).

(** The replacement text of [replace] with its [$] patterns expanded; a
    string pattern has no capture groups, so only [$$], [$&], [$`] and
    [$'] are special. *)
Fixpoint substitution (repl : list ascii) (matched before after : string)
  : string :=
  match repl with
  | "$"%char :: "$"%char :: r =>
      String "$"%char (substitution r matched before after)
  | "$"%char :: "&"%char :: r =>
      (matched ++ substitution r matched before after)%string
  | "$"%char :: "`"%char :: r =>
      (before ++ substitution r matched before after)%string
  | "$"%char :: "'"%char :: r =>
      (after ++ substitution r matched before after)%string
  | c :: r => String c (substitution r matched before after)
  | [] => ""
  end.

(** [s.replace(pattern, replacement)] for a string [pattern]: the first
    occurrence only. *)
Definition replace (s pattern replacement : string) : string :=
  match index 0 pattern s with
  | None => s
  | Some i =>
      let before := substring 0 i s in
      let after :=
        substring (i + String.length pattern)
                  (String.length s - (i + String.length pattern)) s in
      (before
       ++ substitution (list_ascii_of_string replacement) pattern before after
       ++ after)%string
  end.

(** The bytes of a string cut into its code units. *)
Definition group_size (lead : ascii) : nat :=
  let n := N_of_ascii lead in
  if (n <? 192)%N then 1 else if (n <? 224)%N then 2 else 3.

Fixpoint code_units (cs cur : list ascii) (todo : nat) : list (list ascii) :=
  match cs with
  | [] => match cur with [] => [] | _ :: _ => [rev cur] end
  | c :: cs' =>
      match todo with
      | 0 =>
          match group_size c with
          | S (S n) => code_units cs' [c] (S n)
          | _ => [c] :: code_units cs' [] 0
          end
      | 1 => rev (c :: cur) :: code_units cs' [] 0
      | S k => code_units cs' (c :: cur) k
      end
  end.

Definition is_surrogate (lo hi : N) (u : list ascii) : bool :=
  match u with
  | [b1; b2; _] =>
      ((N_of_ascii b1 =? 237) && (lo <=? N_of_ascii b2)
       && (N_of_ascii b2 <=? hi))%N
  | _ => false
  end.

(** A leading surrogate followed by a trailing one is one code point. *)
Fixpoint pair_surrogates (us : list (list ascii)) : list (list ascii) :=
  match us with
  | u :: ((v :: rest) as tl) =>
      if is_surrogate 160 175 u && is_surrogate 176 191 v
      then (u ++ v) :: pair_surrogates rest
      else u :: pair_surrogates tl
  | _ => us
  end.

(** What [for (const x of s)] iterates over: the code points of [s], each
    as a string. *)
Definition code_points (s : string) : list string :=
  List.map string_of_list_ascii
           (pair_surrogates (code_units (list_ascii_of_string s) [] 0)).

End Str.

(* ===================================================================== *)
(** * The skills registry ([src/skills/registry.ts]) *)
(* ===================================================================== *)

Module SkillsRegistry.

Record t : Type := mk {
  skills : Map Skill.t;
  initialized : StrSet;
  loadedSkills : StrSet
}.

(** [new SkillsRegistry()] *)
Definition new : t :=
  {| skills := []; initialized := []; loadedSkills := [] |}.

Definition set_skills (m : Map Skill.t) (r : t) : t :=
  {| skills := m; initialized := initialized r;
     loadedSkills := loadedSkills r |}.

Definition set_initialized (s : StrSet) (r : t) : t :=
  {| skills := skills r; initialized := s; loadedSkills := loadedSkills r |}.

Definition set_loadedSkills (s : StrSet) (r : t) : t :=
  {| skills := skills r; initialized := initialized r; loadedSkills := s |}.

Definition register (skill : Skill.t) : Eff t unit :=
  let name := SkillMetadata.name (Skill.metadata skill) in
  modify (fun r => set_skills (map_set (skills r) name skill) r).

Definition registerAll (skills : list Skill.t) : Eff t unit :=
  for_of skills register.

Definition get (r : t) (name : string) : option Skill.t :=
  map_get (skills r) name.

Definition getNames (r : t) : list string := map_keys (skills r).

Definition getAllMetadata (r : t) : list SkillMetadata.t :=
  List.map Skill.metadata (map_values (skills r)).

(** [None] is the [null] result, [Some tools] the object [{ tools }]. *)
Definition loadSkill (name : string) : Eff t (option (list Tool)) :=
  (r <- get_state ;;
   match map_get (skills r) name with
   | None => ret None
   | Some skill =>
       if set_has (loadedSkills r) name then ret None
       else
         modify (fun r => set_loadedSkills (set_add (loadedSkills r) name) r) ;;;
         ret (Some (Skill.tools skill))
   end)%eff.

Definition isSkillLoaded (r : t) (name : string) : bool :=
  set_has (loadedSkills r) name.

Definition getLoadedSkillNames (r : t) : list string := loadedSkills r.

Definition initializeSkill (name : string) : Eff t unit :=
  (r <- get_state ;;
   match map_get (skills r) name with
   | None => throw (ErrSkillNotFound name)
   | Some skill =>
       if set_has (initialized r) name then ret tt
       else
         match Skill.initialize skill with
         | Some hook => await (hook tt)
         | None => ret tt
         end ;;;
         modify (fun r => set_initialized (set_add (initialized r) name) r)
   end)%eff.

Definition initializeAll : Eff t unit :=
  (r <- get_state ;;
   for_of (map_keys (skills r)) initializeSkill)%eff.

Definition resetLoadedSkills : Eff t unit :=
  modify (fun r => set_loadedSkills (set_clear (loadedSkills r)) r).

End SkillsRegistry.

(* ===================================================================== *)
(** * Messages and the external collaborators *)
(* ===================================================================== *)

(** A handle on a chat model.  Its configuration is read from the
    environment and plays no part in the core. *)
Inductive ChatOpenAI : Type :=
| ChatModel      (* appConfig.chatModel, temperature 0.7 *)
| RouterModel.   (* appConfig.toolModel, temperature 0.3 *)

Inductive MessageKind : Type := System | Human | AI | ToolResult.

(** The content of a message: one string or an array of content blocks. *)
Inductive MessageContent : Type :=
| Text (s : string)
| Blocks (blocks : list JSON.value).

Record BaseMessage : Type := mkMessage {
  kind : MessageKind;
  content : MessageContent
}.

Definition SystemMessage (s : string) : BaseMessage := mkMessage System (Text s).
Definition HumanMessage (s : string) : BaseMessage := mkMessage Human (Text s).
Definition AIMessage (s : string) : BaseMessage := mkMessage AI (Text s).

(** The executable agent [createAgent] returns.  [serial] tells the objects
    built by one [MainAgent] apart. *)
Record ReactAgent : Type := mkAgent {
  agent_model : ChatOpenAI;
  agent_tools : list Tool;
  serial : nat
}.

(** The state an invocation of the agent returns. *)
Record AgentState : Type := mkState {
  messages : option (list BaseMessage)
}.

(** [agent.invoke({ messages })] *)
Definition AgentOracle : Type :=
  ReactAgent -> list BaseMessage -> Completion AgentState.

(** [model.invoke([{ role: 'system', content }, { role: 'user', content }])],
    answering with the content of the response. *)
Definition RouterOracle : Type :=
  ChatOpenAI -> string -> string -> Completion MessageContent.

(* ===================================================================== *)
(** * The conversational agent ([src/agent/main-agent.ts]) *)
(* ===================================================================== *)

Module MainAgent.

Definition SYSTEM_PROMPT : string :=
  ("You are a helpful AI assistant with access to various skills."
   ++ Str.newline
   ++ "Use the tools available to you to help answer questions and complete tasks."
   ++ Str.newline
   ++ "Always be helpful, accurate, and funny in your responses.")%string.

(** [created] is not a field of the class: it counts the calls of
    [createAgent] this object has made, which is what lets two executable
    agents be told apart. *)
Record t : Type := mk {
  agent : option ReactAgent;
  model : option ChatOpenAI;
  chatHistory : list BaseMessage;
  tools : list Tool;
  created : nat
}.

(** [new MainAgent()] *)
Definition new : t :=
  {| agent := None; model := None; chatHistory := []; tools := [];
     created := 0 |}.

Definition set_tools (ts : list Tool) (a : t) : t :=
  {| agent := agent a; model := model a; chatHistory := chatHistory a;
     tools := ts; created := created a |}.

Definition set_chatHistory (h : list BaseMessage) (a : t) : t :=
  {| agent := agent a; model := model a; chatHistory := h;
     tools := tools a; created := created a |}.

Definition set_model (m : ChatOpenAI) (a : t) : t :=
  {| agent := agent a; model := Some m; chatHistory := chatHistory a;
     tools := tools a; created := created a |}.

Definition getModel : Eff t ChatOpenAI :=
  (a <- get_state ;;
   match model a with
   | Some m => ret m
   | None => modify (set_model ChatModel) ;;; ret ChatModel
   end)%eff.

(** [this.agent = createAgent({ model, tools: this.tools })] *)
Definition createAgent (m : ChatOpenAI) : Eff t unit :=
  modify (fun a =>
    {| agent := Some (mkAgent m (tools a) (created a));
       model := model a; chatHistory := chatHistory a; tools := tools a;
       created := S (created a) |}).

(** The merge of [buildExecutor], on the current and the incoming tools. *)
Definition merge (current newTools : list Tool) : list Tool :=
  let newToolsName := List.map DynamicStructuredTool.name newTools in
  let existingToolsName := List.map DynamicStructuredTool.name current in
  let duplicateToolsName :=
    filter (fun name => includes existingToolsName name) newToolsName in
  current
  ++ filter (fun tool =>
               negb (includes duplicateToolsName
                              (DynamicStructuredTool.name tool)))
            newTools.

(** [newTools] is [None] when the argument is left out. *)
Definition buildExecutor (newTools : option (list Tool)) : Eff t unit :=
  (match newTools with
   | Some newTools =>
       if negb (List.length newTools =? 0)%nat
       then modify (fun a => set_tools (merge (tools a) newTools) a)
       else ret tt
   | None => ret tt
   end ;;;
   m <- getModel ;;
   createAgent m)%eff.

Definition initialize : Eff t unit :=
  (modify (set_tools []) ;;;
   buildExecutor (Some []))%eff.

(** The text of one content block. *)
Definition block_text (block : JSON.value) : string :=
  match block with
  | JSON.JString s => s
  | JSON.JObject members =>
      match JSON.member members "text" with
      | Some (JSON.JString text) => text
      | _ => ""
      end
  | _ => ""
  end.

(** The output [run] extracts from the last message of the result. *)
Definition extract_output (lastMessage : option BaseMessage) : string :=
  match lastMessage with
  | None => ""
  | Some m =>
      match kind m with
      | AI =>
          match content m with
          | Text s => s
          | Blocks blocks => String.concat "" (List.map block_text blocks)
          end
      | _ =>
          match content m with
          | Text s => s
          | Blocks _ => ""
          end
      end
  end.

Definition push (m : BaseMessage) : Eff t unit :=
  modify (fun a => set_chatHistory (chatHistory a ++ [m]) a).

Section Run.

Variable invoke : AgentOracle.

Definition run (input : string) : Eff t string :=
  (a <- get_state ;;
   match agent a with
   | None => throw ErrAgentNotInitialized
   | Some executor =>
       let messages :=
         [SystemMessage SYSTEM_PROMPT] ++ chatHistory a ++ [HumanMessage input] in
       result <- await (invoke executor messages) ;;
       let resultMessages :=
         match result with
         | {| messages := Some ms |} => ms
         | {| messages := None |} => []
         end in
       let lastMessage :=
         at_index resultMessages (Z.of_nat (List.length resultMessages) - 1) in
       let output := extract_output lastMessage in
       push (HumanMessage input) ;;;
       push (AIMessage output) ;;;
       ret output
   end)%eff.

End Run.

Definition clearHistory : Eff t unit := modify (set_chatHistory []).

End MainAgent.

(* ===================================================================== *)
(** * The router ([src/agent/tool-agent.ts]) *)
(* ===================================================================== *)

Module ToolAgent.

Definition TOOL_AGENT_SYSTEM_PROMPT : string :=
  String.concat Str.newline
    [ "You are a skill router. Your job is to analyze user requests and determine which skills are needed.";
      "";
      "Available skills:";
      "{skills_list}";
      "";
      "Respond with a JSON object:";
      "{";
      ("  " ++ Str.quoted "skills" ++ ": [" ++ Str.quoted "skill1" ++ ", "
       ++ Str.quoted "skill2" ++ "],")%string;
      ("  " ++ Str.quoted "reasoning" ++ ": " ++ Str.quoted "brief explanation")%string;
      "}";
      "";
      "Rules:";
      "- Return empty array if no skills needed (general conversation)";
      "- Only select skills that are clearly relevant";
      "- Prefer fewer skills when possible";
      "- If unclear, select the most likely skill" ].

(** What the router returns.  The declared types are [string[]] and
    [string]; the fields hold whatever the decoded object had. *)
Record ToolAgentResult : Type := mkResult {
  skills : JSON.value;
  reasoning : JSON.value
}.

(** The object holds its model; the registry it reads is the one of the
    orchestrator and is passed at each call. *)
Record t : Type := mk { model : ChatOpenAI }.

(** [new ToolAgent(registry)] *)
Definition new : t := {| model := RouterModel |}.

Definition buildSkillsList (registry : SkillsRegistry.t) : string :=
  String.concat Str.newline
    (List.map (fun s => ("- **" ++ SkillMetadata.name s ++ "**: "
                         ++ SkillMetadata.description s)%string)
              (SkillsRegistry.getAllMetadata registry)).

Definition extractResponse (content : string) : Completion ToolAgentResult :=
  match Str.match_braces content with
  | None =>
      Return {| skills := JSON.JArray [];
                reasoning := JSON.JString "No JSON response" |}
  | Some jsonMatch =>
      match JSON.parse jsonMatch with
      | None => Throw ErrSyntax
      | Some parsed =>
          match JSON.property parsed "skills",
                JSON.property parsed "reasoning" with
          | Return skills, Return reasoning =>
              Return {| skills := JSON.or_else skills (JSON.JArray []);
                        reasoning :=
                          JSON.or_else reasoning (JSON.JString "n/a") |}
          | Throw e, _ | _, Throw e => Throw e
          end
      end
  end.

Section Run.

Variable invoke : RouterOracle.

Definition run (registry : SkillsRegistry.t) (input : string)
  : Eff t ToolAgentResult :=
  let skillsList := buildSkillsList registry in
  let prompt := Str.replace TOOL_AGENT_SYSTEM_PROMPT "{skills_list}" skillsList in
  try_catch
    (self <- get_state ;;
     response <- await (invoke (model self) prompt input) ;;
     match response with
     | Text content => await (extractResponse content)
     | Blocks _ => throw ErrType       (* content.match is not a function *)
     end)%eff
    (fun _ =>
       ret {| skills := JSON.JArray [];
              reasoning := JSON.JString "Error during routing" |}).

End Run.

End ToolAgent.

(* ===================================================================== *)
(** * The built-in skills ([src/skills/*.ts]) *)
(* ===================================================================== *)

Module BaseSkill.

(** The default hook does nothing and resolves. *)
Definition initialize : unit -> Completion unit := fun _ => Return tt.

Definition createTool (name description : string) : Tool :=
  DynamicStructuredTool.mk name description.

Definition metadata (name description : string) (tags : list string)
  : SkillMetadata.t :=
  SkillMetadata.mk name description (Some "1.0.0") None (Some tags).

End BaseSkill.

Definition CalculatorSkill : Skill.t :=
  Skill.mk
    (BaseSkill.metadata "calculator"
       "Performs mathematical calculations including basic arithmetic, percentages, and expressions"
       ["math"; "calculation"; "utility"])
    [ BaseSkill.createTool "calculate"
        "Evaluate a mathematical expression. Supports +, -, *, /, ** (power), parentheses, and common math functions.";
      BaseSkill.createTool "percentage"
        "Calculate percentage of a number or percentage change between two numbers" ]
    (Some BaseSkill.initialize).

Definition WeatherSkill : Skill.t :=
  Skill.mk
    (BaseSkill.metadata "weather"
       "Get current weather conditions and forecasts for any location"
       ["weather"; "forecast"; "utility"])
    [ BaseSkill.createTool "get_weather"
        "Get current weather conditions for a specific location";
      BaseSkill.createTool "get_forecast"
        "Get weather forecast for the next few days" ]
    (Some BaseSkill.initialize).

Definition WebSearchSkill : Skill.t :=
  Skill.mk
    (BaseSkill.metadata "web-search"
       "Search the web for information, articles, and documentation"
       ["search"; "web"; "research"])
    [ BaseSkill.createTool "web_search"
        "Search the web for information on any topic";
      BaseSkill.createTool "fetch_url"
        "Fetch and extract text content from a URL" ]
    (Some BaseSkill.initialize).

Definition DateTimeSkill : Skill.t :=
  Skill.mk
    (BaseSkill.metadata "datetime"
       "Get current date/time, format dates, and calculate date differences"
       ["date"; "time"; "utility"])
    [ BaseSkill.createTool "get_current_time" "Get the current date and time";
      BaseSkill.createTool "format_date"
        "Format a date string into a different format";
      BaseSkill.createTool "date_diff"
        "Calculate the difference between two dates" ]
    (Some BaseSkill.initialize).

(* ===================================================================== *)
(** * The orchestrator ([src/orchestrator/orchestrator.ts]) *)
(* ===================================================================== *)

Module Orchestrator.

Record t : Type := mk {
  toolAgent : option ToolAgent.t;
  chatAgent : option MainAgent.t;
  tools : list Tool;
  registry : SkillsRegistry.t
}.

Definition set_toolAgent (a : option ToolAgent.t) (o : t) : t :=
  {| toolAgent := a; chatAgent := chatAgent o; tools := tools o;
     registry := registry o |}.

Definition set_chatAgent (a : option MainAgent.t) (o : t) : t :=
  {| toolAgent := toolAgent o; chatAgent := a; tools := tools o;
     registry := registry o |}.

Definition set_tools (ts : list Tool) (o : t) : t :=
  {| toolAgent := toolAgent o; chatAgent := chatAgent o; tools := ts;
     registry := registry o |}.

Definition set_registry (r : SkillsRegistry.t) (o : t) : t :=
  {| toolAgent := toolAgent o; chatAgent := chatAgent o; tools := tools o;
     registry := r |}.

(** [this.registry.m(...)] *)
Definition on_registry {A} (m : Eff SkillsRegistry.t A) : Eff t A :=
  zoom registry set_registry m.

(** [this.chatAgent.m(...)], [this.toolAgent.m(...)]: calling a method of
    [undefined] is a TypeError. *)
Definition on_chatAgent {A} (m : Eff MainAgent.t A) : Eff t A :=
  fun o =>
    match chatAgent o with
    | Some a => let (c, a') := m a in (c, set_chatAgent (Some a') o)
    | None => (Throw ErrType, o)
    end.

Definition on_toolAgent {A} (m : Eff ToolAgent.t A) : Eff t A :=
  fun o =>
    match toolAgent o with
    | Some a => let (c, a') := m a in (c, set_toolAgent (Some a') o)
    | None => (Throw ErrType, o)
    end.

(** [new Orchestrator()] *)
Definition new : t :=
  {| toolAgent := None; chatAgent := None; tools := [];
     registry :=
       snd (SkillsRegistry.registerAll
              [CalculatorSkill; WeatherSkill; WebSearchSkill; DateTimeSkill]
              SkillsRegistry.new) |}.

Definition initialize : Eff t unit :=
  (on_registry SkillsRegistry.initializeAll ;;;
   o <- get_state ;;
   if (List.length (SkillsRegistry.getNames (registry o)) =? 0)%nat
   then throw ErrNoSkillsRegistered
   else
     modify (set_toolAgent (Some ToolAgent.new)) ;;;
     modify (set_chatAgent (Some MainAgent.new)) ;;;
     on_chatAgent MainAgent.initialize)%eff.

(** [!skills?.length] is false: [skills] has a truthy [length]. *)
Definition has_length (skills : JSON.value) : bool :=
  match skills with
  | JSON.JArray elems => negb (List.length elems =? 0)%nat
  | JSON.JString s => negb (String.length s =? 0)%nat
  | JSON.JObject members =>
      match JSON.member members "length" with
      | Some v => JSON.truthy v
      | None => false
      end
  | JSON.JNull | JSON.JBool _ | JSON.JNumber _ _ _ => false
  end.

(** What [for (const x of skills)] runs through; a value that is not
    iterable throws. *)
Definition iterate (skills : JSON.value) : Completion (list JSON.value) :=
  match skills with
  | JSON.JArray elems => Return elems
  | JSON.JString s => Return (List.map JSON.JString (Str.code_points s))
  | _ => Throw ErrType
  end.

Definition loadSkillTools (skillName : JSON.value) : Eff t bool :=
  (result <- on_registry
               match skillName with
               | JSON.JString name => SkillsRegistry.loadSkill name
               | _ => ret None      (* no key of the map is such a value *)
               end ;;
   match result with
   | None => ret false
   | Some result_tools =>
       for_of result_tools
              (fun tool => modify (fun o => set_tools (tools o ++ [tool]) o)) ;;;
       ret true
   end)%eff.

(** The loop of [handleToolsLoading], threading [toolsAdded]. *)
Fixpoint load_each (names : list JSON.value) (toolsAdded : bool)
  : Eff t bool :=
  match names with
  | [] => ret toolsAdded
  | skillName :: rest =>
      (loaded <- loadSkillTools skillName ;;
       load_each rest (if loaded then true else toolsAdded))%eff
  end.

Definition handleToolsLoading (toolAgentResponse : ToolAgent.ToolAgentResult)
  : Eff t bool :=
  let skills := ToolAgent.skills toolAgentResponse in
  if negb (has_length skills) then ret false
  else
    (names <- await (iterate skills) ;;
     load_each names false)%eff.

Section Run.

Variable route : RouterOracle.
Variable invoke : AgentOracle.

Definition run (input : string) : Eff t string :=
  (o <- get_state ;;
   match toolAgent o, chatAgent o with
   | Some _, Some _ =>
       toolAgentResponse <-
         on_toolAgent (ToolAgent.run route (registry o) input) ;;
       needRebuild <- handleToolsLoading toolAgentResponse ;;
       (if needRebuild : bool
        then o' <- get_state ;;
             on_chatAgent (MainAgent.buildExecutor (Some (tools o')))
        else ret tt) ;;;
       on_chatAgent (MainAgent.run invoke input)
   | _, _ => throw ErrOrchestratorNotInitialized
   end)%eff.

End Run.

Definition getLoadedSkills (o : t) : list string :=
  SkillsRegistry.getLoadedSkillNames (registry o).

Definition getAvailableSkills (o : t) : list (string * string) :=
  List.map (fun skill =>
              (SkillMetadata.name skill, SkillMetadata.description skill))
           (SkillsRegistry.getAllMetadata (registry o)).

Definition clearHistory : Eff t unit :=
  (o <- get_state ;;
   match chatAgent o with
   | Some _ =>
       on_chatAgent MainAgent.clearHistory ;;;
       modify (set_tools []) ;;;
       on_chatAgent (MainAgent.buildExecutor (Some [])) ;;;
       on_registry SkillsRegistry.resetLoadedSkills
   | None => ret tt
   end)%eff.

End Orchestrator.

(* ===================================================================== *)
(** * Vocabulary of the properties *)
(* ===================================================================== *)

Definition tool_names (ts : list Tool) : list string :=
  List.map DynamicStructuredTool.name ts.

(** ** The registry *)

(** The operations that write to a registry. *)
Inductive RegistryOp : Type :=
| OpRegister (skill : Skill.t)
| OpRegisterAll (skills : list Skill.t)
| OpLoadSkill (name : string)
| OpInitializeSkill (name : string)
| OpInitializeAll
| OpResetLoadedSkills.

(** The registry an operation leaves behind, whether it returned or threw. *)
Definition perform (op : RegistryOp) (r : SkillsRegistry.t) : SkillsRegistry.t :=
  match op with
  | OpRegister skill => snd (SkillsRegistry.register skill r)
  | OpRegisterAll skills => snd (SkillsRegistry.registerAll skills r)
  | OpLoadSkill name => snd (SkillsRegistry.loadSkill name r)
  | OpInitializeSkill name => snd (SkillsRegistry.initializeSkill name r)
  | OpInitializeAll => snd (SkillsRegistry.initializeAll r)
  | OpResetLoadedSkills => snd (SkillsRegistry.resetLoadedSkills r)
  end.

Definition registered (r : SkillsRegistry.t) (name : string) : Prop :=
  In name (SkillsRegistry.getNames r).

(** [initialized ⊆ registered] and [loadedSkills ⊆ registered] *)
Definition registry_invariant (r : SkillsRegistry.t) : Prop :=
  incl (SkillsRegistry.initialized r) (SkillsRegistry.getNames r)
  /\ incl (SkillsRegistry.loadedSkills r) (SkillsRegistry.getNames r).

(** The lists standing for the map and the two sets repeat no name. *)
Definition well_formed (r : SkillsRegistry.t) : Prop :=
  NoDup (SkillsRegistry.getNames r)
  /\ NoDup (SkillsRegistry.initialized r)
  /\ NoDup (SkillsRegistry.loadedSkills r).

(** ** The conversational agent *)

(** The messages [run] hands to the executable agent. *)
Definition assembled (a : MainAgent.t) (input : string) : list BaseMessage :=
  [SystemMessage MainAgent.SYSTEM_PROMPT] ++ MainAgent.chatHistory a
  ++ [HumanMessage input].

(** The last message of a result, if there is one. *)
Definition last_message (result : AgentState) : option BaseMessage :=
  match messages result with
  | Some ms => List.last (List.map Some ms) None
  | None => None
  end.

(** A content block that carries text: a string, or an object whose [text]
    is a string. *)
Definition is_text_fragment (block : JSON.value) : bool :=
  match block with
  | JSON.JString _ => true
  | JSON.JObject members =>
      match JSON.member members "text" with
      | Some (JSON.JString _) => true
      | _ => false
      end
  | _ => false
  end.

Definition no_text_fragment (blocks : list JSON.value) : Prop :=
  forall block, In block blocks -> is_text_fragment block = false.

(** Extraction finds no text, in the words of the specification: the last
    message is not an assistant message, or its content is neither a string
    nor contains any text fragment. *)
Definition finds_no_text_as_stated (m : BaseMessage) : Prop :=
  kind m <> AI
  \/ match content m with
     | Text _ => False
     | Blocks blocks => no_text_fragment blocks
     end.

(** Extraction finds no text, as the code has it: there is no last message,
    or its content is not a string and it is either not an assistant message
    or without any text fragment. *)
Definition finds_no_text (lastMessage : option BaseMessage) : Prop :=
  match lastMessage with
  | None => True
  | Some m =>
      match content m with
      | Text _ => False
      | Blocks blocks => kind m <> AI \/ no_text_fragment blocks
      end
  end.

(** ** The router *)

(** The system prompt [run] sends for a registry. *)
Definition routing_prompt (registry : SkillsRegistry.t) : string :=
  Str.replace ToolAgent.TOOL_AGENT_SYSTEM_PROMPT "{skills_list}"
              (ToolAgent.buildSkillsList registry).

Definition no_skills (diagnostic : string) : ToolAgent.ToolAgentResult :=
  {| ToolAgent.skills := JSON.JArray [];
     ToolAgent.reasoning := JSON.JString diagnostic |}.

Definition chars (s : string) : list ascii := list_ascii_of_string s.

(** The outermost open container of the parsing machine. *)
Fixpoint outermost (stack : list JSON.frame) : option JSON.frame :=
  match stack with
  | [] => None
  | [f] => Some f
  | _ :: stack' => outermost stack'
  end.

(** The machine is reading an object at top level, or has just read one. *)
Definition at_object (m : JSON.pmode) : Prop :=
  match m with
  | JSON.PObjectStart | JSON.PKey _ | JSON.PColon _ _ | JSON.PAfterMember _
  | JSON.PDone (JSON.JObject _) => True
  | _ => False
  end.

Definition not_done (m : JSON.pmode) : Prop :=
  match m with
  | JSON.PDone _ => False
  | _ => True
  end.

(** The value the machine is reading is an object. *)
Definition reading_object (st : JSON.pstate) : Prop :=
  match outermost (fst st) with
  | Some (JSON.FObject _ _) => not_done (snd st)
  | Some (JSON.FArray _) => False
  | None => at_object (snd st)
  end.

(** ** The orchestrator *)

Definition is_initialized (o : Orchestrator.t) : Prop :=
  exists ta ca, Orchestrator.toolAgent o = Some ta
                /\ Orchestrator.chatAgent o = Some ca.

(** The tool set of the conversational agent of an orchestrator. *)
Definition agent_tool_names (o : Orchestrator.t) : option (list string) :=
  option_map (fun a => tool_names (MainAgent.tools a)) (Orchestrator.chatAgent o).

Definition history_length (o : Orchestrator.t) : option nat :=
  option_map (fun a => List.length (MainAgent.chatHistory a))
             (Orchestrator.chatAgent o).

(** ** Concrete collaborators and inputs *)

Module Scenario.

(** The assistant text of the router example. *)
Definition weather_reply : string :=
  ("noise {" ++ Str.quoted "skills" ++ ":[" ++ Str.quoted "weather" ++ "],"
   ++ Str.quoted "reasoning" ++ ":" ++ Str.quoted "x" ++ "}  trailing")%string.

(** A router model that always asks for the weather skill. *)
Definition route_weather : RouterOracle :=
  fun _ _ _ => Return (Text weather_reply).

(** A router model whose call fails. *)
Definition route_down : RouterOracle :=
  fun _ _ _ => Throw (ErrExternal "connection refused").

(** An executable agent that ends its run on the assistant message [text]. *)
Definition answer (text : string) : AgentOracle :=
  fun _ _ => Return (mkState (Some [AIMessage text])).

(** An executable agent whose call fails. *)
Definition agent_down : AgentOracle :=
  fun _ _ => Throw (ErrExternal "rate limited").

(** Two different tools under one name. *)
Definition lookup_v1 : Tool := DynamicStructuredTool.mk "lookup" "first version".
Definition lookup_v2 : Tool := DynamicStructuredTool.mk "lookup" "second version".

(** Two skills that both bring a tool named [lookup], in an orchestrator
    whose registry holds them in place of the built-in ones. *)
Definition alpha : Skill.t :=
  Skill.mk (BaseSkill.metadata "alpha" "first skill" []) [lookup_v1]
           (Some BaseSkill.initialize).

Definition beta : Skill.t :=
  Skill.mk (BaseSkill.metadata "beta" "second skill" [])
           [lookup_v2; BaseSkill.createTool "other" "another tool"]
           (Some BaseSkill.initialize).

Definition overlapping : Orchestrator.t :=
  snd (Orchestrator.initialize
         {| Orchestrator.toolAgent := None;
            Orchestrator.chatAgent := None;
            Orchestrator.tools := [];
            Orchestrator.registry :=
              snd (SkillsRegistry.registerAll [alpha; beta] SkillsRegistry.new) |}).

(** A router model that asks for the listed skills. *)
Definition route_to (skills : list string) : RouterOracle :=
  fun _ _ _ =>
    Return (Text ("{" ++ Str.quoted "skills" ++ ":["
                  ++ String.concat "," (List.map Str.quoted skills)
                  ++ "]}")%string).

(** The result of a tool as the last message of a run. *)
Definition tool_result : BaseMessage := mkMessage ToolResult (Text "42").

(** An executable agent whose run ends on that message. *)
Definition ends_on_tool_result : AgentOracle :=
  fun _ ms => Return (mkState (Some (ms ++ [tool_result]))).

(** An orchestrator after [initialize()]. *)
Definition ready : Orchestrator.t := snd (Orchestrator.initialize Orchestrator.new).

(** The same after one turn that loaded the weather skill. *)
Definition after_weather_turn : Orchestrator.t :=
  snd (Orchestrator.run route_weather (answer "Sunny.")
         "what's the weather in Paris" ready).

(** A conversational agent after [initialize()], with one earlier turn. *)
Definition chatting : MainAgent.t :=
  snd (MainAgent.run (answer "Hello!") "hello" (snd (MainAgent.initialize MainAgent.new))).

End Scenario.

(* ===================================================================== *)
(** * Further vocabulary *)
(* ===================================================================== *)

(** ** The registry *)

Definition skill_name (skill : Skill.t) : string :=
  SkillMetadata.name (Skill.metadata skill).

(** Every hook that [initializeAll] may still have to run resolves. *)
Definition hooks_resolve (r : SkillsRegistry.t) : Prop :=
  forall name skill hook,
    SkillsRegistry.get r name = Some skill ->
    ~ In name (SkillsRegistry.initialized r) ->
    Skill.initialize skill = Some hook ->
    hook tt = Return tt.

(** A registry whose second skill has a hook that rejects. *)
Definition unreachable : Skill.t :=
  Skill.mk (BaseSkill.metadata "unreachable" "a skill that cannot connect" [])
           []
           (Some (fun _ => Throw (ErrExternal "no connection"))).

Definition flaky_registry : SkillsRegistry.t :=
  snd (SkillsRegistry.registerAll [WeatherSkill; unreachable; CalculatorSkill]
                                  SkillsRegistry.new).

(** ** The conversational agent, operation by operation *)

(** The calls that write to a conversational agent. *)
Inductive AgentOp : Type :=
| CallInitialize
| CallBuildExecutor (newTools : option (list Tool))
| CallRun (input : string)
| CallClearHistory.

(** The agent a call leaves behind, whether it returned or threw. *)
Definition after_call (invoke : AgentOracle) (op : AgentOp) (a : MainAgent.t)
  : MainAgent.t :=
  match op with
  | CallInitialize => snd (MainAgent.initialize a)
  | CallBuildExecutor newTools => snd (MainAgent.buildExecutor newTools a)
  | CallRun input => snd (MainAgent.run invoke input a)
  | CallClearHistory => snd (MainAgent.clearHistory a)
  end.

(** The executable agent, if there is one, was built from the tool set as it
    stands, and by a call of [createAgent] this object has counted. *)
Definition agent_bound (a : MainAgent.t) : Prop :=
  match MainAgent.agent a with
  | Some executor =>
      agent_tools executor = MainAgent.tools a
      /\ serial executor < MainAgent.created a
  | None => True
  end.

(** The history of a list of turns, each a user input and its output. *)
Fixpoint transcript (turns : list (string * string)) : list BaseMessage :=
  match turns with
  | [] => []
  | (input, output) :: rest =>
      HumanMessage input :: AIMessage output :: transcript rest
  end.

(** ** The session of an orchestrator *)

(** The value names a registered skill that is not loaded yet. *)
Definition fresh (r : SkillsRegistry.t) (v : JSON.value) : bool :=
  match v with
  | JSON.JString name =>
      match SkillsRegistry.get r name with
      | Some _ => negb (SkillsRegistry.isSkillLoaded r name)
      | None => false
      end
  | _ => false
  end.

(** What skill loading may change: it keeps the agents, the registered
    skills and the initialized set, and only adds to the tool accumulator
    and to the loaded set. *)
Definition only_loads (o o' : Orchestrator.t) : Prop :=
  Orchestrator.toolAgent o' = Orchestrator.toolAgent o
  /\ Orchestrator.chatAgent o' = Orchestrator.chatAgent o
  /\ SkillsRegistry.skills (Orchestrator.registry o')
     = SkillsRegistry.skills (Orchestrator.registry o)
  /\ SkillsRegistry.initialized (Orchestrator.registry o')
     = SkillsRegistry.initialized (Orchestrator.registry o)
  /\ incl (Orchestrator.getLoadedSkills o) (Orchestrator.getLoadedSkills o')
  /\ exists added, Orchestrator.tools o' = Orchestrator.tools o ++ added.

(** The tools of every loaded skill are in the accumulator. *)
Definition loaded_tools_kept (o : Orchestrator.t) : Prop :=
  forall name skill,
    In name (Orchestrator.getLoadedSkills o) ->
    SkillsRegistry.get (Orchestrator.registry o) name = Some skill ->
    incl (Skill.tools skill) (Orchestrator.tools o).

(** The three owners of session state agree: both agents exist, the
    executable agent is bound to the tool set of the conversational agent,
    that tool set has every name of the accumulator, and the accumulator
    has the tools of every loaded skill. *)
Definition session_consistent (o : Orchestrator.t) : Prop :=
  exists ta ca executor,
    Orchestrator.toolAgent o = Some ta
    /\ Orchestrator.chatAgent o = Some ca
    /\ MainAgent.agent ca = Some executor
    /\ agent_tools executor = MainAgent.tools ca
    /\ incl (tool_names (Orchestrator.tools o)) (tool_names (MainAgent.tools ca))
    /\ loaded_tools_kept o.

(** The history of the conversational agent of an orchestrator. *)
Definition session_history (o : Orchestrator.t) : option (list BaseMessage) :=
  option_map MainAgent.chatHistory (Orchestrator.chatAgent o).

(** ** The prompt of the router *)

(** The template before and after its placeholder. *)
Definition prompt_head : string :=
  String.concat Str.newline
    [ "You are a skill router. Your job is to analyze user requests and determine which skills are needed.";
      "";
      "Available skills:";
      "" ].

Definition prompt_tail : string :=
  String.concat Str.newline
    [ "";
      "";
      "Respond with a JSON object:";
      "{";
      ("  " ++ Str.quoted "skills" ++ ": [" ++ Str.quoted "skill1" ++ ", "
       ++ Str.quoted "skill2" ++ "],")%string;
      ("  " ++ Str.quoted "reasoning" ++ ": " ++ Str.quoted "brief explanation")%string;
      "}";
      "";
      "Rules:";
      "- Return empty array if no skills needed (general conversation)";
      "- Only select skills that are clearly relevant";
      "- Prefer fewer skills when possible";
      "- If unclear, select the most likely skill" ].

(** The text has no dollar sign, the one character [replace] gives a
    meaning to in a replacement. *)
Definition dollar_free (s : string) : Prop := ~ In "$"%char (chars s).

(* ===================================================================== *)
(** * The [calculate] tool of the calculator skill: preparing the expression *)
(* ===================================================================== *)

(** The first two statements of the tool, before the expression goes to the
    evaluator of mathjs.  Both work code unit by code unit, so here a string
    is the list of its UTF-16 code units. *)
Module Calculate.

(** The class [\s]: white space and line terminators. *)
Definition white_space (u : N) : bool :=
  existsb (N.eqb u)
          [9; 10; 11; 12; 13; 32; 160; 5760; 8232; 8233; 8239; 8287; 12288;
           65279]%N
  || ((8192 <=? u) && (u <=? 8202))%N.

(** The class [[0-9+\-*/().%\s**]]. *)
Definition in_class (u : N) : bool :=
  ((48 <=? u) && (u <=? 57))%N
  || existsb (N.eqb u) [43; 45; 42; 47; 40; 41; 46; 37]%N
  || white_space u.

(** [expression.replace(/[^0-9+\-*/().%\s**]/g, '')] *)
Definition sanitized (expression : list N) : list N :=
  filter in_class expression.

(** [sanitized.replace(/\^/g, '**')] *)
Definition withPower (expression : list N) : list N :=
  flat_map (fun u => if (u =? 94)%N then [42; 42]%N else [u])
           (sanitized expression).

(** The code units of a text in ASCII. *)
Definition units (s : string) : list N :=
  List.map N_of_ascii (list_ascii_of_string s).

End Calculate.

(* ===================================================================== *)
(** * Arrays, maps and sets *)
(* ===================================================================== *)

Section Containers.

Lemma includes_In (xs : list string) (x : string) :
  includes xs x = true <-> In x xs.
Proof.
  unfold includes. rewrite existsb_exists. split.
  - intros (y & Hy & E). apply String.eqb_eq in E. now subst.
  - intros H. exists x. split; [assumption | apply String.eqb_refl].
Qed.

Lemma includes_not_In (xs : list string) (x : string) :
  includes xs x = false <-> ~ In x xs.
Proof.
  rewrite <- includes_In. destruct (includes xs x); split; congruence.
Qed.

Lemma set_add_In (s : StrSet) (x y : string) :
  In y (set_add s x) <-> In y s \/ y = x.
Proof.
  unfold set_add, set_has. destruct (includes s x) eqn:E.
  - apply includes_In in E. split; [tauto | intros [H | ->]; assumption].
  - rewrite in_app_iff. simpl. intuition.
Qed.

Lemma set_add_NoDup (s : StrSet) (x : string) :
  NoDup s -> NoDup (set_add s x).
Proof.
  intros H. unfold set_add, set_has. destruct (includes s x) eqn:E; [assumption |].
  apply includes_not_In in E. apply NoDup_app; [assumption | repeat constructor; auto | ].
  intros y Hy [<- | []]. contradiction.
Qed.

Variable V : Type.

Lemma map_get_keys (m : Map V) (k : string) :
  In k (map_keys m) <-> exists v, map_get m k = Some v.
Proof.
  induction m as [| [k' v'] m IH]; simpl.
  - split; [tauto | intros (v & H); discriminate].
  - destruct (String.eqb_spec k k') as [-> | Hne].
    + split; [eauto | auto].
    + rewrite <- IH. split; [intros [E | H]; [congruence | assumption] | auto].
Qed.

Lemma map_get_None (m : Map V) (k : string) :
  map_get m k = None <-> ~ In k (map_keys m).
Proof.
  rewrite map_get_keys. destruct (map_get m k) as [v |].
  - split; [discriminate | intros H; exfalso; eauto].
  - split; [intros _ (v & H); discriminate | reflexivity].
Qed.

Lemma map_set_keys (m : Map V) (k : string) (v : V) (k' : string) :
  In k' (map_keys (map_set m k v)) <-> In k' (map_keys m) \/ k' = k.
Proof.
  induction m as [| [k0 v0] m IH]; simpl.
  - intuition.
  - destruct (String.eqb_spec k k0) as [-> | Hne]; simpl.
    + intuition.
    + rewrite IH. intuition.
Qed.

Lemma map_set_NoDup (m : Map V) (k : string) (v : V) :
  NoDup (map_keys m) -> NoDup (map_keys (map_set m k v)).
Proof.
  induction m as [| [k0 v0] m IH]; simpl; intros H.
  - repeat constructor. tauto.
  - inversion H as [| ? ? Hk0 Hm]; subst.
    destruct (String.eqb_spec k k0) as [-> | Hne]; simpl.
    + now constructor.
    + constructor; [| now apply IH].
      rewrite map_set_keys. intros [Hin | E]; [contradiction | congruence].
Qed.

Lemma map_set_get (m : Map V) (k : string) (v : V) :
  map_get (map_set m k v) k = Some v.
Proof.
  induction m as [| [k0 v0] m IH]; simpl.
  - now rewrite String.eqb_refl.
  - destruct (String.eqb_spec k k0) as [-> | Hne]; simpl.
    + now rewrite String.eqb_refl.
    + destruct (String.eqb_spec k k0); [contradiction | assumption].
Qed.

End Containers.

(** A loop keeps what each of its rounds keeps, also when a round throws. *)
Lemma for_of_preserves {S A} (P : S -> Prop) (body : A -> Eff S unit)
      (xs : list A) :
  (forall x s, In x xs -> P s -> P (snd (body x s))) ->
  forall s, P s -> P (snd (for_of xs body s)).
Proof.
  induction xs as [| x xs IH]; intros Hbody s Hs; simpl.
  - assumption.
  - unfold bind. destruct (body x s) as [[[] | e] s'] eqn:E.
    + apply IH.
      * intros y s0 Hy. apply Hbody. now right.
      * specialize (Hbody x s (or_introl eq_refl) Hs). now rewrite E in Hbody.
    + specialize (Hbody x s (or_introl eq_refl) Hs). now rewrite E in Hbody.
Qed.

(* ===================================================================== *)
(** * The registry *)
(* ===================================================================== *)

(** What [loadSkill] does, case by case. *)
Lemma loadSkill_unknown (name : string) (r : SkillsRegistry.t) :
  SkillsRegistry.get r name = None ->
  SkillsRegistry.loadSkill name r = (Return None, r).
Proof.
  unfold SkillsRegistry.get, SkillsRegistry.loadSkill, bind, get_state.
  intros ->. reflexivity.
Qed.

Lemma loadSkill_loaded (name : string) (r : SkillsRegistry.t) :
  SkillsRegistry.isSkillLoaded r name = true ->
  SkillsRegistry.loadSkill name r = (Return None, r).
Proof.
  unfold SkillsRegistry.isSkillLoaded, SkillsRegistry.loadSkill, bind, get_state.
  intros H. destruct (map_get (SkillsRegistry.skills r) name); [| reflexivity].
  now rewrite H.
Qed.

Lemma loadSkill_fresh (name : string) (skill : Skill.t) (r : SkillsRegistry.t) :
  SkillsRegistry.get r name = Some skill ->
  SkillsRegistry.isSkillLoaded r name = false ->
  SkillsRegistry.loadSkill name r
  = (Return (Some (Skill.tools skill)),
     SkillsRegistry.set_loadedSkills (SkillsRegistry.loadedSkills r ++ [name]) r).
Proof.
  unfold SkillsRegistry.get, SkillsRegistry.isSkillLoaded,
    SkillsRegistry.loadSkill, bind, get_state, modify, ret, set_add.
  intros -> H. rewrite H. simpl. now rewrite H.
Qed.

Lemma isSkillLoaded_after_add (name : string) (r : SkillsRegistry.t) :
  SkillsRegistry.isSkillLoaded
    (SkillsRegistry.set_loadedSkills (SkillsRegistry.loadedSkills r ++ [name]) r)
    name = true.
Proof.
  unfold SkillsRegistry.isSkillLoaded, set_has. simpl.
  apply includes_In, in_app_iff. right. now left.
Qed.

(** C3: [loadSkill(name)] never throws; it returns the absent result exactly
    when [name] is not registered or already in the loaded set, and then
    leaves the registry as it was; otherwise it returns all the tools of the
    skill and adds [name] to the loaded set.  Of two consecutive calls for
    one name the second always returns the absent result and changes
    nothing, so the loaded set keeps its size, and the first returns tools
    exactly when the name is registered and not yet loaded. *)
Theorem C3_loadSkill_absent_or_marks_loaded :
  forall (r : SkillsRegistry.t) (name : string),
    let first := SkillsRegistry.loadSkill name r in
    let second := SkillsRegistry.loadSkill name (snd first) in
    (fst first = Return None
     <-> (~ registered r name \/ In name (SkillsRegistry.loadedSkills r)))
    /\ (fst first = Return None -> snd first = r)
    /\ (forall skill,
          SkillsRegistry.get r name = Some skill ->
          ~ In name (SkillsRegistry.loadedSkills r) ->
          fst first = Return (Some (Skill.tools skill))
          /\ SkillsRegistry.loadedSkills (snd first)
             = SkillsRegistry.loadedSkills r ++ [name]
          /\ SkillsRegistry.skills (snd first) = SkillsRegistry.skills r
          /\ SkillsRegistry.initialized (snd first) = SkillsRegistry.initialized r)
    /\ fst second = Return None
    /\ snd second = snd first
    /\ List.length (SkillsRegistry.loadedSkills (snd second))
       = List.length (SkillsRegistry.loadedSkills (snd first)).
Proof.
  intros r name first second.
  assert (Hcases :
    (SkillsRegistry.get r name = None /\ first = (Return None, r))
    \/ (SkillsRegistry.isSkillLoaded r name = true /\ first = (Return None, r))
    \/ (exists skill, SkillsRegistry.get r name = Some skill
                      /\ SkillsRegistry.isSkillLoaded r name = false
                      /\ first = (Return (Some (Skill.tools skill)),
                                  SkillsRegistry.set_loadedSkills
                                    (SkillsRegistry.loadedSkills r ++ [name]) r))).
  { destruct (SkillsRegistry.get r name) as [skill |] eqn:G.
    - destruct (SkillsRegistry.isSkillLoaded r name) eqn:L.
      + right; left. split; [reflexivity | now apply loadSkill_loaded].
      + right; right. exists skill. repeat split; try reflexivity.
        now apply loadSkill_fresh.
    - left. split; [reflexivity | now apply loadSkill_unknown]. }
  assert (Hsecond : second = (Return None, snd first)).
  { subst second.
    destruct Hcases as [[G E] | [[L E] | (skill & G & L & E)]]; rewrite E; simpl.
    - now apply loadSkill_unknown.
    - now apply loadSkill_loaded.
    - apply loadSkill_loaded, isSkillLoaded_after_add. }
  unfold registered, SkillsRegistry.getNames.
  split; [| split; [| split]].
  - split.
    + intros Hnone.
      destruct Hcases as [[G E] | [[L E] | (skill & G & L & E)]].
      * left. now apply map_get_None.
      * right. now apply includes_In.
      * rewrite E in Hnone. discriminate.
    + destruct Hcases as [[G E] | [[L E] | (skill & G & L & E)]];
        try (rewrite E; reflexivity).
      intros [Hun | Hld].
      * apply map_get_None in Hun. unfold SkillsRegistry.get in G. congruence.
      * apply includes_In in Hld.
        unfold SkillsRegistry.isSkillLoaded, set_has in L. congruence.
  - destruct Hcases as [[G E] | [[L E] | (skill & G & L & E)]];
      rewrite E; try reflexivity. discriminate.
  - intros skill G Hfresh. apply includes_not_In in Hfresh.
    unfold first. rewrite (loadSkill_fresh name r G Hfresh). simpl. auto.
  - rewrite Hsecond. auto.
Qed.

Lemma C3_loadSkill_witness :
  fst (SkillsRegistry.loadSkill "weather" (Orchestrator.registry Scenario.ready))
  = Return (Some (Skill.tools WeatherSkill))
  /\ SkillsRegistry.loadedSkills
       (snd (SkillsRegistry.loadSkill "weather"
               (Orchestrator.registry Scenario.ready)))
     = ["weather"].
Proof.
  destruct (C3_loadSkill_absent_or_marks_loaded
              (Orchestrator.registry Scenario.ready) "weather")
    as (_ & _ & H & _).
  destruct (H WeatherSkill) as (H1 & H2 & _).
  - reflexivity.
  - simpl. tauto.
  - split; [exact H1 | exact H2].
Defined.

(** ** The invariant *)

Lemma registry_invariant_new : registry_invariant SkillsRegistry.new.
Proof. split; intros x []. Qed.

Lemma register_effect (skill : Skill.t) (r : SkillsRegistry.t) :
  let r' := snd (SkillsRegistry.register skill r) in
  SkillsRegistry.initialized r' = SkillsRegistry.initialized r
  /\ SkillsRegistry.loadedSkills r' = SkillsRegistry.loadedSkills r
  /\ incl (SkillsRegistry.getNames r) (SkillsRegistry.getNames r').
Proof.
  simpl. repeat split. intros k Hk.
  unfold SkillsRegistry.getNames. simpl. apply map_set_keys. now left.
Qed.

Lemma registerAll_effect (skills : list Skill.t) (r : SkillsRegistry.t) :
  let r' := snd (SkillsRegistry.registerAll skills r) in
  SkillsRegistry.initialized r' = SkillsRegistry.initialized r
  /\ SkillsRegistry.loadedSkills r' = SkillsRegistry.loadedSkills r
  /\ incl (SkillsRegistry.getNames r) (SkillsRegistry.getNames r').
Proof.
  unfold SkillsRegistry.registerAll.
  apply (for_of_preserves
           (fun s => SkillsRegistry.initialized s = SkillsRegistry.initialized r
                     /\ SkillsRegistry.loadedSkills s = SkillsRegistry.loadedSkills r
                     /\ incl (SkillsRegistry.getNames r) (SkillsRegistry.getNames s))).
  - intros skill s _ (Hi & Hl & Hk).
    destruct (register_effect skill s) as (Hi' & Hl' & Hk').
    repeat split; try congruence. eapply incl_tran; eassumption.
  - repeat split. apply incl_refl.
Qed.

Lemma loadSkill_effect (name : string) (r : SkillsRegistry.t) :
  let r' := snd (SkillsRegistry.loadSkill name r) in
  SkillsRegistry.skills r' = SkillsRegistry.skills r
  /\ SkillsRegistry.initialized r' = SkillsRegistry.initialized r
  /\ (forall x, In x (SkillsRegistry.loadedSkills r') ->
                In x (SkillsRegistry.loadedSkills r)
                \/ (x = name /\ registered r name)).
Proof.
  unfold SkillsRegistry.loadSkill, bind, get_state, modify, ret, registered,
    SkillsRegistry.getNames.
  destruct (map_get (SkillsRegistry.skills r) name) as [skill |] eqn:G; simpl.
  - destruct (set_has (SkillsRegistry.loadedSkills r) name); simpl.
    + auto.
    + repeat split. intros x Hx. apply set_add_In in Hx.
      destruct Hx as [Hx | ->]; [now left | right]. split; [reflexivity |].
      apply map_get_keys. eauto.
  - auto.
Qed.

Lemma initializeSkill_effect (name : string) (r : SkillsRegistry.t) :
  let r' := snd (SkillsRegistry.initializeSkill name r) in
  SkillsRegistry.skills r' = SkillsRegistry.skills r
  /\ SkillsRegistry.loadedSkills r' = SkillsRegistry.loadedSkills r
  /\ (forall x, In x (SkillsRegistry.initialized r') ->
                In x (SkillsRegistry.initialized r)
                \/ (x = name /\ registered r name)).
Proof.
  unfold SkillsRegistry.initializeSkill, bind, get_state, modify, ret, throw,
    await, registered, SkillsRegistry.getNames.
  destruct (map_get (SkillsRegistry.skills r) name) as [skill |] eqn:G; simpl.
  - destruct (set_has (SkillsRegistry.initialized r) name); simpl; [auto |].
    assert (Hadd : forall x,
               In x (set_add (SkillsRegistry.initialized r) name) ->
               In x (SkillsRegistry.initialized r)
               \/ x = name /\ In name (map_keys (SkillsRegistry.skills r))).
    { intros x Hx. apply set_add_In in Hx.
      destruct Hx as [Hx | ->]; [now left | right]. split; [reflexivity |].
      apply map_get_keys. eauto. }
    destruct (Skill.initialize skill) as [hook |]; simpl.
    + destruct (hook tt) as [[] | e]; simpl; auto.
    + auto.
  - auto.
Qed.

Lemma initializeAll_effect (r : SkillsRegistry.t) :
  let r' := snd (SkillsRegistry.initializeAll r) in
  SkillsRegistry.skills r' = SkillsRegistry.skills r
  /\ SkillsRegistry.loadedSkills r' = SkillsRegistry.loadedSkills r
  /\ (forall x, In x (SkillsRegistry.initialized r') ->
                In x (SkillsRegistry.initialized r) \/ registered r x).
Proof.
  unfold SkillsRegistry.initializeAll, bind, get_state.
  apply (for_of_preserves
           (fun s => SkillsRegistry.skills s = SkillsRegistry.skills r
                     /\ SkillsRegistry.loadedSkills s = SkillsRegistry.loadedSkills r
                     /\ (forall x, In x (SkillsRegistry.initialized s) ->
                                   In x (SkillsRegistry.initialized r)
                                   \/ registered r x))).
  - intros name s _ (Hs & Hl & Hi).
    destruct (initializeSkill_effect name s) as (Hs' & Hl' & Hi').
    repeat split; try congruence.
    intros x Hx. destruct (Hi' x Hx) as [H | [-> H]]; [now apply Hi | right].
    unfold registered, SkillsRegistry.getNames in *. now rewrite <- Hs.
  - repeat split. now left.
Qed.

(** ** The lists stay free of repetitions *)

Lemma register_well_formed (skill : Skill.t) (r : SkillsRegistry.t) :
  well_formed r -> well_formed (snd (SkillsRegistry.register skill r)).
Proof.
  intros (Hk & Hi & Hl). repeat split; try assumption.
  unfold SkillsRegistry.getNames. simpl. now apply map_set_NoDup.
Qed.

Lemma loadSkill_well_formed (name : string) (r : SkillsRegistry.t) :
  well_formed r -> well_formed (snd (SkillsRegistry.loadSkill name r)).
Proof.
  intros (Hk & Hi & Hl).
  unfold SkillsRegistry.loadSkill, bind, get_state, modify, ret.
  destruct (map_get (SkillsRegistry.skills r) name); simpl;
    [| repeat split; assumption].
  destruct (set_has (SkillsRegistry.loadedSkills r) name); simpl;
    repeat split; try assumption.
  now apply set_add_NoDup.
Qed.

Lemma initializeSkill_well_formed (name : string) (r : SkillsRegistry.t) :
  well_formed r -> well_formed (snd (SkillsRegistry.initializeSkill name r)).
Proof.
  intros (Hk & Hi & Hl).
  unfold SkillsRegistry.initializeSkill, bind, get_state, modify, ret, throw,
    await.
  destruct (map_get (SkillsRegistry.skills r) name) as [skill |]; simpl;
    [| repeat split; assumption].
  destruct (set_has (SkillsRegistry.initialized r) name); simpl;
    [repeat split; assumption |].
  assert (Hadd : well_formed
                   (SkillsRegistry.set_initialized
                      (set_add (SkillsRegistry.initialized r) name) r)).
  { repeat split; try assumption. simpl. now apply set_add_NoDup. }
  destruct (Skill.initialize skill) as [hook |]; simpl; [| exact Hadd].
  destruct (hook tt) as [[] | e]; simpl; [exact Hadd |].
  repeat split; assumption.
Qed.

Lemma perform_well_formed (op : RegistryOp) (r : SkillsRegistry.t) :
  well_formed r -> well_formed (perform op r).
Proof.
  intros H. destruct op as [skill | skills | name | name | |]; cbn [perform].
  - now apply register_well_formed.
  - unfold SkillsRegistry.registerAll.
    apply (for_of_preserves well_formed); [| exact H].
    intros skill s _. apply register_well_formed.
  - now apply loadSkill_well_formed.
  - now apply initializeSkill_well_formed.
  - unfold SkillsRegistry.initializeAll, bind, get_state.
    apply (for_of_preserves well_formed); [| exact H].
    intros name s _. apply initializeSkill_well_formed.
  - destruct H as (Hk & Hi & _). repeat split; try assumption. constructor.
Qed.

(** C8: the empty registry satisfies [initialized ⊆ registered] and
    [loadedSkills ⊆ registered], and each of [register], [registerAll],
    [loadSkill], [initializeSkill], [initializeAll] and [resetLoadedSkills]
    keeps it, whether the operation returns or throws; no operation removes
    a registered name, and a name enters [initialized] or [loadedSkills]
    only if it is registered. *)
Theorem C8_registry_invariant_preserved :
  registry_invariant SkillsRegistry.new
  /\ forall (op : RegistryOp) (r : SkillsRegistry.t),
       registry_invariant r ->
       registry_invariant (perform op r)
       /\ (forall name, registered r name -> registered (perform op r) name)
       /\ (forall name,
             In name (SkillsRegistry.initialized (perform op r)) ->
             ~ In name (SkillsRegistry.initialized r) -> registered r name)
       /\ (forall name,
             In name (SkillsRegistry.loadedSkills (perform op r)) ->
             ~ In name (SkillsRegistry.loadedSkills r) -> registered r name).
Proof.
  split; [exact registry_invariant_new |].
  intros op r [Hinit Hload]. unfold registry_invariant, registered.
  destruct op as [skill | skills | name | name | |]; cbn [perform].
  - destruct (register_effect skill r) as (Hi & Hl & Hk).
    rewrite Hi, Hl. repeat split; try tauto; eauto using incl_tran.
  - destruct (registerAll_effect skills r) as (Hi & Hl & Hk).
    rewrite Hi, Hl. repeat split; try tauto; eauto using incl_tran.
  - destruct (loadSkill_effect name r) as (Hs & Hi & Hl).
    unfold SkillsRegistry.getNames. rewrite Hs, Hi. repeat split; try tauto.
    + intros x Hx. destruct (Hl x Hx) as [H | [-> H]]; [now apply Hload | exact H].
    + intros x Hx Hnew. destruct (Hl x Hx) as [H | [-> H]]; [contradiction | exact H].
  - destruct (initializeSkill_effect name r) as (Hs & Hl & Hi).
    unfold SkillsRegistry.getNames. rewrite Hs, Hl. repeat split; try tauto.
    + intros x Hx. destruct (Hi x Hx) as [H | [-> H]]; [now apply Hinit | exact H].
    + intros x Hx Hnew. destruct (Hi x Hx) as [H | [-> H]]; [contradiction | exact H].
  - destruct (initializeAll_effect r) as (Hs & Hl & Hi).
    unfold SkillsRegistry.getNames. rewrite Hs, Hl. repeat split; try tauto.
    + intros x Hx. destruct (Hi x Hx) as [H | H]; [now apply Hinit | exact H].
    + intros x Hx Hnew. destruct (Hi x Hx) as [H | H]; [contradiction | exact H].
  - simpl. repeat split; try tauto; intros x [].
Qed.

Lemma C8_registry_invariant_witness :
  registry_invariant
    (perform (OpLoadSkill "weather") (Orchestrator.registry Scenario.ready)).
Proof.
  destruct C8_registry_invariant_preserved as [_ H].
  apply (H (OpLoadSkill "weather") (Orchestrator.registry Scenario.ready)).
  split; intros x Hx; vm_compute in Hx |- *; tauto.
Defined.

(* ===================================================================== *)
(** * The conversational agent: the merge of [buildExecutor] *)
(* ===================================================================== *)

Lemma tool_names_app (xs ys : list Tool) :
  tool_names (xs ++ ys) = tool_names xs ++ tool_names ys.
Proof. apply map_app. Qed.

Lemma filter_none {A} (f : A -> bool) (l : list A) :
  (forall x, In x l -> f x = false) -> filter f l = [].
Proof.
  induction l as [| x l IH]; intros H; simpl; [reflexivity |].
  rewrite (H x (or_introl eq_refl)). apply IH. intros y Hy. apply H. now right.
Qed.

Lemma NoDup_names_filter (f : Tool -> bool) (l : list Tool) :
  NoDup (tool_names l) -> NoDup (tool_names (filter f l)).
Proof.
  induction l as [| x l IH]; simpl; intros H; [constructor |].
  inversion H as [| ? ? Hx Hl]; subst.
  destruct (f x); simpl; [| now apply IH].
  constructor; [| now apply IH].
  intros Hin. apply Hx. unfold tool_names in *.
  apply in_map_iff in Hin. destruct Hin as (t & E & Ht).
  apply filter_In in Ht. apply in_map_iff. exists t. tauto.
Qed.

(** The incoming tools that are kept are those whose name the current set
    does not have. *)
Lemma merge_keeps_unseen_names (current newTools : list Tool) :
  MainAgent.merge current newTools
  = current
    ++ filter (fun tool =>
                 negb (includes (tool_names current)
                                (DynamicStructuredTool.name tool)))
              newTools.
Proof.
  unfold MainAgent.merge. f_equal. apply filter_ext_in. intros t Ht. f_equal.
  fold (tool_names current). fold (tool_names newTools).
  destruct (includes (tool_names current) (DynamicStructuredTool.name t)) eqn:E.
  - apply includes_In, filter_In. split; [| exact E].
    unfold tool_names. now apply in_map.
  - apply includes_not_In. intros H. apply filter_In in H. destruct H as [_ H].
    congruence.
Qed.

(** The current tools stay in front, in their order. *)
Lemma merge_prefix (current newTools : list Tool) :
  firstn (List.length current) (MainAgent.merge current newTools) = current.
Proof.
  unfold MainAgent.merge.
  rewrite firstn_app, Nat.sub_diag, firstn_all. simpl. apply app_nil_r.
Qed.

Lemma merge_nil (current : list Tool) : MainAgent.merge current [] = current.
Proof. unfold MainAgent.merge. simpl. apply app_nil_r. Qed.

Lemma merge_names (current newTools : list Tool) (name : string) :
  In name (tool_names (MainAgent.merge current newTools))
  <-> In name (tool_names current) \/ In name (tool_names newTools).
Proof.
  rewrite merge_keeps_unseen_names, tool_names_app, in_app_iff.
  unfold tool_names. split.
  - intros [H | H]; [now left | right].
    apply in_map_iff in H. destruct H as (t & E & Ht).
    apply filter_In in Ht. apply in_map_iff. exists t. tauto.
  - intros [H | H]; [now left |].
    destruct (includes (List.map DynamicStructuredTool.name current) name) eqn:I.
    + left. now apply includes_In.
    + right. apply in_map_iff in H. destruct H as (t & E & Ht).
      apply in_map_iff. exists t. split; [exact E |].
      apply filter_In. split; [exact Ht |]. rewrite E, I. reflexivity.
Qed.

(** Merging the same tools again adds nothing. *)
Lemma merge_idempotent (current newTools : list Tool) :
  MainAgent.merge (MainAgent.merge current newTools) newTools
  = MainAgent.merge current newTools.
Proof.
  rewrite (merge_keeps_unseen_names (MainAgent.merge current newTools)).
  rewrite filter_none; [apply app_nil_r |].
  intros t Ht. apply negb_false_iff, includes_In, merge_names. right.
  unfold tool_names. now apply in_map.
Qed.

(** No name occurs twice as long as none does in the current set and none
    does within the incoming tools. *)
Lemma merge_NoDup (current newTools : list Tool) :
  NoDup (tool_names current) -> NoDup (tool_names newTools) ->
  NoDup (tool_names (MainAgent.merge current newTools)).
Proof.
  intros Hc Hn. rewrite merge_keeps_unseen_names, tool_names_app.
  apply NoDup_app; [exact Hc | now apply NoDup_names_filter |].
  intros name Hin Hin'. unfold tool_names in Hin'.
  apply in_map_iff in Hin'. destruct Hin' as (t & E & Ht).
  apply filter_In in Ht. destruct Ht as [_ Ht].
  apply negb_true_iff, includes_not_In in Ht. rewrite E in Ht. contradiction.
Qed.

Lemma find_in_front {A} (f : A -> bool) (l l' : list A) (x : A) :
  find f l = Some x -> find f (l ++ l') = Some x.
Proof.
  induction l as [| y l IH]; simpl; [discriminate |].
  destruct (f y); [trivial | exact IH].
Qed.

(** First seen wins: a tool of the current set is still the first one of its
    name. *)
Lemma merge_first_seen_wins (current newTools : list Tool) (name : string)
      (tool : Tool) :
  find (fun t => String.eqb (DynamicStructuredTool.name t) name) current
  = Some tool ->
  find (fun t => String.eqb (DynamicStructuredTool.name t) name)
       (MainAgent.merge current newTools)
  = Some tool.
Proof.
  unfold MainAgent.merge. apply find_in_front.
Qed.

(** The state [buildExecutor] leaves. *)
Lemma buildExecutor_state (newTools : option (list Tool)) (a : MainAgent.t) :
  let ts := MainAgent.merge (MainAgent.tools a)
                            (match newTools with Some l => l | None => [] end) in
  let m := match MainAgent.model a with Some m => m | None => ChatModel end in
  MainAgent.buildExecutor newTools a
  = (Return tt,
     {| MainAgent.agent := Some (mkAgent m ts (MainAgent.created a));
        MainAgent.model := Some m;
        MainAgent.chatHistory := MainAgent.chatHistory a;
        MainAgent.tools := ts;
        MainAgent.created := S (MainAgent.created a) |}).
Proof.
  destruct a as [ag mo h ts n].
  unfold MainAgent.buildExecutor, MainAgent.getModel, MainAgent.createAgent,
    bind, get_state, modify, ret.
  destruct newTools as [[| t l] |]; simpl; rewrite ?merge_nil;
    destruct mo; reflexivity.
Qed.

(** Calling [buildExecutor] again with the same tools leaves the tool set as
    the first call made it. *)
Lemma buildExecutor_again (newTools : option (list Tool)) (a : MainAgent.t) :
  let a1 := snd (MainAgent.buildExecutor newTools a) in
  let a2 := snd (MainAgent.buildExecutor newTools a1) in
  MainAgent.tools a2 = MainAgent.tools a1
  /\ firstn (List.length (MainAgent.tools a)) (MainAgent.tools a1)
     = MainAgent.tools a.
Proof.
  simpl. rewrite !buildExecutor_state. simpl. split.
  - apply merge_idempotent.
  - apply merge_prefix.
Qed.

(** C9: every call of [buildExecutor] returns normally and installs an
    executable agent newly made from the tool set the call leaves, also when
    [newTools] is left out or empty; in that case the stored tool set is the
    one from before the call.  The history is never touched. *)
Theorem C9_buildExecutor_rebuilds_on_every_call :
  forall (newTools : option (list Tool)) (a : MainAgent.t),
    let a' := snd (MainAgent.buildExecutor newTools a) in
    fst (MainAgent.buildExecutor newTools a) = Return tt
    /\ (exists m,
          MainAgent.agent a'
          = Some (mkAgent m (MainAgent.tools a') (MainAgent.created a)))
    /\ MainAgent.created a' = S (MainAgent.created a)
    /\ ((forall old, MainAgent.agent a = Some old ->
                     serial old < MainAgent.created a) ->
        MainAgent.agent a' <> MainAgent.agent a)
    /\ MainAgent.chatHistory a' = MainAgent.chatHistory a
    /\ (newTools = None \/ newTools = Some [] ->
        MainAgent.tools a' = MainAgent.tools a).
Proof.
  intros newTools a a'. subst a'. rewrite buildExecutor_state. simpl.
  split; [reflexivity |]. split; [eauto |]. split; [reflexivity |].
  split; [| split; [reflexivity |]].
  - intros Hold E. symmetry in E. specialize (Hold _ E). simpl in Hold. lia.
  - intros [-> | ->]; apply merge_nil.
Qed.

Lemma C9_buildExecutor_witness :
  MainAgent.tools (snd (MainAgent.buildExecutor (Some []) Scenario.chatting))
  = MainAgent.tools Scenario.chatting
  /\ MainAgent.agent (snd (MainAgent.buildExecutor (Some []) Scenario.chatting))
     <> MainAgent.agent Scenario.chatting.
Proof.
  destruct (C9_buildExecutor_rebuilds_on_every_call (Some []) Scenario.chatting)
    as (_ & _ & _ & Hnew & _ & Hsame).
  split.
  - apply Hsame. right. reflexivity.
  - apply Hnew. intros old E. vm_compute in E. injection E as <-. simpl. lia.
Defined.

(** C2: on an agent without tools, [buildExecutor] given two tools of one
    name keeps both: the name occurs twice in the tool set.  Incoming tools
    are compared with the current set only, not with one another. *)
Theorem C2_buildExecutor_keeps_duplicates_within_newTools :
  let a := snd (MainAgent.initialize MainAgent.new) in
  let newTools := [Scenario.lookup_v1; Scenario.lookup_v2] in
  let a' := snd (MainAgent.buildExecutor (Some newTools) a) in
  MainAgent.tools a = []
  /\ MainAgent.tools a' = [Scenario.lookup_v1; Scenario.lookup_v2]
  /\ tool_names (MainAgent.tools a') = ["lookup"; "lookup"]
  /\ ~ NoDup (tool_names (MainAgent.tools a')).
Proof.
  repeat split. simpl. intros H. inversion H as [| ? ? Hin _]; subst.
  apply Hin. now left.
Qed.

(* ===================================================================== *)
(** * The conversational agent: one turn *)
(* ===================================================================== *)

Lemma at_index_last {A} (xs : list A) :
  at_index xs (Z.of_nat (List.length xs) - 1) = List.last (List.map Some xs) None.
Proof.
  unfold at_index. destruct xs as [| x xs]; [reflexivity |].
  replace (Z.of_nat (List.length (x :: xs)) - 1)%Z
    with (Z.of_nat (List.length xs)) by (simpl List.length; lia).
  destruct (Z.ltb_spec (Z.of_nat (List.length xs)) 0) as [H | _]; [lia |].
  rewrite Nat2Z.id. revert x.
  induction xs as [| y ys IH]; intros x; [reflexivity |].
  simpl List.length. simpl nth_error. rewrite IH. reflexivity.
Qed.

Section Turn.

Variable invoke : AgentOracle.

Lemma run_not_initialized (input : string) (a : MainAgent.t) :
  MainAgent.agent a = None ->
  MainAgent.run invoke input a = (Throw ErrAgentNotInitialized, a).
Proof.
  intros H. unfold MainAgent.run, bind, get_state, throw. now rewrite H.
Qed.

Lemma run_invocation_fails (input : string) (a : MainAgent.t)
      (executor : ReactAgent) (e : Error) :
  MainAgent.agent a = Some executor ->
  invoke executor (assembled a input) = Throw e ->
  MainAgent.run invoke input a = (Throw e, a).
Proof.
  intros H E. unfold MainAgent.run, bind, get_state, await. rewrite H.
  fold (assembled a input). now rewrite E.
Qed.

Lemma run_invocation_returns (input : string) (a : MainAgent.t)
      (executor : ReactAgent) (result : AgentState) :
  MainAgent.agent a = Some executor ->
  invoke executor (assembled a input) = Return result ->
  let output := MainAgent.extract_output (last_message result) in
  MainAgent.run invoke input a
  = (Return output,
     MainAgent.set_chatHistory
       (MainAgent.chatHistory a ++ [HumanMessage input; AIMessage output]) a).
Proof.
  intros H E. unfold MainAgent.run, bind, get_state, await. rewrite H.
  fold (assembled a input). rewrite E.
  unfold last_message. destruct result as [[ms |]]; simpl;
    rewrite ?at_index_last, <- ?app_assoc; reflexivity.
Qed.

(** A turn returns exactly when the agent exists and its invocation
    returns. *)
Lemma run_returns_inv (input : string) (a : MainAgent.t) (output : string) :
  fst (MainAgent.run invoke input a) = Return output ->
  exists executor result,
    MainAgent.agent a = Some executor
    /\ invoke executor (assembled a input) = Return result.
Proof.
  intros H. destruct (MainAgent.agent a) as [executor |] eqn:Ha.
  - destruct (invoke executor (assembled a input)) as [result | e] eqn:E.
    + eauto.
    + erewrite run_invocation_fails in H by eassumption. discriminate.
  - erewrite run_not_initialized in H by eassumption. discriminate.
Qed.

End Turn.

Lemma block_without_text (block : JSON.value) :
  is_text_fragment block = false -> MainAgent.block_text block = "".
Proof.
  destruct block as [| b | n m e | s | l | members]; simpl; try reflexivity.
  - discriminate.
  - destruct (JSON.member members "text") as [[| | | | |] |];
      try reflexivity; discriminate.
Qed.

Lemma blocks_without_text (blocks : list JSON.value) :
  no_text_fragment blocks ->
  String.concat "" (List.map MainAgent.block_text blocks) = "".
Proof.
  induction blocks as [| b bs IH]; intros H; [reflexivity |].
  assert (Hb : MainAgent.block_text b = "")
    by (apply block_without_text, H; now left).
  assert (Hbs : String.concat "" (List.map MainAgent.block_text bs) = "")
    by (apply IH; intros x Hx; apply H; now right).
  simpl. rewrite Hb. destruct (List.map MainAgent.block_text bs); [reflexivity |].
  simpl in *. exact Hbs.
Qed.

Lemma extract_output_no_text (lastMessage : option BaseMessage) :
  finds_no_text lastMessage -> MainAgent.extract_output lastMessage = "".
Proof.
  destruct lastMessage as [[k [s | blocks]] |]; simpl; try tauto.
  intros [Hk | Hb]; destruct k; try reflexivity; try congruence.
  now apply blocks_without_text.
Qed.

(** C6: [run] touches the history only once the invocation of the agent has
    returned.  The agent is invoked on the system prompt, the history as it
    stands and the new user message; if that invocation fails, [run] fails
    with the same error and leaves the whole agent, its history included, as
    it was; if it returns, the user message and then the assistant message
    holding the output are appended, and the output is returned. *)
Theorem C6_run_history_untouched_on_failure :
  forall (invoke : AgentOracle) (input : string) (a : MainAgent.t)
         (executor : ReactAgent),
    MainAgent.agent a = Some executor ->
    (forall e,
        invoke executor (assembled a input) = Throw e ->
        MainAgent.run invoke input a = (Throw e, a))
    /\ (forall result,
          invoke executor (assembled a input) = Return result ->
          exists output,
            MainAgent.run invoke input a
            = (Return output,
               MainAgent.set_chatHistory
                 (MainAgent.chatHistory a
                  ++ [HumanMessage input; AIMessage output]) a)).
Proof.
  intros invoke input a executor Ha. split.
  - intros e E. now apply run_invocation_fails with executor.
  - intros result E. exists (MainAgent.extract_output (last_message result)).
    eapply run_invocation_returns; eassumption.
Qed.

Lemma C6_run_witness :
  MainAgent.run Scenario.agent_down "and now?" Scenario.chatting
  = (Throw (ErrExternal "rate limited"), Scenario.chatting).
Proof.
  destruct (C6_run_history_untouched_on_failure Scenario.agent_down "and now?"
              Scenario.chatting
              (executor := mkAgent ChatModel [] 0) eq_refl) as [H _].
  apply H. reflexivity.
Defined.

(** C10, as stated, fails: a run of the agent that ends on the result of a
    tool ends on a message that is not an assistant message, and [run]
    returns the text of that message, not the empty string. *)
Lemma C10_counterexample_last_message_of_a_tool :
  last_message
    (mkState (Some (assembled Scenario.chatting "compute"
                    ++ [Scenario.tool_result])))
  = Some Scenario.tool_result
  /\ finds_no_text_as_stated Scenario.tool_result
  /\ fst (MainAgent.run Scenario.ends_on_tool_result "compute" Scenario.chatting)
     = Return "42"
  /\ fst (MainAgent.run Scenario.ends_on_tool_result "compute" Scenario.chatting)
     <> Return "".
Proof.
  repeat split.
  - left. discriminate.
  - discriminate.
Qed.

(** C10, amended: every call of [run] that returns has appended exactly two
    messages to the history, the user input and then the assistant message
    holding the returned output, and changed nothing else.  The output is
    the empty string whenever extraction finds no text: when the result has
    no last message, or when the content of the last message is not a string
    and that message either is not an assistant message or holds no text
    fragment. *)
Theorem C10_run_appends_user_then_assistant :
  forall (invoke : AgentOracle) (input : string) (a : MainAgent.t)
         (output : string),
    fst (MainAgent.run invoke input a) = Return output ->
    snd (MainAgent.run invoke input a)
    = MainAgent.set_chatHistory
        (MainAgent.chatHistory a ++ [HumanMessage input; AIMessage output]) a
    /\ List.length (MainAgent.chatHistory (snd (MainAgent.run invoke input a)))
       = List.length (MainAgent.chatHistory a) + 2
    /\ exists executor result,
         MainAgent.agent a = Some executor
         /\ invoke executor (assembled a input) = Return result
         /\ output = MainAgent.extract_output (last_message result)
         /\ (finds_no_text (last_message result) -> output = "").
Proof.
  intros invoke input a output H.
  destruct (@run_returns_inv invoke input a output H)
    as (executor & result & Ha & E).
  pose proof (@run_invocation_returns invoke input a executor result Ha E) as R.
  simpl in R.
  rewrite R in H |- *. simpl in H |- *. injection H as <-.
  split; [reflexivity |]. split.
  - rewrite length_app. reflexivity.
  - exists executor, result. repeat split; try assumption.
    apply extract_output_no_text.
Qed.

Lemma C10_run_witness :
  snd (MainAgent.run (Scenario.answer "Sunny.") "weather?" Scenario.chatting)
  = MainAgent.set_chatHistory
      (MainAgent.chatHistory Scenario.chatting
       ++ [HumanMessage "weather?"; AIMessage "Sunny."]) Scenario.chatting.
Proof.
  apply (C10_run_appends_user_then_assistant
           (Scenario.answer "Sunny.") "weather?" Scenario.chatting
           (output := "Sunny.")).
  reflexivity.
Defined.

(* ===================================================================== *)
(** * The orchestrator: session operations *)
(* ===================================================================== *)

Lemma initialize_outcome (o : Orchestrator.t) :
  match fst (Orchestrator.initialize o) with
  | Return _ => is_initialized (snd (Orchestrator.initialize o))
  | Throw _ =>
      Orchestrator.toolAgent (snd (Orchestrator.initialize o))
      = Orchestrator.toolAgent o
      /\ Orchestrator.chatAgent (snd (Orchestrator.initialize o))
         = Orchestrator.chatAgent o
  end.
Proof.
  unfold Orchestrator.initialize, Orchestrator.on_registry, zoom, bind,
    get_state, modify, throw.
  destruct (SkillsRegistry.initializeAll (Orchestrator.registry o))
    as [[[] | e] r']; simpl; [| auto].
  destruct (List.length (SkillsRegistry.getNames r') =? 0)%nat; simpl; [auto |].
  unfold is_initialized. simpl. eauto.
Qed.

(** What [clearHistory] does once the conversational agent exists. *)
Lemma clearHistory_effect (o : Orchestrator.t) (a : MainAgent.t) :
  Orchestrator.chatAgent o = Some a ->
  exists a',
    Orchestrator.clearHistory o
    = (Return tt,
       {| Orchestrator.toolAgent := Orchestrator.toolAgent o;
          Orchestrator.chatAgent := Some a';
          Orchestrator.tools := [];
          Orchestrator.registry :=
            SkillsRegistry.set_loadedSkills [] (Orchestrator.registry o) |})
    /\ MainAgent.chatHistory a' = []
    /\ MainAgent.tools a' = MainAgent.tools a
    /\ option_map agent_tools (MainAgent.agent a') = Some (MainAgent.tools a).
Proof.
  destruct o as [ta ca ts r], a as [ag mo h ats n]. simpl. intros ->.
  unfold Orchestrator.clearHistory, Orchestrator.on_chatAgent,
    Orchestrator.on_registry, MainAgent.buildExecutor, MainAgent.getModel,
    MainAgent.createAgent, MainAgent.clearHistory, zoom, bind, get_state,
    modify, ret.
  destruct mo; simpl; eexists; repeat split.
Qed.

(** C1: on an orchestrator that was initialized and has loaded the weather
    skill in one turn, [clearHistory()] returns normally, empties the
    history, the tool accumulator of the orchestrator and the loaded set of
    the registry, so that [getLoadedSkills()] is empty, but the tool set of
    the conversational agent still holds the two weather tools:
    [buildExecutor([])] skips its merge and never shrinks the tool set. *)
Theorem C1_clearHistory_leaves_agent_tool_set :
  let o := Scenario.after_weather_turn in
  let o' := snd (Orchestrator.clearHistory o) in
  is_initialized o
  /\ Orchestrator.getLoadedSkills o = ["weather"]
  /\ fst (Orchestrator.clearHistory o) = Return tt
  /\ history_length o' = Some 0
  /\ Orchestrator.tools o' = []
  /\ Orchestrator.getLoadedSkills o' = []
  /\ agent_tool_names o' = Some ["get_weather"; "get_forecast"].
Proof.
  vm_compute. repeat split. eauto.
Qed.

(** Two skills with a tool of the same name: asked for in two turns, the
    tool of the skill loaded first is kept and the other one dropped; asked
    for in one turn, both tools end up in the tool set. *)
Lemma overlapping_skills_in_two_turns :
  let o1 := snd (Orchestrator.run (Scenario.route_to ["alpha"])
                   (Scenario.answer "ok") "first" Scenario.overlapping) in
  let o2 := snd (Orchestrator.run (Scenario.route_to ["beta"])
                   (Scenario.answer "ok") "second" o1) in
  option_map MainAgent.tools (Orchestrator.chatAgent o2)
  = Some [Scenario.lookup_v1; BaseSkill.createTool "other" "another tool"].
Proof. reflexivity. Qed.

Lemma overlapping_skills_in_one_turn :
  let o1 := snd (Orchestrator.run (Scenario.route_to ["alpha"; "beta"])
                   (Scenario.answer "ok") "both" Scenario.overlapping) in
  Orchestrator.getLoadedSkills o1 = ["alpha"; "beta"]
  /\ agent_tool_names o1 = Some ["lookup"; "lookup"; "other"].
Proof. split; reflexivity. Qed.

(** C7, as stated, fails for [clearHistory]: on an orchestrator that was
    never initialized it returns normally and changes nothing. *)
Lemma C7_counterexample_clearHistory_before_initialize :
  Orchestrator.toolAgent Orchestrator.new = None
  /\ Orchestrator.chatAgent Orchestrator.new = None
  /\ Orchestrator.clearHistory Orchestrator.new = (Return tt, Orchestrator.new)
  /\ fst (Orchestrator.clearHistory Orchestrator.new)
     <> Throw ErrOrchestratorNotInitialized.
Proof. repeat split. discriminate. Qed.

(** C7, amended: as long as the router or the conversational agent has not
    been set up by [initialize], [run] fails with the error 'Orchestrator
    not initialized. Call initialize() first.' and changes nothing; as long
    as the conversational agent has not been set up, [clearHistory] returns
    normally and changes nothing. *)
Theorem C7_run_requires_initialize :
  forall (route : RouterOracle) (invoke : AgentOracle) (input : string)
         (o : Orchestrator.t),
    (Orchestrator.toolAgent o = None \/ Orchestrator.chatAgent o = None ->
     Orchestrator.run route invoke input o
     = (Throw ErrOrchestratorNotInitialized, o))
    /\ (Orchestrator.chatAgent o = None ->
        Orchestrator.clearHistory o = (Return tt, o)).
Proof.
  intros route invoke input o. split.
  - unfold Orchestrator.run, bind, get_state, throw.
    intros [H | H]; rewrite H; [reflexivity |].
    destruct (Orchestrator.toolAgent o); reflexivity.
  - unfold Orchestrator.clearHistory, bind, get_state, ret.
    intros H. now rewrite H.
Qed.

Lemma C7_run_witness :
  Orchestrator.run Scenario.route_weather (Scenario.answer "Sunny.") "hello"
                   Orchestrator.new
  = (Throw ErrOrchestratorNotInitialized, Orchestrator.new).
Proof.
  destruct (C7_run_requires_initialize Scenario.route_weather
              (Scenario.answer "Sunny.") "hello" Orchestrator.new) as [H _].
  apply H. left. reflexivity.
Defined.

(* ===================================================================== *)
(** * [JSON.parse] on a text that opens with a brace *)
(* ===================================================================== *)

Lemma lex_default_extends (c : ascii) (out : list JSON.token)
      (m : JSON.mode) (out' : list JSON.token) :
  JSON.lex_default c out = Some (m, out') -> exists extra, out' = extra ++ out.
Proof.
  unfold JSON.lex_default. intros H.
  repeat match type of H with
         | (if ?b then _ else _) = _ => destruct b
         | match ?x with _ => _ end = _ => destruct x
         end;
    try discriminate; injection H as <- <-;
    solve [exists []; reflexivity | eexists [_]; reflexivity].
Qed.

Lemma lex_step_extends (m : JSON.mode) (c : ascii) (out : list JSON.token)
      (m' : JSON.mode) (out' : list JSON.token) :
  JSON.lex_step m c out = Some (m', out') -> exists extra, out' = extra ++ out.
Proof.
  destruct m as [| acc | acc | acc todo code | st a | expected tok]; simpl.
  - apply lex_default_extends.
  - intros H.
    repeat match type of H with
           | (if ?b then _ else _) = _ => destruct b
           end; try discriminate; injection H as <- <-;
      solve [exists []; reflexivity | eexists [_]; reflexivity].
  - destruct (JSON.lex_escape c acc); intros H; [| discriminate].
    injection H as <- <-. now exists [].
  - destruct (JSON.hex_digit c); [| discriminate].
    destruct todo as [| [| todo]]; intros H; try discriminate;
      injection H as <- <-; now exists [].
  - destruct (JSON.lex_number st a c) as [[st' a'] |].
    + intros H. injection H as <- <-. now exists [].
    + destruct (JSON.num_accepting st); [| discriminate].
      intros H. apply lex_default_extends in H. destruct H as (extra & ->).
      exists (extra ++ [JSON.num_token a]). now rewrite <- app_assoc.
  - destruct expected as [| e rest]; [discriminate |].
    destruct (Ascii.eqb c e); [| discriminate].
    destruct rest; intros H; injection H as <- <-;
      solve [exists []; reflexivity | eexists [_]; reflexivity].
Qed.

(** The tokens already produced stay in front. *)
Lemma lex_extends (cs : list ascii) (m : JSON.mode)
      (out ts : list JSON.token) :
  JSON.lex cs m out = Some ts -> exists ts', ts = rev out ++ ts'.
Proof.
  revert m out. induction cs as [| c cs IH]; simpl; intros m out H.
  - destruct m; try discriminate.
    + injection H as <-. exists []. now rewrite app_nil_r.
    + destruct (JSON.num_accepting st); [| discriminate].
      injection H as <-. simpl. eauto.
  - destruct (JSON.lex_step m c out) as [[m' out'] |] eqn:E; [| discriminate].
    apply lex_step_extends in E. destruct E as (extra & ->).
    apply IH in H. destruct H as (ts' & ->).
    rewrite rev_app_distr, <- app_assoc. eauto.
Qed.

Lemma outermost_nonempty (f : JSON.frame) (stack : list JSON.frame) :
  outermost (f :: stack) <> None.
Proof.
  revert f. induction stack as [| g stack IH]; intros f; [discriminate |].
  change (outermost (f :: g :: stack)) with (outermost (g :: stack)). apply IH.
Qed.

Lemma outermost_cons (f : JSON.frame) (stack : list JSON.frame) :
  outermost (f :: stack)
  = match outermost stack with Some g => Some g | None => Some f end.
Proof.
  destruct stack as [| g stack]; [reflexivity |].
  change (outermost (f :: g :: stack)) with (outermost (g :: stack)).
  destruct (outermost (g :: stack)) eqn:E; [reflexivity |].
  now apply outermost_nonempty in E.
Qed.

Lemma complete_reading_object (v : JSON.value) (stack : list JSON.frame) :
  (exists d k, outermost stack = Some (JSON.FObject d k)) ->
  reading_object (JSON.complete v stack).
Proof.
  intros (d & k & H). destruct stack as [| f stack]; [discriminate |].
  rewrite outermost_cons in H. unfold reading_object.
  destruct f; simpl; destruct (outermost stack) as [[| ] |];
    simpl; try exact I; congruence.
Qed.

Lemma start_value_reading_object (t : JSON.token) (stack : list JSON.frame)
      (st : JSON.pstate) :
  (exists d k, outermost stack = Some (JSON.FObject d k)) ->
  JSON.start_value t stack = Some st -> reading_object st.
Proof.
  intros Hs H.
  destruct t; simpl in H; try discriminate; injection H as <-;
    try (now apply complete_reading_object);
    destruct Hs as (d & k & Hs); unfold reading_object; simpl; now rewrite Hs.
Qed.

Lemma pstep_reading_object (st st' : JSON.pstate) (t : JSON.token) :
  reading_object st -> JSON.pstep st t = Some st' -> reading_object st'.
Proof.
  destruct st as [stack m]. unfold reading_object at 1. simpl fst. simpl snd.
  intros Hst H.
  destruct (outermost stack) as [[done | done key] |] eqn:O; [tauto | |].
  - (* inside an object that is still open *)
    assert (Hs : exists d k, outermost stack = Some (JSON.FObject d k)) by eauto.
    assert (Hpush : forall f, exists d k,
               outermost (f :: stack) = Some (JSON.FObject d k)).
    { intros f. rewrite outermost_cons, O. eauto. }
    destruct m; simpl in H; try tauto;
      try (now apply start_value_reading_object with t stack);
      destruct t; try discriminate;
      try (injection H as <-);
      try (now apply complete_reading_object);
      try (eapply start_value_reading_object; [apply Hpush | eassumption]);
      unfold reading_object; simpl fst; simpl snd;
      first [ rewrite O; exact I
            | match goal with
              | |- context [outermost (?f :: stack)] =>
                  destruct (Hpush f) as (? & ? & ->); exact I
              end ].
  - (* at top level *)
    destruct stack as [| f stack];
      [| rewrite outermost_cons in O; destruct (outermost stack); discriminate].
    destruct m; simpl in Hst; try tauto; simpl in H;
      destruct t; try discriminate; injection H as <-;
      unfold reading_object; simpl; exact I.
Qed.

Lemma pmachine_reading_object (ts : list JSON.token) (st : JSON.pstate)
      (v : JSON.value) :
  reading_object st -> JSON.pmachine ts st = Some v ->
  exists members, v = JSON.JObject members.
Proof.
  revert st. induction ts as [| t ts IH]; simpl; intros st Hst H.
  - destruct st as [stack m]. destruct m; try discriminate.
    injection H as <-. unfold reading_object in Hst. simpl in Hst.
    destruct (outermost stack) as [[|] |]; simpl in Hst; try tauto.
    destruct v0; try tauto. eauto.
  - destruct (JSON.pstep st t) as [st' |] eqn:E; [| discriminate].
    eapply IH; [| eassumption]. eapply pstep_reading_object; eassumption.
Qed.

(** A text that opens with a brace decodes to an object or not at all. *)
Lemma parse_brace_object (text : string) (v : JSON.value) :
  JSON.parse (String "{"%char text) = Some v ->
  exists members, v = JSON.JObject members.
Proof.
  unfold JSON.parse. simpl.
  destruct (JSON.lex (list_ascii_of_string text) JSON.MDefault [JSON.TLBrace])
    as [ts |] eqn:L; [| discriminate].
  apply lex_extends in L. destruct L as (ts' & ->). simpl.
  apply pmachine_reading_object. exact I.
Qed.

(** ** [JSON.parse] at work *)

Example parse_router_answer :
  JSON.parse ("{" ++ Str.quoted "skills" ++ ":[" ++ Str.quoted "weather"
              ++ "]," ++ Str.quoted "reasoning" ++ ":" ++ Str.quoted "x" ++ "}")
  = Some (JSON.JObject [("skills", JSON.JArray [JSON.JString "weather"]);
                        ("reasoning", JSON.JString "x")]).
Proof. reflexivity. Qed.

Example parse_white_space_and_numbers :
  JSON.parse (" { " ++ Str.quoted "n" ++ " : [ -12.50e+3 , 0 , 1E-2 ] } ")
  = Some (JSON.JObject
            [("n", JSON.JArray [JSON.JNumber true 1250 1;
                                JSON.JNumber false 0 0;
                                JSON.JNumber false 1 (-2)])]).
Proof. reflexivity. Qed.

Example parse_escapes :
  JSON.parse (Str.quoted "a\u0041\n\/")
  = Some (JSON.JString ("aA" ++ Str.newline ++ "/")).
Proof. reflexivity. Qed.

Example parse_rejects :
  List.map JSON.parse
    [ ""; "{"; "{}}"; "[1,]"; "[1 2]"; "01"; "1."; "-"; "tru"; "nul l";
      "{" ++ Str.quoted "a" ++ ":1,}"; "{" ++ Str.quoted "a" ++ " 1}";
      "{a:1}"; Str.quoted ("tab" ++ String "009"%char "") ]%string
  = repeat None 14.
Proof. reflexivity. Qed.

Example duplicate_member_last_wins :
  option_map (fun v => JSON.property v "a")
             (JSON.parse ("{" ++ Str.quoted "a" ++ ":1," ++ Str.quoted "a" ++ ":2}"))
  = Some (Return (Some (JSON.JNumber false 2 0))).
Proof. reflexivity. Qed.

Example falsy_values :
  List.map JSON.truthy
    [ JSON.JNull; JSON.JBool false; JSON.JString ""; JSON.JNumber true 0 0;
      JSON.JNumber false 1 (-400); JSON.JNumber false 1 (-300);
      JSON.JArray []; JSON.JObject []; JSON.JString "0" ]
  = [false; false; false; false; false; true; true; true; true].
Proof. vm_compute. reflexivity. Qed.

(* ===================================================================== *)
(** * The router: finding and decoding the answer *)
(* ===================================================================== *)

Lemma chars_app (s1 s2 : string) : chars (s1 ++ s2) = chars s1 ++ chars s2.
Proof.
  unfold chars. induction s1 as [| c s1 IH]; simpl; [reflexivity |].
  now rewrite IH.
Qed.

Lemma string_of_chars_app (l1 l2 : list ascii) :
  string_of_list_ascii (l1 ++ l2)
  = (string_of_list_ascii l1 ++ string_of_list_ascii l2)%string.
Proof. induction l1 as [| c l1 IH]; simpl; [reflexivity | now rewrite IH]. Qed.

(** Without a closing brace the tail of the pattern does not match. *)
Lemma match_tail_none (cs : list ascii) :
  ~ In "}"%char cs -> Str.match_tail cs = None.
Proof.
  induction cs as [| c cs IH]; simpl; intros H; [reflexivity |].
  rewrite IH by tauto. destruct (Ascii.eqb_spec c "}"%char); [| reflexivity].
  subst. tauto.
Qed.

Lemma match_tail_none_inv (cs : list ascii) :
  Str.match_tail cs = None -> ~ In "}"%char cs.
Proof.
  induction cs as [| c cs IH]; simpl; intros H; [tauto |].
  destruct (Str.match_tail cs); [discriminate |].
  intros [-> | Hin]; [discriminate | now apply IH].
Qed.

(** The tail of the pattern runs up to the last closing brace. *)
Lemma match_tail_last (mid post : list ascii) :
  ~ In "}"%char post ->
  Str.match_tail (mid ++ "}"%char :: post) = Some (mid ++ ["}"%char]).
Proof.
  intros H. induction mid as [| c mid IH]; simpl.
  - now rewrite match_tail_none.
  - now rewrite IH.
Qed.

Lemma match_tail_inv (cs m : list ascii) :
  Str.match_tail cs = Some m ->
  exists mid post,
    cs = mid ++ "}"%char :: post /\ ~ In "}"%char post
    /\ m = mid ++ ["}"%char].
Proof.
  revert m. induction cs as [| c cs IH]; simpl; intros m H; [discriminate |].
  destruct (Str.match_tail cs) as [m' |] eqn:E.
  - injection H as <-. destruct (IH m' eq_refl) as (mid & post & -> & Hp & ->).
    exists (c :: mid), post. auto.
  - destruct (Ascii.eqb_spec c "}"%char) as [-> | _]; [| discriminate].
    injection H as <-. exists [], cs. repeat split.
    now apply match_tail_none_inv.
Qed.

Lemma match_from_no_opening (cs : list ascii) :
  ~ In "{"%char cs -> Str.match_from cs = None.
Proof.
  induction cs as [| c cs IH]; simpl; intros H; [reflexivity |].
  destruct (Ascii.eqb_spec c "{"%char) as [-> | _]; [tauto |].
  apply IH. tauto.
Qed.

(** The match runs from the first opening brace to the last closing one. *)
Lemma match_from_first_to_last (pre mid post : list ascii) :
  ~ In "{"%char pre -> ~ In "}"%char post ->
  Str.match_from (pre ++ "{"%char :: mid ++ "}"%char :: post)
  = Some ("{"%char :: mid ++ ["}"%char]).
Proof.
  intros Hpre Hpost. induction pre as [| c pre IH]; simpl.
  - now rewrite match_tail_last.
  - destruct (Ascii.eqb_spec c "{"%char) as [-> | _]; [simpl in Hpre; tauto |].
    apply IH. simpl in Hpre. tauto.
Qed.

(** Every match is of that kind. *)
Lemma match_from_inv (cs m : list ascii) :
  Str.match_from cs = Some m ->
  exists pre mid post,
    cs = pre ++ "{"%char :: mid ++ "}"%char :: post
    /\ ~ In "{"%char pre /\ ~ In "}"%char post
    /\ m = "{"%char :: mid ++ ["}"%char].
Proof.
  induction cs as [| c cs IH]; simpl; intros H; [discriminate |].
  destruct (Ascii.eqb_spec c "{"%char) as [-> | Hc].
  - destruct (Str.match_tail cs) as [m' |] eqn:E.
    + injection H as <-.
      destruct (match_tail_inv _ E) as (mid & post & -> & Hp & ->).
      exists [], mid, post. auto.
    + (* no closing brace after this opening one *)
      exfalso. destruct (IH H) as (pre & mid & post & -> & _ & Hp & _).
      rewrite app_comm_cons, app_assoc in E.
      rewrite match_tail_last in E by assumption. discriminate.
  - destruct (IH H) as (pre & mid & post & -> & Hpre & Hp & ->).
    exists (c :: pre), mid, post. repeat split; auto.
    simpl. intros [E | Hin]; [now subst | auto].
Qed.

Lemma match_braces_no_opening (content : string) :
  ~ In "{"%char (chars content) -> Str.match_braces content = None.
Proof.
  intros H. unfold Str.match_braces. fold (chars content).
  now rewrite match_from_no_opening.
Qed.

Lemma match_braces_first_to_last (pre mid post : string) :
  ~ In "{"%char (chars pre) -> ~ In "}"%char (chars post) ->
  Str.match_braces (pre ++ "{" ++ mid ++ "}" ++ post)
  = Some ("{" ++ mid ++ "}")%string.
Proof.
  intros Hpre Hpost. unfold Str.match_braces.
  fold (chars (pre ++ "{" ++ mid ++ "}" ++ post)).
  rewrite chars_app. simpl. rewrite chars_app. simpl.
  rewrite match_from_first_to_last by assumption. simpl.
  rewrite string_of_chars_app. unfold chars.
  now rewrite string_of_list_ascii_of_string.
Qed.

(** What [extractResponse] returns for a decoded object. *)
Lemma extractResponse_object (content jsonMatch : string)
      (members : list (string * JSON.value)) :
  Str.match_braces content = Some jsonMatch ->
  JSON.parse jsonMatch = Some (JSON.JObject members) ->
  ToolAgent.extractResponse content
  = Return
      {| ToolAgent.skills :=
           JSON.or_else (JSON.member members "skills") (JSON.JArray []);
         ToolAgent.reasoning :=
           JSON.or_else (JSON.member members "reasoning") (JSON.JString "n/a") |}.
Proof.
  intros Hm Hp. unfold ToolAgent.extractResponse. now rewrite Hm, Hp.
Qed.

Lemma match_braces_opens (content jsonMatch : string) :
  Str.match_braces content = Some jsonMatch ->
  exists rest, jsonMatch = String "{"%char rest.
Proof.
  unfold Str.match_braces.
  destruct (Str.match_from (list_ascii_of_string content)) as [m |] eqn:E;
    [| discriminate].
  apply match_from_inv in E. destruct E as (pre & mid & post & _ & _ & _ & ->).
  intros H. injection H as <-. simpl. eauto.
Qed.

(** [extractResponse] throws only the SyntaxError of [JSON.parse]; when the
    text decodes, it decodes to an object and the result is built from the
    two members. *)
Lemma extractResponse_cases (content jsonMatch : string) :
  Str.match_braces content = Some jsonMatch ->
  (JSON.parse jsonMatch = None
   /\ ToolAgent.extractResponse content = Throw ErrSyntax)
  \/ (exists members,
         JSON.parse jsonMatch = Some (JSON.JObject members)
         /\ ToolAgent.extractResponse content
            = Return
                {| ToolAgent.skills :=
                     JSON.or_else (JSON.member members "skills")
                                  (JSON.JArray []);
                   ToolAgent.reasoning :=
                     JSON.or_else (JSON.member members "reasoning")
                                  (JSON.JString "n/a") |}).
Proof.
  intros Hm. destruct (JSON.parse jsonMatch) as [v |] eqn:P.
  - right. destruct (match_braces_opens _ Hm) as (rest & ->).
    destruct (parse_brace_object _ P) as (members & ->).
    exists members. split; [reflexivity |].
    now apply extractResponse_object with (String "{"%char rest).
  - left. split; [reflexivity |].
    unfold ToolAgent.extractResponse. now rewrite Hm, P.
Qed.

(** C4: [extractResponse] takes the text from the first opening brace to the
    last closing brace and decodes it as JSON; if it does not decode, the
    SyntaxError of [JSON.parse] is thrown; if it does, it decodes to an
    object, [skills] defaults to the empty list and [reasoning] to "n/a"
    when the object lacks the member, and a member that is there and truthy
    is returned as it is.  On the text
    [noise {"skills":["weather"],"reasoning":"x"}  trailing] the result is
    skills ["weather"] and reasoning "x"; on any text without an opening
    brace it is skills [] and reasoning "No JSON response". *)
Theorem C4_extractResponse_first_to_last_brace :
  (forall pre mid post : string,
      ~ In "{"%char (chars pre) -> ~ In "}"%char (chars post) ->
      Str.match_braces (pre ++ "{" ++ mid ++ "}" ++ post)
      = Some ("{" ++ mid ++ "}")%string)
  /\ (forall content jsonMatch : string,
        Str.match_braces content = Some jsonMatch ->
        (JSON.parse jsonMatch = None
         /\ ToolAgent.extractResponse content = Throw ErrSyntax)
        \/ (exists members r,
               JSON.parse jsonMatch = Some (JSON.JObject members)
               /\ ToolAgent.extractResponse content = Return r
               /\ (JSON.member members "skills" = None ->
                   ToolAgent.skills r = JSON.JArray [])
               /\ (JSON.member members "reasoning" = None ->
                   ToolAgent.reasoning r = JSON.JString "n/a")
               /\ (forall v, JSON.member members "skills" = Some v ->
                             JSON.truthy v = true -> ToolAgent.skills r = v)
               /\ (forall v, JSON.member members "reasoning" = Some v ->
                             JSON.truthy v = true ->
                             ToolAgent.reasoning r = v)))
  /\ ToolAgent.extractResponse Scenario.weather_reply
     = Return {| ToolAgent.skills := JSON.JArray [JSON.JString "weather"];
                 ToolAgent.reasoning := JSON.JString "x" |}
  /\ (forall content : string,
        ~ In "{"%char (chars content) ->
        ToolAgent.extractResponse content = Return (no_skills "No JSON response")).
Proof.
  split; [exact match_braces_first_to_last |].
  split; [| split; [reflexivity |]].
  - intros content jsonMatch Hm.
    destruct (extractResponse_cases _ Hm) as [H | (members & Hp & Hr)];
      [now left | right].
    exists members. eexists. split; [exact Hp |]. split; [exact Hr |].
    simpl. repeat split.
    + now intros ->.
    + now intros ->.
    + intros v -> Hv. simpl. now rewrite Hv.
    + intros v -> Hv. simpl. now rewrite Hv.
  - intros content H. unfold ToolAgent.extractResponse.
    now rewrite match_braces_no_opening.
Qed.

Lemma C4_extractResponse_witness :
  ToolAgent.extractResponse "I cannot tell which skills apply."
  = Return (no_skills "No JSON response")
  /\ Str.match_braces "so: {}, I think" = Some "{}".
Proof.
  destruct C4_extractResponse_first_to_last_brace as (Hmatch & _ & _ & Hnone).
  split.
  - apply Hnone. vm_compute. intuition discriminate.
  - apply (Hmatch "so: " "" ", I think");
      vm_compute; intuition discriminate.
Defined.

(* ===================================================================== *)
(** * The router: failure handling *)
(* ===================================================================== *)

(** [run] always returns, and the router object is left as it was. *)
Lemma ToolAgent_run_returns (route : RouterOracle) (registry : SkillsRegistry.t)
      (input : string) (self : ToolAgent.t) :
  ToolAgent.run route registry input self
  = (Return
       match route (ToolAgent.model self) (routing_prompt registry) input with
       | Return (Text content) =>
           match ToolAgent.extractResponse content with
           | Return r => r
           | Throw _ => no_skills "Error during routing"
           end
       | Return (Blocks _) | Throw _ => no_skills "Error during routing"
       end,
     self).
Proof.
  unfold ToolAgent.run, try_catch, bind, get_state, await, throw, ret.
  fold (routing_prompt registry).
  destruct (route (ToolAgent.model self) (routing_prompt registry) input)
    as [[content | blocks] | e]; try reflexivity.
  destruct (ToolAgent.extractResponse content); reflexivity.
Qed.

(** An empty list of skills loads nothing and asks for no rebuild. *)
Lemma handleToolsLoading_no_skills (diagnostic : string) (o : Orchestrator.t) :
  Orchestrator.handleToolsLoading (no_skills diagnostic) o = (Return false, o).
Proof. reflexivity. Qed.

(** A turn whose router asks for no skills is the turn of the conversational
    agent on the tools it already has. *)
Lemma run_without_skills (route : RouterOracle) (invoke : AgentOracle)
      (input diagnostic : string) (o : Orchestrator.t) (self : ToolAgent.t) :
  is_initialized o ->
  Orchestrator.toolAgent o = Some self ->
  fst (ToolAgent.run route (Orchestrator.registry o) input self)
  = Return (no_skills diagnostic) ->
  Orchestrator.run route invoke input o
  = Orchestrator.on_chatAgent (MainAgent.run invoke input) o.
Proof.
  intros (ta & ca & _ & Hca) Hself Hr.
  rewrite ToolAgent_run_returns in Hr. simpl in Hr. injection Hr as Hr.
  destruct o as [ta' ca' ts r]. simpl in Hca, Hself, Hr. subst ta' ca'.
  unfold Orchestrator.run, Orchestrator.on_toolAgent, bind, get_state.
  cbn [Orchestrator.toolAgent Orchestrator.chatAgent Orchestrator.registry].
  rewrite ToolAgent_run_returns, Hr. reflexivity.
Qed.

(** C5: [ToolAgent.run] returns for every behaviour of the language model
    and leaves the router as it was.  When the call of the model fails, when
    the answer holds no text from an opening to a closing brace, when that
    text does not decode, or when the answer is not a string at all, the
    result has the empty list of skills and a diagnostic for reasoning.  On
    such a result the orchestrator loads nothing, asks for no rebuild and
    goes on with the turn of the conversational agent. *)
Theorem C5_router_failure_is_absorbed :
  forall (route : RouterOracle) (registry : SkillsRegistry.t) (input : string)
         (self : ToolAgent.t),
    let answer := route (ToolAgent.model self) (routing_prompt registry) input in
    exists r,
      ToolAgent.run route registry input self = (Return r, self)
      /\ (forall e, answer = Throw e -> r = no_skills "Error during routing")
      /\ (forall content,
            answer = Return (Text content) ->
            Str.match_braces content = None ->
            r = no_skills "No JSON response")
      /\ (forall content jsonMatch,
            answer = Return (Text content) ->
            Str.match_braces content = Some jsonMatch ->
            JSON.parse jsonMatch = None ->
            r = no_skills "Error during routing")
      /\ (forall blocks,
            answer = Return (Blocks blocks) ->
            r = no_skills "Error during routing")
      /\ (forall diagnostic o,
            r = no_skills diagnostic ->
            Orchestrator.handleToolsLoading r o = (Return false, o))
      /\ (forall diagnostic invoke o,
            r = no_skills diagnostic ->
            is_initialized o ->
            Orchestrator.toolAgent o = Some self ->
            Orchestrator.registry o = registry ->
            Orchestrator.run route invoke input o
            = Orchestrator.on_chatAgent (MainAgent.run invoke input) o).
Proof.
  intros route registry input self answer.
  eexists. split; [apply ToolAgent_run_returns |]. fold answer.
  split; [| split; [| split; [| split; [| split]]]].
  - now intros e ->.
  - intros content -> Hm. unfold ToolAgent.extractResponse. now rewrite Hm.
  - intros content jsonMatch -> Hm Hp. unfold ToolAgent.extractResponse.
    now rewrite Hm, Hp.
  - now intros blocks ->.
  - intros diagnostic o ->. apply handleToolsLoading_no_skills.
  - intros diagnostic invoke o Hr Hinit Hself <-.
    apply run_without_skills with diagnostic self; try assumption.
    rewrite ToolAgent_run_returns. simpl. fold answer. now rewrite Hr.
Qed.

Lemma C5_router_witness :
  ToolAgent.run Scenario.route_down (Orchestrator.registry Scenario.ready)
                "hello" ToolAgent.new
  = (Return (no_skills "Error during routing"), ToolAgent.new).
Proof.
  destruct (C5_router_failure_is_absorbed Scenario.route_down
              (Orchestrator.registry Scenario.ready) "hello" ToolAgent.new)
    as (r & Hrun & Hfail & _).
  rewrite Hrun. f_equal. f_equal. apply (Hfail (ErrExternal "connection refused")).
  reflexivity.
Defined.

(* ===================================================================== *)
(** * More on the registry *)
(* ===================================================================== *)

Lemma map_set_get_other {V} (m : Map V) (k k' : string) (v : V) :
  k' <> k -> map_get (map_set m k v) k' = map_get m k'.
Proof.
  intros Hne. induction m as [| [k0 v0] m IH]; simpl.
  - destruct (String.eqb_spec k' k); [contradiction | reflexivity].
  - destruct (String.eqb_spec k k0) as [-> | Hk]; simpl.
    + destruct (String.eqb_spec k' k0); [contradiction | reflexivity].
    + now rewrite IH.
Qed.

Lemma map_set_keys_list {V} (m : Map V) (k : string) (v : V) :
  map_keys (map_set m k v)
  = if includes (map_keys m) k then map_keys m else map_keys m ++ [k].
Proof.
  induction m as [| [k0 v0] m IH]; simpl; [reflexivity |].
  unfold includes in *. simpl.
  destruct (String.eqb_spec k k0) as [-> | Hk]; simpl; [reflexivity |].
  rewrite IH. now destruct (existsb (String.eqb k) (map_keys m)).
Qed.

Lemma map_set_append {V} (m : Map V) (k : string) (v : V) :
  ~ In k (map_keys m) -> map_set m k v = m ++ [(k, v)].
Proof.
  induction m as [| [k0 v0] m IH]; simpl; intros H; [reflexivity |].
  destruct (String.eqb_spec k k0) as [-> | Hk]; [tauto |].
  rewrite IH by tauto. reflexivity.
Qed.

(** X1: [get] after [register]: the skill just registered is found under
    its name, whatever was registered under that name before, and every
    other name is found as before.  A name that was already registered
    keeps its place in [getNames()]; a new one goes last. *)
Theorem X1_register_then_get :
  forall (skill : Skill.t) (r : SkillsRegistry.t),
    let r' := snd (SkillsRegistry.register skill r) in
    fst (SkillsRegistry.register skill r) = Return tt
    /\ SkillsRegistry.get r' (skill_name skill) = Some skill
    /\ (forall name, name <> skill_name skill ->
                     SkillsRegistry.get r' name = SkillsRegistry.get r name)
    /\ SkillsRegistry.getNames r'
       = (if includes (SkillsRegistry.getNames r) (skill_name skill)
          then SkillsRegistry.getNames r
          else SkillsRegistry.getNames r ++ [skill_name skill])
    /\ SkillsRegistry.initialized r' = SkillsRegistry.initialized r
    /\ SkillsRegistry.loadedSkills r' = SkillsRegistry.loadedSkills r.
Proof.
  intros skill r. simpl. unfold SkillsRegistry.get, SkillsRegistry.getNames.
  simpl. repeat split.
  - apply map_set_get.
  - intros name Hne. now apply map_set_get_other.
  - apply map_set_keys_list.
Qed.

Lemma registerAll_fresh (skills : list Skill.t) (r : SkillsRegistry.t) :
  NoDup (List.map skill_name skills) ->
  (forall skill, In skill skills -> ~ registered r (skill_name skill)) ->
  SkillsRegistry.registerAll skills r
  = (Return tt,
     SkillsRegistry.set_skills
       (SkillsRegistry.skills r
        ++ List.map (fun skill => (skill_name skill, skill)) skills) r).
Proof.
  revert r. induction skills as [| skill skills IH]; intros r Hnd Hfresh.
  - destruct r. simpl. unfold ret, SkillsRegistry.set_skills. simpl.
    now rewrite app_nil_r.
  - inversion Hnd as [| ? ? Hnotin Hnd']; subst.
    unfold SkillsRegistry.registerAll in *. simpl. unfold bind at 1.
    simpl. rewrite IH; [| assumption |].
    + unfold SkillsRegistry.set_skills. simpl.
      rewrite map_set_append by (apply Hfresh; now left).
      now rewrite <- app_assoc.
    + intros s Hs. unfold registered, SkillsRegistry.getNames. simpl.
      rewrite map_set_keys. intros [Hin | E].
      * apply (Hfresh s); [now right | exact Hin].
      * apply Hnotin. fold (skill_name skill) in E. rewrite <- E.
        now apply in_map.
Qed.

(** X2: [registerAll] with skills of pairwise different names, none of them
    registered yet, adds them in the order given: [getNames()] and
    [getAllMetadata()] are the old lists followed by the names and the
    metadata of the new skills, and each new skill is found by [get]. *)
Theorem X2_registerAll_distinct_names :
  forall (skills : list Skill.t) (r : SkillsRegistry.t),
    NoDup (List.map skill_name skills) ->
    (forall skill, In skill skills -> ~ registered r (skill_name skill)) ->
    let r' := snd (SkillsRegistry.registerAll skills r) in
    fst (SkillsRegistry.registerAll skills r) = Return tt
    /\ SkillsRegistry.getNames r'
       = SkillsRegistry.getNames r ++ List.map skill_name skills
    /\ SkillsRegistry.getAllMetadata r'
       = SkillsRegistry.getAllMetadata r ++ List.map Skill.metadata skills.
Proof.
  intros skills r Hnd Hfresh. simpl. rewrite registerAll_fresh by assumption.
  unfold SkillsRegistry.getNames, SkillsRegistry.getAllMetadata, map_keys,
    map_values. simpl. rewrite !map_app, !map_map. simpl. auto.
Qed.

Lemma X2_registerAll_witness :
  SkillsRegistry.getNames (Orchestrator.registry Orchestrator.new)
  = ["calculator"; "weather"; "web-search"; "datetime"].
Proof.
  apply (X2_registerAll_distinct_names
           [CalculatorSkill; WeatherSkill; WebSearchSkill; DateTimeSkill]
           SkillsRegistry.new).
  - repeat constructor; simpl; intuition discriminate.
  - intros skill _ [].
Defined.

Lemma initializeSkill_unknown (name : string) (r : SkillsRegistry.t) :
  SkillsRegistry.get r name = None ->
  SkillsRegistry.initializeSkill name r = (Throw (ErrSkillNotFound name), r).
Proof.
  unfold SkillsRegistry.get, SkillsRegistry.initializeSkill, bind, get_state,
    throw. now intros ->.
Qed.

Lemma initializeSkill_done (name : string) (skill : Skill.t)
      (r : SkillsRegistry.t) :
  SkillsRegistry.get r name = Some skill ->
  In name (SkillsRegistry.initialized r) ->
  SkillsRegistry.initializeSkill name r = (Return tt, r).
Proof.
  unfold SkillsRegistry.get, SkillsRegistry.initializeSkill, bind, get_state,
    ret, set_has. intros -> Hin. apply includes_In in Hin. now rewrite Hin.
Qed.

Lemma initializeSkill_first (name : string) (skill : Skill.t)
      (r : SkillsRegistry.t) :
  SkillsRegistry.get r name = Some skill ->
  ~ In name (SkillsRegistry.initialized r) ->
  SkillsRegistry.initializeSkill name r
  = match Skill.initialize skill with
    | Some hook =>
        match hook tt with
        | Return _ =>
            (Return tt,
             SkillsRegistry.set_initialized
               (SkillsRegistry.initialized r ++ [name]) r)
        | Throw e => (Throw e, r)
        end
    | None =>
        (Return tt,
         SkillsRegistry.set_initialized
           (SkillsRegistry.initialized r ++ [name]) r)
    end.
Proof.
  unfold SkillsRegistry.get, SkillsRegistry.initializeSkill, bind, get_state,
    ret, modify, await, set_has, set_add.
  intros -> Hin. apply includes_not_In in Hin. rewrite Hin.
  destruct (Skill.initialize skill) as [hook |]; simpl.
  - destruct (hook tt) as [[] | e]; simpl; unfold set_add, set_has;
      rewrite ?Hin; reflexivity.
  - simpl. unfold set_add, set_has. now rewrite Hin.
Qed.

Lemma initializeSkill_throws_inv (name : string) (r : SkillsRegistry.t)
      (e : Error) :
  fst (SkillsRegistry.initializeSkill name r) = Throw e ->
  snd (SkillsRegistry.initializeSkill name r) = r
  /\ ((SkillsRegistry.get r name = None /\ e = ErrSkillNotFound name)
      \/ (exists skill hook,
            SkillsRegistry.get r name = Some skill
            /\ ~ In name (SkillsRegistry.initialized r)
            /\ Skill.initialize skill = Some hook
            /\ hook tt = Throw e)).
Proof.
  destruct (SkillsRegistry.get r name) as [skill |] eqn:G.
  - destruct (in_dec string_dec name (SkillsRegistry.initialized r))
      as [Hin | Hin].
    + rewrite (initializeSkill_done _ _ G Hin). discriminate.
    + rewrite (initializeSkill_first _ _ G Hin).
      destruct (Skill.initialize skill) as [hook |] eqn:Hh;
        [| discriminate].
      destruct (hook tt) as [[] | e'] eqn:He; [discriminate |].
      simpl. intros E. injection E as <-. split; [reflexivity |].
      right. exists skill, hook. auto.
  - rewrite (initializeSkill_unknown _ _ G). simpl. intros E.
    injection E as <-. auto.
Qed.

(** X3: [initializeSkill] fails in two cases only, and a failed call leaves
    the registry as it was: the name is not registered, and the error is
    `Skill "<name>" not found`; or the skill is registered, not yet
    initialized, and its [initialize] hook rejects, and the error is the one
    of the hook.  The name is then not marked as initialized, so a later
    call runs the hook again. *)
Theorem X3_initializeSkill_failures :
  forall (name : string) (r : SkillsRegistry.t),
    (SkillsRegistry.get r name = None ->
     SkillsRegistry.initializeSkill name r = (Throw (ErrSkillNotFound name), r))
    /\ (forall skill hook e,
          SkillsRegistry.get r name = Some skill ->
          ~ In name (SkillsRegistry.initialized r) ->
          Skill.initialize skill = Some hook ->
          hook tt = Throw e ->
          SkillsRegistry.initializeSkill name r = (Throw e, r))
    /\ (forall e,
          fst (SkillsRegistry.initializeSkill name r) = Throw e ->
          snd (SkillsRegistry.initializeSkill name r) = r
          /\ ((SkillsRegistry.get r name = None /\ e = ErrSkillNotFound name)
              \/ (exists skill hook,
                    SkillsRegistry.get r name = Some skill
                    /\ ~ In name (SkillsRegistry.initialized r)
                    /\ Skill.initialize skill = Some hook
                    /\ hook tt = Throw e))).
Proof.
  intros name r. split; [apply initializeSkill_unknown |]. split.
  - intros skill hook e G Hin Hh He.
    rewrite (initializeSkill_first _ _ G Hin), Hh, He. reflexivity.
  - intros e. apply initializeSkill_throws_inv.
Qed.

Lemma X3_initializeSkill_witness :
  SkillsRegistry.initializeSkill "translator"
    (Orchestrator.registry Orchestrator.new)
  = (Throw (ErrSkillNotFound "translator"),
     Orchestrator.registry Orchestrator.new).
Proof.
  destruct (X3_initializeSkill_failures "translator"
              (Orchestrator.registry Orchestrator.new)) as [H _].
  apply H. reflexivity.
Defined.

Lemma initializeSkill_again :
  forall (name : string) (r : SkillsRegistry.t),
    let r' := snd (SkillsRegistry.initializeSkill name r) in
    SkillsRegistry.skills r' = SkillsRegistry.skills r
    /\ SkillsRegistry.loadedSkills r' = SkillsRegistry.loadedSkills r
    /\ incl (SkillsRegistry.initialized r) (SkillsRegistry.initialized r')
    /\ (fst (SkillsRegistry.initializeSkill name r) = Return tt ->
        In name (SkillsRegistry.initialized r')
        /\ SkillsRegistry.initializeSkill name r' = (Return tt, r')).
Proof.
  intros name r. simpl.
  destruct (SkillsRegistry.get r name) as [skill |] eqn:G.
  - destruct (in_dec string_dec name (SkillsRegistry.initialized r))
      as [Hin | Hin].
    + rewrite (initializeSkill_done _ _ G Hin). simpl.
      repeat split; try apply incl_refl; try assumption.
      now apply initializeSkill_done with skill.
    + rewrite (initializeSkill_first _ _ G Hin).
      assert (Hok : forall r1,
                 r1 = SkillsRegistry.set_initialized
                        (SkillsRegistry.initialized r ++ [name]) r ->
                 SkillsRegistry.skills r1 = SkillsRegistry.skills r
                 /\ SkillsRegistry.loadedSkills r1 = SkillsRegistry.loadedSkills r
                 /\ incl (SkillsRegistry.initialized r)
                         (SkillsRegistry.initialized r1)
                 /\ (Return tt = Return tt :> Completion unit ->
                     In name (SkillsRegistry.initialized r1)
                     /\ SkillsRegistry.initializeSkill name r1 = (Return tt, r1))).
      { intros r1 ->. simpl. repeat split.
        - apply incl_appl, incl_refl.
        - apply in_app_iff. right. now left.
        - apply initializeSkill_done with skill; [exact G |].
          simpl. apply in_app_iff. right. now left. }
      destruct (Skill.initialize skill) as [hook |].
      * destruct (hook tt) as [[] | e]; cbn [fst snd];
          [apply Hok; reflexivity |].
        repeat split; try apply incl_refl; discriminate.
      * cbn [fst snd]. apply Hok; reflexivity.
  - rewrite (initializeSkill_unknown _ _ G). simpl.
    repeat split; try apply incl_refl; discriminate.
Qed.

(** X4: [initializeSkill] is idempotent.  A call that returns has the name
    in [initialized]; any further call for that name returns at once and
    changes nothing, whatever the hook would do.  The call never touches
    the registered skills nor the loaded set. *)
Theorem X4_initializeSkill_idempotent :
  forall (name : string) (r : SkillsRegistry.t),
    let r' := snd (SkillsRegistry.initializeSkill name r) in
    SkillsRegistry.skills r' = SkillsRegistry.skills r
    /\ SkillsRegistry.loadedSkills r' = SkillsRegistry.loadedSkills r
    /\ incl (SkillsRegistry.initialized r) (SkillsRegistry.initialized r')
    /\ (fst (SkillsRegistry.initializeSkill name r) = Return tt ->
        In name (SkillsRegistry.initialized r')
        /\ SkillsRegistry.initializeSkill name r' = (Return tt, r')).
Proof. exact initializeSkill_again. Qed.

Lemma X4_initializeSkill_witness :
  In "weather"
     (SkillsRegistry.initialized
        (snd (SkillsRegistry.initializeSkill "weather"
                (Orchestrator.registry Orchestrator.new)))).
Proof.
  destruct (X4_initializeSkill_idempotent "weather"
              (Orchestrator.registry Orchestrator.new)) as (_ & _ & _ & H).
  apply H. reflexivity.
Defined.

Lemma initializeSkill_resolving (name : string) (r : SkillsRegistry.t) :
  registered r name ->
  (forall skill hook,
      SkillsRegistry.get r name = Some skill ->
      ~ In name (SkillsRegistry.initialized r) ->
      Skill.initialize skill = Some hook -> hook tt = Return tt) ->
  fst (SkillsRegistry.initializeSkill name r) = Return tt
  /\ In name (SkillsRegistry.initialized (snd (SkillsRegistry.initializeSkill name r))).
Proof.
  intros Hreg Hhook.
  apply map_get_keys in Hreg. destruct Hreg as (skill & G).
  fold (SkillsRegistry.get r name) in G.
  destruct (in_dec string_dec name (SkillsRegistry.initialized r)) as [Hin | Hin].
  - rewrite (initializeSkill_done _ _ G Hin). auto.
  - rewrite (initializeSkill_first _ _ G Hin).
    assert (Hlast : In name (SkillsRegistry.initialized r ++ [name]))
      by (apply in_app_iff; right; now left).
    destruct (Skill.initialize skill) as [hook |] eqn:Hh; [| auto].
    rewrite (Hhook skill hook G Hin Hh). auto.
Qed.

Lemma initialize_each_resolving (names : list string) (r s : SkillsRegistry.t) :
  hooks_resolve r ->
  (forall name, In name names -> registered r name) ->
  SkillsRegistry.skills s = SkillsRegistry.skills r ->
  incl (SkillsRegistry.initialized r) (SkillsRegistry.initialized s) ->
  let s' := snd (for_of names SkillsRegistry.initializeSkill s) in
  fst (for_of names SkillsRegistry.initializeSkill s) = Return tt
  /\ incl (SkillsRegistry.initialized s) (SkillsRegistry.initialized s')
  /\ (forall name, In name names -> In name (SkillsRegistry.initialized s')).
Proof.
  intros Hres. revert s. induction names as [| name names IH];
    intros s Hreg Hs Hi; simpl.
  - repeat split. apply incl_refl. intros name [].
  - assert (Hstep : fst (SkillsRegistry.initializeSkill name s) = Return tt
                    /\ In name (SkillsRegistry.initialized
                                  (snd (SkillsRegistry.initializeSkill name s)))).
    { apply initializeSkill_resolving.
      - unfold registered, SkillsRegistry.getNames. rewrite Hs.
        apply Hreg. now left.
      - intros skill hook G Hin Hh. unfold SkillsRegistry.get in G.
        rewrite Hs in G. apply (Hres name skill hook); auto. }
    destruct Hstep as [Hret Hin].
    destruct (initializeSkill_again name s) as (Hs1 & _ & Hi1 & _).
    simpl in Hs1, Hi1. unfold bind.
    destruct (SkillsRegistry.initializeSkill name s) as [[[] | e] s1];
      simpl in *; [| discriminate].
    destruct (IH s1) as (Hret' & Hi' & Hall).
    + intros n Hn. apply Hreg. now right.
    + congruence.
    + eapply incl_tran; eassumption.
    + repeat split.
      * exact Hret'.
      * eapply incl_tran; eassumption.
      * intros n [<- | Hn]; [now apply Hi' | now apply Hall].
Qed.

(** X5: when every hook that is still to run resolves, [initializeAll]
    returns and every registered name is initialized afterwards; names
    initialized before stay so, and the registered skills and the loaded set
    are as before. *)
Theorem X5_initializeAll_initializes_every_skill :
  forall r : SkillsRegistry.t,
    hooks_resolve r ->
    let r' := snd (SkillsRegistry.initializeAll r) in
    fst (SkillsRegistry.initializeAll r) = Return tt
    /\ (forall name, registered r name -> In name (SkillsRegistry.initialized r'))
    /\ incl (SkillsRegistry.initialized r) (SkillsRegistry.initialized r')
    /\ SkillsRegistry.skills r' = SkillsRegistry.skills r
    /\ SkillsRegistry.loadedSkills r' = SkillsRegistry.loadedSkills r.
Proof.
  intros r Hres. simpl.
  destruct (initializeAll_effect r) as (Hs & Hl & _). simpl in Hs, Hl.
  unfold SkillsRegistry.initializeAll, bind, get_state in *.
  destruct (@initialize_each_resolving (map_keys (SkillsRegistry.skills r)) r r
              Hres) as (Hret & Hi & Hall); auto using incl_refl.
Qed.

Lemma X5_initializeAll_witness :
  fst (SkillsRegistry.initializeAll (Orchestrator.registry Orchestrator.new))
  = Return tt
  /\ SkillsRegistry.skills
       (snd (SkillsRegistry.initializeAll
               (Orchestrator.registry Orchestrator.new)))
     = SkillsRegistry.skills (Orchestrator.registry Orchestrator.new).
Proof.
  destruct (@X5_initializeAll_initializes_every_skill
              (Orchestrator.registry Orchestrator.new)) as (H1 & _ & _ & H2 & _).
  - intros name skill hook G _ Hh.
    vm_compute in G.
    repeat match type of G with
           | (if ?b then _ else _) = _ => destruct b
           end;
      try discriminate; injection G as <-; vm_compute in Hh;
      injection Hh as <-; reflexivity.
  - split; [exact H1 | exact H2].
Defined.

Lemma initialize_each_throws (names : list string) (r s : SkillsRegistry.t)
      (e : Error) :
  (forall name, In name names -> registered r name) ->
  SkillsRegistry.skills s = SkillsRegistry.skills r ->
  fst (for_of names SkillsRegistry.initializeSkill s) = Throw e ->
  exists name skill hook,
    SkillsRegistry.get r name = Some skill
    /\ Skill.initialize skill = Some hook
    /\ hook tt = Throw e.
Proof.
  revert s. induction names as [| name names IH]; intros s Hreg Hs; simpl;
    [discriminate |].
  unfold bind.
  destruct (SkillsRegistry.initializeSkill name s) as [[[] | e'] s1] eqn:E.
  - apply IH.
    + intros n Hn. apply Hreg. now right.
    + destruct (initializeSkill_effect name s) as (Hs1 & _).
      rewrite E in Hs1. simpl in Hs1. congruence.
  - simpl. intros H. injection H as ->.
    destruct (@initializeSkill_throws_inv name s e) as (_ & [[G _] | H]).
    + now rewrite E.
    + exfalso. assert (Hn : registered r name) by (apply Hreg; now left).
      apply map_get_keys in Hn. destruct Hn as (skill & Hn).
      unfold SkillsRegistry.get in G. rewrite Hs in G. congruence.
    + destruct H as (skill & hook & G & _ & Hh & He).
      exists name, skill, hook. unfold SkillsRegistry.get in *.
      rewrite <- Hs. auto.
Qed.

(** X6: [initializeAll] fails only with the error of a rejecting hook of a
    registered skill; it never fails with `Skill ... not found` of its own
    making, and an empty registry makes it return. *)
Theorem X6_initializeAll_fails_only_with_a_hook :
  forall (r : SkillsRegistry.t) (e : Error),
    fst (SkillsRegistry.initializeAll r) = Throw e ->
    exists name skill hook,
      SkillsRegistry.get r name = Some skill
      /\ Skill.initialize skill = Some hook
      /\ hook tt = Throw e.
Proof.
  intros r e. unfold SkillsRegistry.initializeAll, bind, get_state.
  now apply initialize_each_throws.
Qed.

Lemma X6_initializeAll_witness :
  exists name skill hook,
    SkillsRegistry.get flaky_registry name = Some skill
    /\ Skill.initialize skill = Some hook
    /\ hook tt = Throw (ErrExternal "no connection").
Proof.
  apply (@X6_initializeAll_fails_only_with_a_hook flaky_registry).
  reflexivity.
Defined.

(** X7: [resetLoadedSkills] empties the loaded set and nothing else: the
    registered skills and the initialized set are as before, so no hook runs
    again, and every registered skill can be loaded anew, [loadSkill]
    returning all its tools. *)
Theorem X7_reset_then_load_again :
  forall (r : SkillsRegistry.t) (name : string) (skill : Skill.t),
    SkillsRegistry.get r name = Some skill ->
    let r0 := snd (SkillsRegistry.resetLoadedSkills r) in
    SkillsRegistry.getLoadedSkillNames r0 = []
    /\ SkillsRegistry.skills r0 = SkillsRegistry.skills r
    /\ SkillsRegistry.initialized r0 = SkillsRegistry.initialized r
    /\ fst (SkillsRegistry.loadSkill name r0) = Return (Some (Skill.tools skill))
    /\ SkillsRegistry.getLoadedSkillNames (snd (SkillsRegistry.loadSkill name r0))
       = [name].
Proof.
  intros r name skill G. simpl.
  rewrite (@loadSkill_fresh name skill); auto.
Qed.

Lemma X7_reset_witness :
  fst (SkillsRegistry.loadSkill "weather"
         (snd (SkillsRegistry.resetLoadedSkills
                 (Orchestrator.registry Scenario.after_weather_turn))))
  = Return (Some (Skill.tools WeatherSkill)).
Proof.
  apply (@X7_reset_then_load_again
           (Orchestrator.registry Scenario.after_weather_turn) "weather"
           WeatherSkill).
  reflexivity.
Defined.

(** X8: [isSkillLoaded(n)] holds exactly for the names that
    [getLoadedSkillNames()] lists.  After [loadSkill(name)] it holds for
    [name] exactly when [name] is registered or was loaded before, and for
    every other name it is as before. *)
Theorem X8_isSkillLoaded_follows_loadSkill :
  forall (r : SkillsRegistry.t) (name : string),
    let r' := snd (SkillsRegistry.loadSkill name r) in
    (forall n, SkillsRegistry.isSkillLoaded r n = true
               <-> In n (SkillsRegistry.getLoadedSkillNames r))
    /\ (SkillsRegistry.isSkillLoaded r' name = true
        <-> registered r name \/ SkillsRegistry.isSkillLoaded r name = true)
    /\ (forall n, n <> name ->
                  SkillsRegistry.isSkillLoaded r' n
                  = SkillsRegistry.isSkillLoaded r n).
Proof.
  intros r name. simpl.
  split; [intros n; apply includes_In |].
  destruct (SkillsRegistry.get r name) as [skill |] eqn:G.
  - assert (Hreg : registered r name) by (apply map_get_keys; eauto).
    destruct (SkillsRegistry.isSkillLoaded r name) eqn:L.
    + rewrite (loadSkill_loaded _ _ L). simpl. rewrite L. tauto.
    + rewrite (loadSkill_fresh _ _ G L). simpl. split.
      * rewrite isSkillLoaded_after_add. tauto.
      * intros n Hn. unfold SkillsRegistry.isSkillLoaded, set_has, includes.
        simpl. rewrite existsb_app. simpl.
        destruct (String.eqb_spec n name); [contradiction |].
        now rewrite !orb_false_r.
  - rewrite (loadSkill_unknown _ _ G). simpl. split; [| reflexivity].
    apply map_get_None in G. unfold registered, SkillsRegistry.getNames.
    tauto.
Qed.

(* ===================================================================== *)
(** * More on the conversational agent *)
(* ===================================================================== *)

(** X9: [MainAgent.run] fails in two cases only, and a failed call leaves
    the agent as it was: no executable agent has been built yet, and the
    error is 'Agent not initialized. Call initialize() first.', whatever the
    model would answer; or the invocation of the executable agent fails,
    and the error is the one of the invocation. *)
Theorem X9_run_failures :
  forall (invoke : AgentOracle) (input : string) (a : MainAgent.t),
    (MainAgent.agent a = None ->
     MainAgent.run invoke input a = (Throw ErrAgentNotInitialized, a))
    /\ (forall e,
          fst (MainAgent.run invoke input a) = Throw e ->
          snd (MainAgent.run invoke input a) = a
          /\ ((MainAgent.agent a = None /\ e = ErrAgentNotInitialized)
              \/ (exists executor,
                    MainAgent.agent a = Some executor
                    /\ invoke executor (assembled a input) = Throw e))).
Proof.
  intros invoke input a. split; [apply run_not_initialized |].
  intros e. destruct (MainAgent.agent a) as [executor |] eqn:Ha.
  - destruct (invoke executor (assembled a input)) as [result | e'] eqn:E.
    + rewrite (@run_invocation_returns invoke input a executor result Ha E). discriminate.
    + rewrite (@run_invocation_fails invoke input a executor _ Ha E). simpl. intros H.
      injection H as <-. split; [reflexivity |]. right. eauto.
  - rewrite (@run_not_initialized invoke input a Ha). simpl. intros H.
    injection H as <-. auto.
Qed.

Lemma X9_run_witness :
  MainAgent.run (Scenario.answer "Hello!") "hello" MainAgent.new
  = (Throw ErrAgentNotInitialized, MainAgent.new).
Proof.
  destruct (X9_run_failures (Scenario.answer "Hello!") "hello" MainAgent.new)
    as [H _].
  apply H. reflexivity.
Defined.

Lemma run_keeps_all_but_history (invoke : AgentOracle) (input : string)
      (a : MainAgent.t) :
  let a' := snd (MainAgent.run invoke input a) in
  MainAgent.agent a' = MainAgent.agent a
  /\ MainAgent.model a' = MainAgent.model a
  /\ MainAgent.tools a' = MainAgent.tools a
  /\ MainAgent.created a' = MainAgent.created a
  /\ (a' = a
      \/ exists output,
           fst (MainAgent.run invoke input a) = Return output
           /\ MainAgent.chatHistory a'
              = MainAgent.chatHistory a
                ++ [HumanMessage input; AIMessage output]).
Proof.
  simpl. destruct (MainAgent.agent a) as [executor |] eqn:Ha.
  - destruct (invoke executor (assembled a input)) as [result | e] eqn:E.
    + rewrite (@run_invocation_returns invoke input a executor result Ha E). simpl.
      repeat split; try assumption. right. eauto.
    + rewrite (@run_invocation_fails invoke input a executor _ Ha E). simpl. auto 6.
  - rewrite (@run_not_initialized invoke input a Ha). simpl. auto 6.
Qed.

(** X10: the executable agent is never stale.  From the creation of the
    object on, after every call of [initialize], [buildExecutor], [run] and
    [clearHistory], returning or not, the executable agent, if there is one,
    is bound to exactly the stored tool set, so a turn always runs on the
    tools the agent holds. *)
Theorem X10_executor_bound_to_tool_set :
  agent_bound MainAgent.new
  /\ forall (invoke : AgentOracle) (op : AgentOp) (a : MainAgent.t),
       agent_bound a -> agent_bound (after_call invoke op a).
Proof.
  split; [exact I |].
  intros invoke op a Hb. destruct op as [| newTools | input |]; simpl.
  - unfold MainAgent.initialize, bind, modify.
    rewrite buildExecutor_state. unfold agent_bound. simpl. auto.
  - rewrite buildExecutor_state. unfold agent_bound. simpl. auto.
  - destruct (run_keeps_all_but_history invoke input a)
      as (Hag & _ & Hts & Hcr & _).
    unfold agent_bound in *. simpl in *. now rewrite Hag, Hts, Hcr.
  - exact Hb.
Qed.

Lemma X10_executor_witness :
  agent_bound
    (after_call (Scenario.answer "ok")
                (CallBuildExecutor (Some (Skill.tools WeatherSkill)))
                Scenario.chatting).
Proof.
  destruct X10_executor_bound_to_tool_set as [_ H].
  apply H. vm_compute. split; [reflexivity | repeat constructor].
Defined.

Lemma transcript_app (turns more : list (string * string)) :
  transcript (turns ++ more) = transcript turns ++ transcript more.
Proof.
  induction turns as [| [i o] turns IH]; simpl; [reflexivity |].
  now rewrite IH.
Qed.

(** X11: the history always consists of whole turns.  If it is the
    transcript of a list of turns, user message then assistant message,
    then so it is after every call: [run] adds the turn of its input and
    output at the end when it returns and nothing when it throws,
    [clearHistory] leaves no turn, [initialize] and [buildExecutor] leave
    the turns alone. *)
Theorem X11_history_is_whole_turns :
  forall (invoke : AgentOracle) (op : AgentOp) (a : MainAgent.t)
         (turns : list (string * string)),
    MainAgent.chatHistory a = transcript turns ->
    MainAgent.chatHistory (after_call invoke op a)
    = match op with
      | CallRun input =>
          match fst (MainAgent.run invoke input a) with
          | Return output => transcript (turns ++ [(input, output)])
          | Throw _ => transcript turns
          end
      | CallClearHistory => transcript []
      | CallInitialize | CallBuildExecutor _ => transcript turns
      end.
Proof.
  intros invoke op a turns Hh. destruct op as [| newTools | input |]; simpl.
  - unfold MainAgent.initialize, bind, modify.
    now rewrite buildExecutor_state.
  - now rewrite buildExecutor_state.
  - destruct (run_keeps_all_but_history invoke input a)
      as (_ & _ & _ & _ & [Hsame | (output & Hret & Hhist)]); simpl in *.
    + rewrite Hsame.
      destruct (fst (MainAgent.run invoke input a)) as [output | e] eqn:F;
        [| exact Hh].
      exfalso.
      destruct (@run_returns_inv invoke input a output F)
        as (executor & result & Ha & E).
      rewrite (@run_invocation_returns invoke input a executor result Ha E) in Hsame. simpl in Hsame.
      apply (f_equal MainAgent.chatHistory) in Hsame. simpl in Hsame.
      apply (f_equal (@List.length _)) in Hsame.
      rewrite length_app in Hsame. simpl in Hsame. lia.
    + rewrite Hret, Hhist, Hh, transcript_app. reflexivity.
  - reflexivity.
Qed.

Lemma X11_history_witness :
  MainAgent.chatHistory
    (after_call (Scenario.answer "Sunny.") (CallRun "weather?")
                Scenario.chatting)
  = transcript [("hello", "Hello!"); ("weather?", "Sunny.")].
Proof.
  apply (@X11_history_is_whole_turns (Scenario.answer "Sunny.")
           (CallRun "weather?") Scenario.chatting [("hello", "Hello!")]).
  reflexivity.
Defined.



(** X13: after [buildExecutor(newTools)] a name is the name of a stored
    tool exactly when it was one before or is the name of an incoming tool;
    and if no name occurs twice in the stored set nor twice among the
    incoming tools, none occurs twice afterwards. *)
Theorem X13_buildExecutor_names :
  forall (newTools : list Tool) (a : MainAgent.t),
    let a' := snd (MainAgent.buildExecutor (Some newTools) a) in
    (forall name,
        In name (tool_names (MainAgent.tools a'))
        <-> In name (tool_names (MainAgent.tools a))
            \/ In name (tool_names newTools))
    /\ (NoDup (tool_names (MainAgent.tools a)) ->
        NoDup (tool_names newTools) ->
        NoDup (tool_names (MainAgent.tools a'))).
Proof.
  intros newTools a. simpl. rewrite buildExecutor_state. simpl. split.
  - intros name. apply merge_names.
  - apply merge_NoDup.
Qed.

Lemma X13_buildExecutor_witness :
  NoDup (tool_names
           (MainAgent.tools
              (snd (MainAgent.buildExecutor
                      (Some (Skill.tools WeatherSkill ++ Skill.tools DateTimeSkill))
                      (snd (MainAgent.buildExecutor
                              (Some (Skill.tools WeatherSkill))
                              Scenario.chatting)))))).
Proof.
  destruct (X13_buildExecutor_names
              (Skill.tools WeatherSkill ++ Skill.tools DateTimeSkill)
              (snd (MainAgent.buildExecutor (Some (Skill.tools WeatherSkill))
                                            Scenario.chatting))) as [_ H].
  apply H; vm_compute; repeat constructor; simpl; intuition discriminate.
Defined.

(* ===================================================================== *)
(** * More on the orchestrator *)
(* ===================================================================== *)

Lemma on_chatAgent_some {A} (m : Eff MainAgent.t A) (o : Orchestrator.t)
      (ca : MainAgent.t) :
  Orchestrator.chatAgent o = Some ca ->
  Orchestrator.on_chatAgent m o
  = (fst (m ca), Orchestrator.set_chatAgent (Some (snd (m ca))) o).
Proof.
  unfold Orchestrator.on_chatAgent. intros ->. now destruct (m ca).
Qed.

Lemma push_all (ts : list Tool) (o : Orchestrator.t) :
  for_of ts (fun tool =>
               modify (fun o => Orchestrator.set_tools
                                  (Orchestrator.tools o ++ [tool]) o)) o
  = (Return tt, Orchestrator.set_tools (Orchestrator.tools o ++ ts) o).
Proof.
  revert o. induction ts as [| t ts IH]; intros o; simpl.
  - destruct o. unfold ret, Orchestrator.set_tools. simpl.
    now rewrite app_nil_r.
  - unfold bind, modify at 1. rewrite IH. unfold Orchestrator.set_tools.
    simpl. now rewrite <- app_assoc.
Qed.

Lemma loadSkillTools_stale (v : JSON.value) (o : Orchestrator.t) :
  fresh (Orchestrator.registry o) v = false ->
  Orchestrator.loadSkillTools v o = (Return false, o).
Proof.
  intros F. unfold Orchestrator.loadSkillTools, Orchestrator.on_registry,
    zoom, bind.
  assert (Hnone : forall m : Eff SkillsRegistry.t (option (list Tool)),
             m (Orchestrator.registry o)
             = (Return None, Orchestrator.registry o) ->
             (let (c, t') := m (Orchestrator.registry o) in
              (c, Orchestrator.set_registry t' o)) = (Return None, o)).
  { intros m ->. now destruct o. }
  destruct v as [| b | n m e | name | l | ms];
    try (rewrite Hnone by reflexivity; reflexivity).
  simpl in F.
  destruct (SkillsRegistry.get (Orchestrator.registry o) name) as [skill |]
    eqn:G.
  - apply negb_false_iff in F.
    rewrite Hnone by (now apply loadSkill_loaded). reflexivity.
  - rewrite Hnone by (now apply loadSkill_unknown). reflexivity.
Qed.

Lemma loadSkillTools_fresh (name : string) (skill : Skill.t)
      (o : Orchestrator.t) :
  SkillsRegistry.get (Orchestrator.registry o) name = Some skill ->
  SkillsRegistry.isSkillLoaded (Orchestrator.registry o) name = false ->
  Orchestrator.loadSkillTools (JSON.JString name) o
  = (Return true,
     {| Orchestrator.toolAgent := Orchestrator.toolAgent o;
        Orchestrator.chatAgent := Orchestrator.chatAgent o;
        Orchestrator.tools := Orchestrator.tools o ++ Skill.tools skill;
        Orchestrator.registry :=
          SkillsRegistry.set_loadedSkills
            (SkillsRegistry.loadedSkills (Orchestrator.registry o) ++ [name])
            (Orchestrator.registry o) |}).
Proof.
  intros G L. unfold Orchestrator.loadSkillTools, Orchestrator.on_registry,
    zoom, bind.
  rewrite (loadSkill_fresh _ _ G L). rewrite push_all. reflexivity.
Qed.

Lemma only_loads_refl (o : Orchestrator.t) : only_loads o o.
Proof.
  repeat split; try apply incl_refl. exists []. now rewrite app_nil_r.
Qed.

Lemma only_loads_trans (o1 o2 o3 : Orchestrator.t) :
  only_loads o1 o2 -> only_loads o2 o3 -> only_loads o1 o3.
Proof.
  intros (A1 & A2 & A3 & A4 & A5 & x & A6) (B1 & B2 & B3 & B4 & B5 & y & B6).
  repeat split; try congruence.
  - eapply incl_tran; eassumption.
  - exists (x ++ y). rewrite B6, A6. now rewrite app_assoc.
Qed.

(** One round of the loop of [handleToolsLoading]. *)
Lemma loadSkillTools_step (v : JSON.value) (o : Orchestrator.t) :
  let o' := snd (Orchestrator.loadSkillTools v o) in
  fst (Orchestrator.loadSkillTools v o)
  = Return (fresh (Orchestrator.registry o) v)
  /\ (fresh (Orchestrator.registry o) v = false -> o' = o)
  /\ only_loads o o'
  /\ (loaded_tools_kept o -> loaded_tools_kept o').
Proof.
  simpl. destruct (fresh (Orchestrator.registry o) v) eqn:F.
  - destruct v as [| b | n m e | name | l | ms]; try discriminate.
    simpl in F.
    destruct (SkillsRegistry.get (Orchestrator.registry o) name) as [skill |]
      eqn:G; [| discriminate].
    apply negb_true_iff in F. rewrite (loadSkillTools_fresh _ _ G F). simpl.
    split; [reflexivity |]. split; [discriminate |]. split.
    + repeat split; simpl; eauto. unfold Orchestrator.getLoadedSkills. simpl.
      apply incl_appl, incl_refl.
    + intros K n s. unfold Orchestrator.getLoadedSkills,
        SkillsRegistry.get. simpl. intros Hin Gs.
      apply in_app_iff in Hin. destruct Hin as [Hin | [<- | []]].
      * apply incl_appl. now apply (K n s).
      * apply incl_appr. unfold SkillsRegistry.get in G.
        assert (s = skill) by congruence. subst. apply incl_refl.
  - rewrite (loadSkillTools_stale _ _ F). simpl.
    auto using only_loads_refl.
Qed.

Lemma load_each_effect (names : list JSON.value) (acc : bool)
      (o : Orchestrator.t) :
  let o' := snd (Orchestrator.load_each names acc o) in
  fst (Orchestrator.load_each names acc o)
  = Return (acc || existsb (fresh (Orchestrator.registry o)) names)
  /\ (existsb (fresh (Orchestrator.registry o)) names = false -> o' = o)
  /\ only_loads o o'
  /\ (loaded_tools_kept o -> loaded_tools_kept o').
Proof.
  revert acc o. induction names as [| v names IH]; intros acc o; simpl.
  - rewrite orb_false_r. auto using only_loads_refl.
  - destruct (loadSkillTools_step v o) as (Hret & Hsame & Hol & Hk).
    simpl in *. unfold bind.
    destruct (Orchestrator.loadSkillTools v o) as [[b | e] o1];
      simpl in *; [| discriminate].
    injection Hret as ->.
    destruct (IH (if fresh (Orchestrator.registry o) v then true else acc) o1)
      as (Hret' & Hsame' & Hol' & Hk').
    simpl in *. rewrite Hret'.
    destruct (fresh (Orchestrator.registry o) v) eqn:F; simpl.
    + rewrite orb_true_r. split; [reflexivity |]. split; [discriminate |].
      split; [eapply only_loads_trans; eassumption | auto].
    + rewrite (Hsame eq_refl) in *. auto.
Qed.

(** What [handleToolsLoading] may do, for any answer of the router. *)
Lemma handleToolsLoading_effect (response : ToolAgent.ToolAgentResult)
      (o : Orchestrator.t) :
  let o' := snd (Orchestrator.handleToolsLoading response o) in
  only_loads o o'
  /\ (loaded_tools_kept o -> loaded_tools_kept o')
  /\ (fst (Orchestrator.handleToolsLoading response o) <> Return true ->
      o' = o).
Proof.
  unfold Orchestrator.handleToolsLoading.
  destruct (Orchestrator.has_length (ToolAgent.skills response)); simpl;
    [| auto using only_loads_refl].
  unfold bind, await.
  destruct (Orchestrator.iterate (ToolAgent.skills response)) as [names | e];
    simpl; [| auto using only_loads_refl].
  destruct (load_each_effect names false o) as (Hret & Hsame & Hol & Hk).
  simpl in *. repeat split; try apply Hol; try assumption.
  intros Hne. apply Hsame. rewrite Hret in Hne.
  destruct (existsb (fresh (Orchestrator.registry o)) names);
    [now contradiction Hne | reflexivity].
Qed.

(** X14: for a list of requested skills, [handleToolsLoading] asks for a
    rebuild exactly when at least one element is the name of a registered
    skill that is not loaded yet; requested names that are unknown, already
    loaded or not strings contribute nothing, and if all are such the
    orchestrator is left as it was.  In any case the call returns, keeps
    both agents, the registered skills and the initialized set, and only
    adds to the tool accumulator and to the loaded set. *)
Theorem X14_handleToolsLoading_rebuild_needed :
  forall (names : list JSON.value) (reasoning : JSON.value)
         (o : Orchestrator.t),
    let response := {| ToolAgent.skills := JSON.JArray names;
                       ToolAgent.reasoning := reasoning |} in
    let o' := snd (Orchestrator.handleToolsLoading response o) in
    fst (Orchestrator.handleToolsLoading response o)
    = Return (existsb (fresh (Orchestrator.registry o)) names)
    /\ (existsb (fresh (Orchestrator.registry o)) names = false -> o' = o)
    /\ only_loads o o'.
Proof.
  intros names reasoning o. simpl.
  unfold Orchestrator.handleToolsLoading. simpl.
  destruct names as [| v names]; [simpl; auto using only_loads_refl |].
  simpl negb. cbv iota. unfold bind, await. simpl Orchestrator.iterate.
  cbv iota beta.
  destruct (load_each_effect (v :: names) false o) as (Hret & Hsame & Hol & _).
  simpl in Hret, Hsame, Hol |- *. auto.
Qed.

Lemma X14_handleToolsLoading_witness :
  snd (Orchestrator.handleToolsLoading
         {| ToolAgent.skills :=
              JSON.JArray [JSON.JString "weather"; JSON.JString "translator";
                           JSON.JNumber false 7 0];
            ToolAgent.reasoning := JSON.JString "again" |}
         Scenario.after_weather_turn)
  = Scenario.after_weather_turn.
Proof.
  destruct (X14_handleToolsLoading_rebuild_needed
              [JSON.JString "weather"; JSON.JString "translator";
               JSON.JNumber false 7 0]
              (JSON.JString "again") Scenario.after_weather_turn)
    as (_ & H & _).
  apply H. reflexivity.
Defined.

Lemma run_outcome (invoke : AgentOracle) (input : string) (a : MainAgent.t) :
  match fst (MainAgent.run invoke input a) with
  | Return output =>
      snd (MainAgent.run invoke input a)
      = MainAgent.set_chatHistory
          (MainAgent.chatHistory a ++ [HumanMessage input; AIMessage output]) a
  | Throw _ => snd (MainAgent.run invoke input a) = a
  end.
Proof.
  destruct (MainAgent.agent a) as [executor |] eqn:Ha.
  - destruct (invoke executor (assembled a input)) as [result | e] eqn:E.
    + now rewrite (@run_invocation_returns invoke input a executor result Ha E).
    + now rewrite (@run_invocation_fails invoke input a executor e Ha E).
  - now rewrite (@run_not_initialized invoke input a Ha).
Qed.

(** A turn, step by step: the answer of the router, the loading of skills,
    the rebuild if one is needed, the turn of the conversational agent. *)
Lemma run_steps (route : RouterOracle) (invoke : AgentOracle) (input : string)
      (o : Orchestrator.t) (ta : ToolAgent.t) (ca : MainAgent.t) :
  Orchestrator.toolAgent o = Some ta ->
  Orchestrator.chatAgent o = Some ca ->
  exists response,
    ToolAgent.run route (Orchestrator.registry o) input ta
    = (Return response, ta)
    /\ Orchestrator.run route invoke input o
    = match Orchestrator.handleToolsLoading response o with
      | (Throw e, o1) => (Throw e, o1)
      | (Return needRebuild, o1) =>
          Orchestrator.on_chatAgent (MainAgent.run invoke input)
            (if needRebuild : bool
             then Orchestrator.set_chatAgent
                    (Some (snd (MainAgent.buildExecutor
                                  (Some (Orchestrator.tools o1)) ca))) o1
             else o1)
      end.
Proof.
  intros Hta Hca.
  destruct o as [ta' ca' ts r]. simpl in Hta, Hca. subst ta' ca'.
  set (o := {| Orchestrator.toolAgent := Some ta;
               Orchestrator.chatAgent := Some ca;
               Orchestrator.tools := ts;
               Orchestrator.registry := r |}).
  set (response :=
         match route (ToolAgent.model ta) (routing_prompt r) input with
         | Return (Text content) =>
             match ToolAgent.extractResponse content with
             | Return res => res
             | Throw _ => no_skills "Error during routing"
             end
         | _ => no_skills "Error during routing"
         end).
  exists response. split; [apply ToolAgent_run_returns |].
  assert (Hrouted :
            Orchestrator.on_toolAgent (ToolAgent.run route r input) o
            = (Return response, o)).
  { unfold Orchestrator.on_toolAgent. simpl.
    now rewrite ToolAgent_run_returns. }
  unfold Orchestrator.run, bind at 1 2, get_state.
  cbn [Orchestrator.toolAgent Orchestrator.chatAgent Orchestrator.registry o].
  fold o. rewrite Hrouted. unfold bind at 1.
  destruct (handleToolsLoading_effect response o) as ((_ & Hc & _) & _).
  simpl in Hc.
  destruct (Orchestrator.handleToolsLoading response o) as [[[|] | e] o1];
    simpl in Hc; try reflexivity.
  unfold bind, get_state, ret.
  rewrite (on_chatAgent_some _ _ Hc), buildExecutor_state.
  reflexivity.
Qed.

(** X15: a turn of the orchestrator either returns, and the history has
    grown by the user input followed by the assistant message holding the
    returned output, or throws, and the history is as it was, whatever was
    loaded or rebuilt on the way. *)
Theorem X15_turn_appends_or_leaves_history :
  forall (route : RouterOracle) (invoke : AgentOracle) (input : string)
         (o : Orchestrator.t) (ca : MainAgent.t),
    Orchestrator.chatAgent o = Some ca ->
    session_history (snd (Orchestrator.run route invoke input o))
    = match fst (Orchestrator.run route invoke input o) with
      | Return output =>
          Some (MainAgent.chatHistory ca
                ++ [HumanMessage input; AIMessage output])
      | Throw _ => Some (MainAgent.chatHistory ca)
      end.
Proof.
  intros route invoke input o ca Hca.
  destruct (Orchestrator.toolAgent o) as [ta |] eqn:Hta.
  - destruct (run_steps route invoke input _ Hta Hca) as (response & _ & ->).
    destruct (handleToolsLoading_effect response o) as ((_ & Hc & _) & _).
    simpl in Hc. rewrite Hca in Hc.
    destruct (Orchestrator.handleToolsLoading response o) as [[b | e] o1];
      simpl in Hc; [| unfold session_history; simpl; now rewrite Hc].
    set (cb := if b then snd (MainAgent.buildExecutor
                                (Some (Orchestrator.tools o1)) ca) else ca).
    assert (Hcb : MainAgent.chatHistory cb = MainAgent.chatHistory ca).
    { subst cb. destruct b; [| reflexivity].
      now rewrite buildExecutor_state. }
    rewrite (@on_chatAgent_some _ _ _ cb) by (now destruct b).
    unfold session_history. simpl.
    pose proof (run_outcome invoke input cb) as Hout.
    destruct (fst (MainAgent.run invoke input cb)) as [output | e];
      rewrite Hout; destruct b; simpl; now rewrite ?Hcb.
  - unfold Orchestrator.run, bind, get_state, throw, session_history. rewrite Hta. simpl. now rewrite Hca.
Qed.

Lemma X15_turn_witness :
  session_history
    (snd (Orchestrator.run Scenario.route_weather Scenario.agent_down
            "and tomorrow?" Scenario.after_weather_turn))
  = session_history Scenario.after_weather_turn.
Proof.
  destruct (Orchestrator.chatAgent Scenario.after_weather_turn) as [ca |] eqn:E;
    [| discriminate].
  rewrite (@X15_turn_appends_or_leaves_history Scenario.route_weather
             Scenario.agent_down "and tomorrow?" Scenario.after_weather_turn
             ca E).
  unfold session_history. rewrite E. reflexivity.
Defined.

(** The state after a turn, whatever its outcome: skill loading, then
    possibly a new conversational agent in the same place. *)
Lemma run_only_loads (route : RouterOracle) (invoke : AgentOracle)
      (input : string) (o : Orchestrator.t) :
  exists o1 ca',
    only_loads o o1
    /\ (loaded_tools_kept o -> loaded_tools_kept o1)
    /\ (snd (Orchestrator.run route invoke input o) = o1
        \/ snd (Orchestrator.run route invoke input o)
           = Orchestrator.set_chatAgent ca' o1).
Proof.
  destruct (Orchestrator.toolAgent o) as [ta |] eqn:Hta;
    [destruct (Orchestrator.chatAgent o) as [ca |] eqn:Hca |].
  - destruct (run_steps route invoke input _ Hta Hca) as (response & _ & ->).
    destruct (handleToolsLoading_effect response o) as (Hol & Hk & _).
    simpl in Hol, Hk.
    destruct (Orchestrator.handleToolsLoading response o) as [[b | e] o1];
      simpl in Hol, Hk.
    + unfold Orchestrator.on_chatAgent.
      destruct b; simpl.
      * destruct (MainAgent.run invoke input _) as [c a']. simpl.
        exists o1, (Some a'). auto.
      * destruct (Orchestrator.chatAgent o1);
          [destruct (MainAgent.run invoke input _) as [c a'] |]; simpl.
        -- exists o1, (Some a'). auto.
        -- exists o1, None. auto.
    + exists o1, None. auto.
  - exists o, None. split; [apply only_loads_refl |]. split; [auto |]. left.
    unfold Orchestrator.run, bind, get_state, throw. now rewrite Hta, Hca.
  - exists o, None. split; [apply only_loads_refl |]. split; [auto |]. left.
    unfold Orchestrator.run, bind, get_state, throw. now rewrite Hta.
Qed.

(** X16: no turn and no [clearHistory] changes what is registered or
    initialized: [getAvailableSkills()] answers the same before and after,
    no hook runs again, and the router stays in place.  A turn never
    unloads a skill. *)
Theorem X16_session_never_changes_the_catalogue :
  forall (route : RouterOracle) (invoke : AgentOracle) (input : string)
         (o : Orchestrator.t),
    let after_run := snd (Orchestrator.run route invoke input o) in
    let after_clear := snd (Orchestrator.clearHistory o) in
    (Orchestrator.getAvailableSkills after_run = Orchestrator.getAvailableSkills o
     /\ SkillsRegistry.initialized (Orchestrator.registry after_run)
        = SkillsRegistry.initialized (Orchestrator.registry o)
     /\ Orchestrator.toolAgent after_run = Orchestrator.toolAgent o
     /\ incl (Orchestrator.getLoadedSkills o)
             (Orchestrator.getLoadedSkills after_run))
    /\ (Orchestrator.getAvailableSkills after_clear
        = Orchestrator.getAvailableSkills o
        /\ SkillsRegistry.initialized (Orchestrator.registry after_clear)
           = SkillsRegistry.initialized (Orchestrator.registry o)
        /\ Orchestrator.toolAgent after_clear = Orchestrator.toolAgent o).
Proof.
  intros route invoke input o. simpl. split.
  - destruct (run_only_loads route invoke input o)
      as (o1 & ca' & (Hta & _ & Hs & Hi & Hl & _) & _ & [-> | ->]);
      unfold Orchestrator.getAvailableSkills, SkillsRegistry.getAllMetadata,
        Orchestrator.getLoadedSkills in *; simpl; rewrite Hs; auto.
  - destruct (Orchestrator.chatAgent o) as [ca |] eqn:Hca.
    + destruct (clearHistory_effect _ Hca) as (a' & -> & _). auto.
    + unfold Orchestrator.clearHistory, bind, get_state, ret.
      rewrite Hca. auto.
Qed.

Lemma loaded_tools_kept_agent (ca : option MainAgent.t) (o : Orchestrator.t) :
  loaded_tools_kept o -> loaded_tools_kept (Orchestrator.set_chatAgent ca o).
Proof. exact (fun H => H). Qed.

Lemma run_agent_bound (invoke : AgentOracle) (input : string)
      (a : MainAgent.t) (executor : ReactAgent) :
  MainAgent.agent a = Some executor ->
  agent_tools executor = MainAgent.tools a ->
  MainAgent.agent (snd (MainAgent.run invoke input a)) = Some executor
  /\ MainAgent.tools (snd (MainAgent.run invoke input a)) = MainAgent.tools a.
Proof.
  intros Ha Hb.
  destruct (run_keeps_all_but_history invoke input a) as (Hag & _ & Hts & _).
  simpl in *. split; congruence.
Qed.

Lemma initialize_consistent (o : Orchestrator.t) :
  fst (Orchestrator.initialize o) = Return tt ->
  Orchestrator.tools o = [] ->
  Orchestrator.getLoadedSkills o = [] ->
  session_consistent (snd (Orchestrator.initialize o)).
Proof.
  unfold Orchestrator.initialize, Orchestrator.on_registry, zoom, bind,
    get_state, modify, throw.
  destruct (initializeAll_effect (Orchestrator.registry o)) as (_ & Hl & _).
  simpl in Hl.
  destruct (SkillsRegistry.initializeAll (Orchestrator.registry o))
    as [[[] | e] r']; simpl in *; [| discriminate].
  destruct (List.length (SkillsRegistry.getNames r') =? 0)%nat; simpl;
    [discriminate |].
  intros _ Ht Hld. unfold session_consistent. simpl.
  do 3 eexists. repeat split; try reflexivity.
  - rewrite Ht. intros x [].
  - intros name skill. unfold Orchestrator.getLoadedSkills in *. simpl.
    unfold SkillsRegistry.getLoadedSkillNames in *. rewrite Hl, Hld.
    intros [].
Qed.

Lemma run_consistent (route : RouterOracle) (invoke : AgentOracle)
      (input : string) (o : Orchestrator.t) :
  session_consistent o ->
  session_consistent (snd (Orchestrator.run route invoke input o)).
Proof.
  intros (ta & ca & executor & Hta & Hca & Hex & Hb & Hnames & Hk).
  destruct (run_steps route invoke input _ Hta Hca) as (response & _ & ->).
  destruct (handleToolsLoading_effect response o)
    as ((Hta1 & Hca1 & _) & Hk1 & Hsame).
  simpl in *. rewrite Hta in Hta1. rewrite Hca in Hca1.
  destruct (Orchestrator.handleToolsLoading response o) as [[[|] | e] o1];
    simpl in *.
  - (* new skills: rebuild, then the turn *)
    rewrite (@on_chatAgent_some _ _ _
               (snd (MainAgent.buildExecutor (Some (Orchestrator.tools o1)) ca)))
      by reflexivity.
    simpl. rewrite buildExecutor_state. simpl.
    match goal with
    | |- context [MainAgent.run invoke input ?cb] =>
        destruct (@run_agent_bound invoke input cb _ eq_refl eq_refl)
          as (Hag & Hts)
    end.
    simpl in Hag, Hts.
    do 3 eexists. simpl.
    split; [exact Hta1 |]. split; [reflexivity |]. split; [exact Hag |].
    split; [now rewrite Hts |]. split; [| auto].
    rewrite Hts. intros name Hname. apply merge_names. now right.
  - (* nothing new *)
    rewrite (Hsame ltac:(discriminate)) in *.
    rewrite (on_chatAgent_some _ _ Hca). simpl.
    destruct (@run_agent_bound invoke input ca executor Hex Hb) as (Hag & Hts).
    do 3 eexists. simpl.
    split; [exact Hta |]. split; [reflexivity |]. split; [exact Hag |].
    split; [congruence |]. split; [now rewrite Hts | auto].
  - rewrite (Hsame ltac:(discriminate)).
    exists ta, ca, executor. auto 7.
Qed.

Lemma clearHistory_consistent (o : Orchestrator.t) :
  session_consistent o ->
  session_consistent (snd (Orchestrator.clearHistory o)).
Proof.
  intros (ta & ca & executor & Hta & Hca & Hex & Hb & Hnames & Hk).
  destruct (clearHistory_effect _ Hca) as (a' & -> & _ & Hts & Hag).
  simpl. destruct (MainAgent.agent a') as [executor' |] eqn:E;
    [| discriminate].
  simpl in Hag. injection Hag as Hag.
  exists ta, a', executor'. simpl.
  repeat split; try assumption; try congruence.
  - intros x [].
  - intros name skill [].
Qed.

(** X17: the three owners of session state stay in step.  After a first
    [initialize()] that returns, and from then on after every turn,
    returning or not, and after every [clearHistory()], both agents exist,
    the executable agent is bound to the tool set of the conversational
    agent, and for every skill that [getLoadedSkills()] lists, the name of
    each of its tools is the name of a tool of the executable agent. *)
Theorem X17_loaded_skills_have_their_tools :
  (forall o : Orchestrator.t,
      fst (Orchestrator.initialize o) = Return tt ->
      Orchestrator.tools o = [] ->
      Orchestrator.getLoadedSkills o = [] ->
      session_consistent (snd (Orchestrator.initialize o)))
  /\ (forall (route : RouterOracle) (invoke : AgentOracle) (input : string)
             (o : Orchestrator.t),
        session_consistent o ->
        session_consistent (snd (Orchestrator.run route invoke input o))
        /\ session_consistent (snd (Orchestrator.clearHistory o)))
  /\ (forall o : Orchestrator.t,
        session_consistent o ->
        exists ca executor,
          Orchestrator.chatAgent o = Some ca
          /\ MainAgent.agent ca = Some executor
          /\ forall name skill tool,
               In name (Orchestrator.getLoadedSkills o) ->
               SkillsRegistry.get (Orchestrator.registry o) name = Some skill ->
               In tool (Skill.tools skill) ->
               In (DynamicStructuredTool.name tool)
                  (tool_names (agent_tools executor))).
Proof.
  split; [exact initialize_consistent |]. split.
  - intros route invoke input o H. split.
    + now apply run_consistent.
    + now apply clearHistory_consistent.
  - intros o (ta & ca & executor & Hta & Hca & Hex & Hb & Hnames & Hk).
    exists ca, executor. repeat split; try assumption.
    intros name skill tool Hin G Ht. rewrite Hb. apply Hnames.
    unfold tool_names. apply in_map. now apply (Hk name skill).
Qed.

Lemma X17_loaded_skills_witness :
  session_consistent
    (snd (Orchestrator.clearHistory
            (snd (Orchestrator.run Scenario.route_weather
                    (Scenario.answer "Sunny.") "what's the weather in Paris"
                    (snd (Orchestrator.initialize Orchestrator.new)))))).
Proof.
  destruct X17_loaded_skills_have_their_tools as (Hinit & Hstep & _).
  refine (proj2 (Hstep Scenario.route_weather (Scenario.answer "Sunny.")
                       "" _ _)).
  refine (proj1 (Hstep Scenario.route_weather (Scenario.answer "Sunny.")
                       "what's the weather in Paris" _ _)).
  apply Hinit; reflexivity.
Defined.

(** Initializing again an orchestrator that has loaded a skill gives a new
    conversational agent without tools, while the skill still counts as
    loaded. *)
Example initialize_again_forgets_tools :
  let o := snd (Orchestrator.initialize Scenario.after_weather_turn) in
  fst (Orchestrator.initialize Scenario.after_weather_turn) = Return tt
  /\ Orchestrator.getLoadedSkills o = ["weather"]
  /\ agent_tool_names o = Some [].
Proof. repeat split. Qed.

Lemma initialize_each_returns (names : list string) (s : SkillsRegistry.t) :
  fst (for_of names SkillsRegistry.initializeSkill s) = Return tt ->
  forall name,
    In name names ->
    In name (SkillsRegistry.initialized
               (snd (for_of names SkillsRegistry.initializeSkill s))).
Proof.
  revert s. induction names as [| n names IH]; intros s Hret name Hin;
    [destruct Hin |].
  simpl in *. unfold bind in *.
  destruct (initializeSkill_again n s) as (_ & _ & _ & Hdone).
  destruct (SkillsRegistry.initializeSkill n s) as [[[] | e] s1] eqn:E;
    simpl in *; [| discriminate].
  destruct Hin as [<- | Hin]; [| now apply IH].
  destruct (Hdone eq_refl) as [Hn _].
  assert (Hgrow : forall names s,
             incl (SkillsRegistry.initialized s)
                  (SkillsRegistry.initialized
                     (snd (for_of names SkillsRegistry.initializeSkill s)))).
  { clear. induction names as [| n names IH]; intros s; simpl.
    - apply incl_refl.
    - unfold bind.
      destruct (initializeSkill_again n s) as (_ & _ & Hi & _).
      destruct (SkillsRegistry.initializeSkill n s) as [[[] | e] s1];
        simpl in *; [| exact Hi].
      eapply incl_tran; [exact Hi | apply IH]. }
  now apply Hgrow.
Qed.

(** X18: the outcome of [Orchestrator.initialize].  When it returns, the
    registry is not empty, every registered skill is initialized, the
    router exists, and the conversational agent is a new one, without tools
    and without history, whatever agent there was before.  When it throws,
    no agent has been set up or replaced, and the error is 'No skills
    registered.' for an empty registry or else the error of a rejecting
    hook. *)
Theorem X18_initialize_outcome :
  forall o : Orchestrator.t,
    let o' := snd (Orchestrator.initialize o) in
    match fst (Orchestrator.initialize o) with
    | Return _ =>
        SkillsRegistry.getNames (Orchestrator.registry o) <> []
        /\ (forall name, registered (Orchestrator.registry o) name ->
                         In name (SkillsRegistry.initialized
                                    (Orchestrator.registry o')))
        /\ Orchestrator.toolAgent o' = Some ToolAgent.new
        /\ agent_tool_names o' = Some []
        /\ session_history o' = Some []
        /\ Orchestrator.tools o' = Orchestrator.tools o
        /\ Orchestrator.getLoadedSkills o' = Orchestrator.getLoadedSkills o
    | Throw e =>
        Orchestrator.toolAgent o' = Orchestrator.toolAgent o
        /\ Orchestrator.chatAgent o' = Orchestrator.chatAgent o
        /\ ((e = ErrNoSkillsRegistered
             /\ SkillsRegistry.getNames (Orchestrator.registry o) = [])
            \/ exists name skill hook,
                 SkillsRegistry.get (Orchestrator.registry o) name = Some skill
                 /\ Skill.initialize skill = Some hook
                 /\ hook tt = Throw e)
    end.
Proof.
  intros o. simpl.
  unfold Orchestrator.initialize, Orchestrator.on_registry, zoom, bind,
    get_state, modify, throw.
  destruct (initializeAll_effect (Orchestrator.registry o)) as (Hs & Hl & _).
  pose proof (fun e => @initialize_each_throws
                         (map_keys (SkillsRegistry.skills (Orchestrator.registry o)))
                         (Orchestrator.registry o) (Orchestrator.registry o) e
                         (fun n H => H) eq_refl) as Hthrow.
  pose proof (@initialize_each_returns
                (map_keys (SkillsRegistry.skills (Orchestrator.registry o)))
                (Orchestrator.registry o)) as Hall.
  unfold SkillsRegistry.initializeAll, bind, get_state in *.
  destruct (for_of (map_keys (SkillsRegistry.skills (Orchestrator.registry o)))
                   SkillsRegistry.initializeSkill (Orchestrator.registry o))
    as [[[] | e] r']; simpl in *.
  - unfold SkillsRegistry.getNames. rewrite Hs.
    destruct (map_keys (SkillsRegistry.skills (Orchestrator.registry o)))
      as [| k ks] eqn:K; simpl.
    + auto.
    + repeat split; try discriminate.
      * intros name Hn. apply Hall; [reflexivity |].
        unfold registered, SkillsRegistry.getNames in Hn. now rewrite K in Hn.
      * unfold Orchestrator.getLoadedSkills. simpl.
        unfold SkillsRegistry.getLoadedSkillNames. now rewrite Hl.
  - repeat split. right. now apply Hthrow.
Qed.




(** The second case at work: the model answers
    [{"skills":{"length":1}}]. *)
Example turn_fails_on_object_skills :
  Orchestrator.run
    (fun _ _ _ =>
       Return (Text ("{" ++ Str.quoted "skills" ++ ":{" ++ Str.quoted "length"
                     ++ ":1}}")))
    (Scenario.answer "never asked") "hello" Scenario.ready
  = (Throw ErrType, Scenario.ready).
Proof. reflexivity. Qed.

Lemma handleToolsLoading_array (names : list JSON.value)
      (reasoning : JSON.value) (o : Orchestrator.t) :
  Orchestrator.handleToolsLoading
    {| ToolAgent.skills := JSON.JArray names;
       ToolAgent.reasoning := reasoning |} o
  = Orchestrator.load_each names false o.
Proof.
  unfold Orchestrator.handleToolsLoading. simpl.
  destruct names as [| v names]; [reflexivity |].
  reflexivity.
Qed.

(** X24: a turn whose router asks for nothing new, only for skills that are
    unknown or already loaded, forces no rebuild and is just the turn of the
    conversational agent: the accumulator and the registry are as before,
    the outcome is the one of [MainAgent.run], and the executable agent and
    the tool set of the conversational agent are the ones it had. *)
Theorem X24_turn_without_new_skills :
  forall (route : RouterOracle) (invoke : AgentOracle) (input : string)
         (o : Orchestrator.t) (ta : ToolAgent.t) (ca : MainAgent.t)
         (names : list JSON.value) (reasoning : JSON.value),
    Orchestrator.toolAgent o = Some ta ->
    Orchestrator.chatAgent o = Some ca ->
    ToolAgent.run route (Orchestrator.registry o) input ta
    = (Return {| ToolAgent.skills := JSON.JArray names;
                 ToolAgent.reasoning := reasoning |}, ta) ->
    existsb (fresh (Orchestrator.registry o)) names = false ->
    Orchestrator.run route invoke input o
    = (fst (MainAgent.run invoke input ca),
       Orchestrator.set_chatAgent (Some (snd (MainAgent.run invoke input ca))) o)
    /\ MainAgent.agent (snd (MainAgent.run invoke input ca)) = MainAgent.agent ca
    /\ MainAgent.tools (snd (MainAgent.run invoke input ca)) = MainAgent.tools ca.
Proof.
  intros route invoke input o ta ca names reasoning Hta Hca Hr Hstale.
  destruct (run_steps route invoke input _ Hta Hca) as (response & Hr' & ->).
  rewrite Hr in Hr'. injection Hr' as <-.
  rewrite handleToolsLoading_array.
  destruct (run_keeps_all_but_history invoke input ca) as (Hag & _ & Hts & _).
  cbv zeta in Hag, Hts.
  destruct (load_each_effect names false o) as (Hret & Hsame & _).
  cbv zeta in Hret, Hsame. rewrite Hstale in Hret. specialize (Hsame Hstale).
  destruct (Orchestrator.load_each names false o) as [c o1].
  simpl in Hret, Hsame. subst c o1.
  rewrite (on_chatAgent_some _ _ Hca). auto.
Qed.

Lemma X24_turn_witness :
  MainAgent.agent
    (snd (MainAgent.run (Scenario.answer "Still sunny.") "and now?"
            (snd (MainAgent.run (Scenario.answer "Sunny.")
                    "what's the weather in Paris"
                    (snd (MainAgent.buildExecutor
                            (Some (Skill.tools WeatherSkill))
                            (snd (MainAgent.initialize MainAgent.new))))))))
  = Some (mkAgent ChatModel (Skill.tools WeatherSkill) 1).
Proof.
  destruct (Orchestrator.chatAgent Scenario.after_weather_turn) as [ca |] eqn:E;
    [| discriminate].
  destruct (@X24_turn_without_new_skills Scenario.route_weather
              (Scenario.answer "Still sunny.") "and now?"
              Scenario.after_weather_turn ToolAgent.new ca
              [JSON.JString "weather"] (JSON.JString "x")
              eq_refl E eq_refl eq_refl) as (_ & H & _).
  vm_compute in E. injection E as <-. exact H.
Defined.

(** X25: a turn whose router asks for one registered skill that is not
    loaded yet loads it and rebuilds once before the conversational agent
    runs: the name goes last in [getLoadedSkills()], the tools of the skill
    go last in the accumulator, the conversational agent merges the whole
    accumulator into its tool set, and exactly one new executable agent is
    built, bound to the merged tool set. *)
Theorem X25_turn_loading_one_skill :
  forall (route : RouterOracle) (invoke : AgentOracle) (input : string)
         (o : Orchestrator.t) (ta : ToolAgent.t) (ca : MainAgent.t)
         (name : string) (skill : Skill.t) (reasoning : JSON.value),
    Orchestrator.toolAgent o = Some ta ->
    Orchestrator.chatAgent o = Some ca ->
    ToolAgent.run route (Orchestrator.registry o) input ta
    = (Return {| ToolAgent.skills := JSON.JArray [JSON.JString name];
                 ToolAgent.reasoning := reasoning |}, ta) ->
    SkillsRegistry.get (Orchestrator.registry o) name = Some skill ->
    SkillsRegistry.isSkillLoaded (Orchestrator.registry o) name = false ->
    let o' := snd (Orchestrator.run route invoke input o) in
    Orchestrator.getLoadedSkills o' = Orchestrator.getLoadedSkills o ++ [name]
    /\ Orchestrator.tools o' = Orchestrator.tools o ++ Skill.tools skill
    /\ exists ca' executor,
         Orchestrator.chatAgent o' = Some ca'
         /\ MainAgent.tools ca'
            = MainAgent.merge (MainAgent.tools ca)
                              (Orchestrator.tools o ++ Skill.tools skill)
         /\ MainAgent.agent ca' = Some executor
         /\ agent_tools executor = MainAgent.tools ca'
         /\ serial executor = MainAgent.created ca
         /\ MainAgent.created ca' = S (MainAgent.created ca).
Proof.
  intros route invoke input o ta ca name skill reasoning Hta Hca Hr G L.
  destruct (run_steps route invoke input _ Hta Hca) as (response & Hr' & Hrun).
  rewrite Hr in Hr'. injection Hr' as <-.
  assert (Hload : Orchestrator.handleToolsLoading
                    {| ToolAgent.skills := JSON.JArray [JSON.JString name];
                       ToolAgent.reasoning := reasoning |} o
                  = (Return true,
                     {| Orchestrator.toolAgent := Orchestrator.toolAgent o;
                        Orchestrator.chatAgent := Orchestrator.chatAgent o;
                        Orchestrator.tools
                        := Orchestrator.tools o ++ Skill.tools skill;
                        Orchestrator.registry :=
                          SkillsRegistry.set_loadedSkills
                            (SkillsRegistry.loadedSkills
                               (Orchestrator.registry o) ++ [name])
                            (Orchestrator.registry o) |})).
  { rewrite handleToolsLoading_array. simpl. unfold bind.
    now rewrite (loadSkillTools_fresh _ _ G L). }
  cbv zeta. rewrite Hrun, Hload. clear Hrun Hload.
  erewrite on_chatAgent_some by reflexivity.
  cbn [snd Orchestrator.tools Orchestrator.registry Orchestrator.chatAgent
       Orchestrator.set_chatAgent Orchestrator.getLoadedSkills
       SkillsRegistry.getLoadedSkillNames SkillsRegistry.loadedSkills
       SkillsRegistry.set_loadedSkills].
  split; [reflexivity |]. split; [reflexivity |].
  match goal with
  | |- context [MainAgent.run invoke input ?cb] =>
      destruct (run_keeps_all_but_history invoke input cb)
        as (Hag & _ & Hts & Hcr & _)
  end.
  cbv zeta in Hag, Hts, Hcr. rewrite buildExecutor_state in *.
  cbn [snd MainAgent.agent MainAgent.tools MainAgent.created] in *.
  eexists. eexists. split; [reflexivity |]. rewrite Hts, Hag, Hcr.
  repeat split.
Qed.

Lemma X25_turn_witness :
  Orchestrator.getLoadedSkills Scenario.after_weather_turn = ["weather"]
  /\ Orchestrator.tools Scenario.after_weather_turn = Skill.tools WeatherSkill.
Proof.
  destruct (Orchestrator.chatAgent Scenario.ready) as [ca |] eqn:E;
    [| discriminate].
  destruct (@X25_turn_loading_one_skill Scenario.route_weather
              (Scenario.answer "Sunny.") "what's the weather in Paris"
              Scenario.ready ToolAgent.new ca "weather" WeatherSkill
              (JSON.JString "x") eq_refl E eq_refl eq_refl eq_refl)
    as (H1 & H2 & _).
  split; [exact H1 | exact H2].
Defined.

(* ===================================================================== *)
(** * More on the router *)
(* ===================================================================== *)

Lemma substitution_plain (repl : list ascii) (matched before after : string) :
  ~ In "$"%char repl ->
  Str.substitution repl matched before after = string_of_list_ascii repl.
Proof.
  induction repl as [| c repl IH]; intros H; [reflexivity |].
  assert (Hc : c <> "$"%char) by (intros ->; apply H; now left).
  assert (IH' : Str.substitution repl matched before after
                = string_of_list_ascii repl) by (apply IH; intros Hin; apply H; now right).
  clear IH H.
  destruct c as [[] [] [] [] [] [] [] []];
    try (exfalso; apply Hc; reflexivity);
    simpl; now rewrite IH'.
Qed.

Lemma replace_plain (before pattern after replacement : string) :
  index 0 pattern (before ++ pattern ++ after)
  = Some (String.length before) ->
  dollar_free replacement ->
  Str.replace (before ++ pattern ++ after) pattern replacement
  = (before ++ replacement ++ after)%string.
Proof.
  intros Hi Hd. unfold Str.replace. rewrite Hi.
  assert (Hb : substring 0 (String.length before) (before ++ pattern ++ after)
               = before).
  { clear. induction before as [| c b IH]; simpl.
    - now destruct (pattern ++ after)%string.
    - now rewrite IH. }
  assert (Ha : forall s n,
             substring (String.length s + n)
                       (String.length (s ++ after) - (String.length s + n))
                       (s ++ after)
             = substring n (String.length after - n) after).
  { clear. induction s as [| c s IH]; intros n; simpl; [reflexivity |].
    apply IH. }
  rewrite Hb. f_equal. f_equal.
  - rewrite substitution_plain by exact Hd.
    apply string_of_list_ascii_of_string.
  - replace (before ++ pattern ++ after)%string
      with ((before ++ pattern) ++ after)%string
      by (clear; induction before; simpl; congruence).
    replace (String.length before + String.length pattern)
      with (String.length (before ++ pattern) + 0).
    + rewrite Ha. rewrite Nat.sub_0_r. clear.
      induction after as [| c a IH]; simpl; [reflexivity |]. now rewrite IH.
    + rewrite Nat.add_0_r. clear.
      induction before; simpl; congruence.
Qed.

Lemma in_chars_concat (c : ascii) (sep : string) (l : list string) :
  In c (chars (String.concat sep l)) ->
  In c (chars sep) \/ exists x, In x l /\ In c (chars x).
Proof.
  induction l as [| x l IH]; simpl; [tauto |].
  destruct l as [| y l].
  - intros H. right. eauto.
  - rewrite !chars_app, !in_app_iff. intros [H | [H | H]].
    + right. eauto.
    + now left.
    + destruct (IH H) as [Hs | (z & Hz & Hc)]; [now left | right]. eauto.
Qed.

(** X19: the system prompt of the router is the template with the list of
    skills in the place of [{skills_list}], one line [- **name**: description]
    per registered skill in the order of registration, and nothing of the
    tools, as long as no name and no description holds a dollar sign. *)
Theorem X19_routing_prompt_lists_the_skills :
  forall registry : SkillsRegistry.t,
    (forall m, In m (SkillsRegistry.getAllMetadata registry) ->
               dollar_free (SkillMetadata.name m)
               /\ dollar_free (SkillMetadata.description m)) ->
    routing_prompt registry
    = (prompt_head
       ++ String.concat Str.newline
            (List.map (fun skill =>
                         "- **" ++ skill_name skill ++ "**: "
                         ++ SkillMetadata.description (Skill.metadata skill))
                      (map_values (SkillsRegistry.skills registry)))
       ++ prompt_tail)%string.
Proof.
  intros registry Hd. unfold routing_prompt.
  change ToolAgent.TOOL_AGENT_SYSTEM_PROMPT
    with (prompt_head ++ "{skills_list}" ++ prompt_tail)%string.
  rewrite replace_plain.
  - unfold ToolAgent.buildSkillsList, SkillsRegistry.getAllMetadata.
    now rewrite map_map.
  - vm_compute. reflexivity.
  - intros Hin. apply in_chars_concat in Hin.
    destruct Hin as [Hin | (line & Hline & Hin)].
    + vm_compute in Hin. intuition discriminate.
    + apply in_map_iff in Hline. destruct Hline as (m & <- & Hm).
      destruct (Hd m Hm) as [Hn Hdesc].
      rewrite !chars_app, !in_app_iff in Hin.
      destruct Hin as [Hin | [Hin | [Hin | Hin]]]; try contradiction;
        vm_compute in Hin; intuition discriminate.
Qed.

Lemma X19_routing_prompt_witness :
  routing_prompt (Orchestrator.registry Orchestrator.new)
  = (prompt_head
     ++ String.concat Str.newline
          (List.map (fun skill =>
                       "- **" ++ skill_name skill ++ "**: "
                       ++ SkillMetadata.description (Skill.metadata skill))
                    [CalculatorSkill; WeatherSkill; WebSearchSkill; DateTimeSkill])
     ++ prompt_tail)%string.
Proof.
  apply (@X19_routing_prompt_lists_the_skills
           (Orchestrator.registry Orchestrator.new)).
  intros m Hm. vm_compute in Hm.
  destruct Hm as [<- | [<- | [<- | [<- | []]]]];
    split; intros Hin; vm_compute in Hin; intuition discriminate.
Defined.

(** A description with [$&] in it brings the placeholder back. *)
Example dollar_in_a_description :
  Str.replace "list: {skills_list}." "{skills_list}" "- **pay**: costs $& each"
  = "list: - **pay**: costs {skills_list} each.".
Proof. reflexivity. Qed.

Lemma truthy_false (v : JSON.value) :
  JSON.truthy v = false
  <-> v = JSON.JNull \/ v = JSON.JBool false \/ v = JSON.JString ""
      \/ exists n m e, v = JSON.JNumber n m e /\ JSON.number_is_zero m e = true.
Proof.
  destruct v as [| [] | n m e | s | l | ms]; simpl; split; intros H;
    try discriminate; try tauto;
    try (destruct H as [H | [H | [H | (? & ? & ? & H & _)]]]; discriminate).
  - apply negb_false_iff in H. eauto 8.
  - destruct H as [H | [H | [H | (? & ? & ? & H & Hz)]]]; try discriminate.
    injection H as -> -> ->. now rewrite Hz.
  - apply negb_false_iff, String.eqb_eq in H. subst. auto.
  - destruct H as [H | [H | [H | (? & ? & ? & H & _)]]]; try discriminate.
    now injection H as ->.
Qed.

(** X20: a member [skills] or [reasoning] that is there but falsy, that is
    [null], [false], the empty string or a number that is zero, is replaced
    like a missing one: [skills] by the empty list, [reasoning] by "n/a". *)
Theorem X20_falsy_members_default :
  forall (content jsonMatch : string) (members : list (string * JSON.value)),
    Str.match_braces content = Some jsonMatch ->
    JSON.parse jsonMatch = Some (JSON.JObject members) ->
    exists r,
      ToolAgent.extractResponse content = Return r
      /\ (forall v, JSON.member members "skills" = Some v ->
                    (v = JSON.JNull \/ v = JSON.JBool false
                     \/ v = JSON.JString ""
                     \/ exists n m e, v = JSON.JNumber n m e
                                      /\ JSON.number_is_zero m e = true) ->
                    ToolAgent.skills r = JSON.JArray [])
      /\ (forall v, JSON.member members "reasoning" = Some v ->
                    (v = JSON.JNull \/ v = JSON.JBool false
                     \/ v = JSON.JString ""
                     \/ exists n m e, v = JSON.JNumber n m e
                                      /\ JSON.number_is_zero m e = true) ->
                    ToolAgent.reasoning r = JSON.JString "n/a").
Proof.
  intros content jsonMatch members Hm Hp.
  rewrite (extractResponse_object _ Hm Hp). eexists. split; [reflexivity |].
  simpl. split; intros v -> Hv; apply truthy_false in Hv; simpl;
    now rewrite Hv.
Qed.

Lemma X20_falsy_witness :
  ToolAgent.extractResponse
    ("{" ++ Str.quoted "skills" ++ ":null," ++ Str.quoted "reasoning" ++ ":"
     ++ Str.quoted "" ++ "}")
  = Return (no_skills "n/a").
Proof.
  destruct (@X20_falsy_members_default
              ("{" ++ Str.quoted "skills" ++ ":null," ++ Str.quoted "reasoning"
               ++ ":" ++ Str.quoted "" ++ "}")
              ("{" ++ Str.quoted "skills" ++ ":null," ++ Str.quoted "reasoning"
               ++ ":" ++ Str.quoted "" ++ "}")
              [("skills", JSON.JNull); ("reasoning", JSON.JString "")]
              eq_refl eq_refl) as (r & Hr & Hs & Hreason).
  rewrite Hr. f_equal. destruct r as [s t]. simpl in *. unfold no_skills.
  f_equal.
  - apply (Hs JSON.JNull); auto.
  - apply (Hreason (JSON.JString "")); auto.
Defined.

Lemma match_from_found (pre mid post : list ascii) :
  Str.match_from (pre ++ "{"%char :: mid ++ "}"%char :: post) <> None.
Proof.
  assert (Htail : forall l, Str.match_tail (l ++ "}"%char :: post) <> None).
  { intros l H. apply match_tail_none_inv in H. apply H.
    apply in_app_iff. right. now left. }
  induction pre as [| c pre IH]; simpl.
  - destruct (Str.match_tail (mid ++ "}"%char :: post)) eqn:E;
      [discriminate | now apply Htail in E].
  - destruct (Ascii.eqb c "{"%char); [| exact IH].
    destruct (Str.match_tail (pre ++ "{"%char :: mid ++ "}"%char :: post))
      eqn:E; [discriminate |].
    exfalso. apply (Htail (pre ++ "{"%char :: mid)).
    now rewrite <- app_assoc.
Qed.

(** X21: the answer of the model is taken to hold no JSON exactly when no
    opening brace in it is followed, at any distance, by a closing brace;
    closing braces before the first opening one do not count.  The result
    is then skills [] and reasoning "No JSON response". *)
Theorem X21_no_match_without_brace_pair :
  forall content : string,
    (Str.match_braces content = None
     <-> ~ exists pre mid post,
           chars content = pre ++ "{"%char :: mid ++ "}"%char :: post)
    /\ (Str.match_braces content = None ->
        ToolAgent.extractResponse content = Return (no_skills "No JSON response")).
Proof.
  intros content. split; [split |].
  - unfold Str.match_braces. fold (chars content).
    destruct (Str.match_from (chars content)) eqn:E; [discriminate |].
    intros _ (pre & mid & post & H). rewrite H in E.
    now apply match_from_found in E.
  - intros H. unfold Str.match_braces. fold (chars content).
    destruct (Str.match_from (chars content)) as [m |] eqn:E; [| reflexivity].
    exfalso. apply H. apply match_from_inv in E.
    destruct E as (pre & mid & post & E & _). eauto.
  - intros H. unfold ToolAgent.extractResponse. now rewrite H.
Qed.

Lemma X21_no_match_witness :
  ToolAgent.extractResponse "} no skills here {"
  = Return (no_skills "No JSON response").
Proof.
  destruct (X21_no_match_without_brace_pair "} no skills here {") as [_ H].
  apply H. reflexivity.
Defined.

(* ===================================================================== *)
(** * The [calculate] tool: what reaches the evaluator *)
(* ===================================================================== *)


(** [2^3] reaches the evaluator as [23]. *)
Example two_to_the_third :
  Calculate.withPower (Calculate.units "2^3 + x") = Calculate.units "23 + ".
Proof. reflexivity. Qed.
